(** * Parsed-document dialog and list badges: a shallow embedding

    The development follows the source files of the front end:
    - the parsed-data dialog ([getParseStatusBadge], [formatDate],
      [formatMoney], [formatText], [getSummaryRows], [getParseMessage],
      [getRawText], [getJsonText], the values the dialog component
      computes from them and what its three tabs show),
    - [contract-columns.tsx] and [invoice-columns.tsx] (the row badge
      [getParseStatusBadge] of each table and the cells of the rows), and
      the cells of the project table,
    - the project page and the invoice dialog (the selection of a
      contract or an invoice, the deletion of a contract, the props they
      pass to the parsed-data dialog),
    - the forms [AddContract], [AddInvoice] and [AddContractProject] (the
      file that goes with a submission, the string fields of the
      schemas),
    - the query keys of the pages and the keys the mutations invalidate.

    How JavaScript is modelled:
    - values are a tagged JSON union, [undefined] is [None];
    - strings are Rocq strings holding the UTF-8 bytes of the JavaScript
      string;
    - a finite number is identified with the decimal digits that
      [Number::toString] prints for it (sign, significant digits and the
      position of the decimal point), which is injective on the finite
      doubles; these decimals are more than the doubles, and what holds
      of all of them holds of the doubles; the infinities and [NaN] are
      numbers of their own;
    - three things throw on JSON values: reading a property of [null] or
      [undefined] ([TypeError]), converting to a string an object that has
      an own property [toString] ([TypeError]), and a [join] or a
      [JSON.stringify] nested deeper than the call stack allows
      ([RangeError]); results that go through one of them live in the
      error monad [Exc];
    - [Date] parsing, [toLocaleDateString], the addition of two numbers,
      the depth of the call stack and [window.confirm] belong to the host
      and are parameters; [Number.prototype.toLocaleString],
      [JSON.stringify] and [JSON.parse] are written out;
    - a component is the function from its state and an event to the next
      state and the requests it makes. *)

From Stdlib Require Import String Ascii List ZArith Lia Bool.
Import ListNotations.

Local Open Scope list_scope.
Local Open Scope string_scope.
Local Open Scope Z_scope.

(* ================================================================== *)
(** ** JavaScript values *)

(** A finite JavaScript number: [(-1)^negative * 0.d1..dk * 10^point] where
    [d1..dk] are the significant decimal digits.  Zero has no digits, so
    that [-0] is the zero with [negative = true]. *)
Inductive digit : Set := d0 | d1 | d2 | d3 | d4 | d5 | d6 | d7 | d8 | d9.

Record number : Set := mkNumber {
  negative : bool;
  significand : list digit;
  point : Z
}.

(** A JavaScript number: a finite number, [Infinity], [-Infinity] or
    [NaN].  A finite number is read as a [Number] where one is expected. *)
Inductive Number : Set :=
| Finite (x : number)
| Infinite (minus : bool)
| NaN.

Coercion Finite : number >-> Number.

Unset Elimination Schemes.
Inductive value : Set :=
| JNull
| JBool (b : bool)
| JNum (x : Number)
| JStr (s : string)
| JArr (xs : list value)
| JObj (fields : list (string * value)).
Set Elimination Schemes.

(** [unknown]: a JSON value or [undefined]. *)
Definition unknown : Set := option value.

(** [type ParsedData = Record<string, unknown> | null | undefined] *)
Inductive ParsedData : Set :=
| PUndefined
| PNull
| PRecord (fields : list (string * value)).

(** [type ParsedKind = "contract" | "invoice"] *)
Inductive ParsedKind : Set := contract | invoice.

(** Run-time errors of the JavaScript operations used here: a
    [TypeError] from reading a property of [null] or [undefined] or from
    converting an object that has no usable [toString] to a string, a
    [RangeError] from exhausting the call stack. *)
Inductive JsError : Set := TypeError | RangeError.

Inductive Exc (A : Type) : Type :=
| Throw (e : JsError)
| Ok (a : A).
Arguments Throw {A} e.
Arguments Ok {A} a.

Definition bind {A B : Type} (c : Exc A) (k : A -> Exc B) : Exc B :=
  match c with
  | Throw e => Throw e
  | Ok a => k a
  end.

Notation "x <- c ;; k" := (bind c (fun x => k))
  (at level 61, c at next level, right associativity).

(** Own-property lookup in property order.  None of the keys read below is
    a property of [Object.prototype], so a key that is not an own property
    reads as [undefined]. *)
Fixpoint lookup (key : string) (fields : list (string * value)) : unknown :=
  match fields with
  | [] => None
  | (k, v) :: rest => if String.eqb k key then Some v else lookup key rest
  end.

(** [parsedData.key]: reading a property of [null] or [undefined] throws. *)
Definition getProp (parsedData : ParsedData) (key : string) : Exc unknown :=
  match parsedData with
  | PRecord fields => Ok (lookup key fields)
  | PNull | PUndefined => Throw TypeError
  end.

(** Truthiness of a [ParsedData]: an object is always truthy. *)
Definition truthy (parsedData : ParsedData) : bool :=
  match parsedData with
  | PRecord _ => true
  | PNull | PUndefined => false
  end.

(** [typeof v] *)
Definition typeof (v : unknown) : string :=
  match v with
  | None => "undefined"
  | Some JNull => "object"
  | Some (JBool _) => "boolean"
  | Some (JNum _) => "number"
  | Some (JStr _) => "string"
  | Some (JArr _) => "object"
  | Some (JObj _) => "object"
  end.

(** Whether an object has an own property [key]. *)
Definition hasOwn (key : string) (fields : list (string * value)) : bool :=
  match lookup key fields with
  | Some _ => true
  | None => false
  end.

(** [a === "literal"] for a string literal on the right. *)
Definition strict_eq_str (v : unknown) (lit : string) : bool :=
  match v with
  | Some (JStr s) => String.eqb s lit
  | _ => false
  end.

(* ================================================================== *)
(** ** Status badges *)

Inductive BadgeVariant : Set := secondary | destructive | outline.

Record Badge : Set := mkBadge { label : string; variant : BadgeVariant }.

(** The [status] constant of the three classifiers:
    [parsedData && typeof parsedData.parse_status === "string"
       ? parsedData.parse_status : null] *)
Definition parse_status_of (parsedData : ParsedData) : Exc unknown :=
  if truthy parsedData then
    status <- getProp parsedData "parse_status" ;;
    if String.eqb (typeof status) "string" then Ok status
    else Ok (Some JNull)
  else Ok (Some JNull).

Module Dialog.

(** The five badges the dialog can show, named after the outcome each one
    stands for. *)
Definition Full : Badge := mkBadge "已解析" secondary.
Definition Partial : Badge := mkBadge "部分解析" secondary.
Definition Failed : Badge := mkBadge "解析失败" destructive.
Definition Unsupported : Badge := mkBadge "不支持解析" outline.
Definition Unparsed : Badge := mkBadge "未解析" outline.

(** [getParseStatusBadge] of the parsed-data dialog. *)
Definition getParseStatusBadge (parsedData : ParsedData) : Exc Badge :=
  status <- parse_status_of parsedData ;;
  if strict_eq_str status "full" then
    Ok (mkBadge "已解析" secondary)
  else if strict_eq_str status "partial" then
    Ok (mkBadge "部分解析" secondary)
  else if strict_eq_str status "failed" then
    Ok (mkBadge "解析失败" destructive)
  else if strict_eq_str status "unsupported" then
    Ok (mkBadge "不支持解析" outline)
  else
    Ok (mkBadge "未解析" outline).

End Dialog.

(** The part of [ContractPublic] and [InvoicePublic] the badges read:
    [file_path] ([None] for [null] or [undefined]) and [parsed_data]. *)
Record Entity : Set := mkEntity {
  file_path : option string;
  parsed_data : ParsedData
}.

(** [!entity.file_path] *)
Definition no_file (e : Entity) : bool :=
  match file_path e with
  | None => true
  | Some s => String.eqb s ""
  end.

Module ContractColumns.

(** [getParseStatusBadge] of [contract-columns.tsx]. *)
Definition getParseStatusBadge (contract : Entity) : Exc Badge :=
  if no_file contract then
    Ok (mkBadge "未上传" outline)
  else
    let parsedData := parsed_data contract in
    status <- parse_status_of parsedData ;;
    if strict_eq_str status "full" then
      Ok (mkBadge "已解析" secondary)
    else if strict_eq_str status "partial" then
      Ok (mkBadge "部分解析" secondary)
    else if strict_eq_str status "failed" then
      Ok (mkBadge "解析失败" destructive)
    else if strict_eq_str status "unsupported" then
      Ok (mkBadge "不支持解析" outline)
    else
      Ok (mkBadge "待解析" outline).

End ContractColumns.

Module InvoiceColumns.

(** [getParseStatusBadge] of [invoice-columns.tsx]. *)
Definition getParseStatusBadge (invoice : Entity) : Exc Badge :=
  if no_file invoice then
    Ok (mkBadge "未上传" outline)
  else
    let parsedData := parsed_data invoice in
    status <- parse_status_of parsedData ;;
    if strict_eq_str status "full" then
      Ok (mkBadge "已解析" secondary)
    else if strict_eq_str status "partial" then
      Ok (mkBadge "部分解析" secondary)
    else if strict_eq_str status "failed" then
      Ok (mkBadge "解析失败" destructive)
    else if strict_eq_str status "unsupported" then
      Ok (mkBadge "不支持解析" outline)
    else
      Ok (mkBadge "待解析" outline).

End InvoiceColumns.

(* ================================================================== *)
(** ** Numbers: decimal digits, [Number::toString], addition, [toLocaleString] *)

Definition digit_val (d : digit) : Z :=
  match d with
  | d0 => 0 | d1 => 1 | d2 => 2 | d3 => 3 | d4 => 4
  | d5 => 5 | d6 => 6 | d7 => 7 | d8 => 8 | d9 => 9
  end.

Definition digit_of_Z (r : Z) : digit :=
  match r with
  | 1 => d1 | 2 => d2 | 3 => d3 | 4 => d4
  | 5 => d5 | 6 => d6 | 7 => d7 | 8 => d8 | 9 => d9
  | _ => d0
  end.

Definition digit_char (d : digit) : ascii :=
  match d with
  | d0 => "0" | d1 => "1" | d2 => "2" | d3 => "3" | d4 => "4"
  | d5 => "5" | d6 => "6" | d7 => "7" | d8 => "8" | d9 => "9"
  end%char.

Definition digit_of_char (c : ascii) : option digit :=
  match c with
  | "0" => Some d0 | "1" => Some d1 | "2" => Some d2 | "3" => Some d3
  | "4" => Some d4 | "5" => Some d5 | "6" => Some d6 | "7" => Some d7
  | "8" => Some d8 | "9" => Some d9
  | _ => None
  end%char.

Fixpoint str_of_digits (ds : list digit) : string :=
  match ds with
  | [] => ""
  | d :: rest => String (digit_char d) (str_of_digits rest)
  end.

(** The integer a digit sequence denotes, most significant digit first. *)
Definition digits_val (ds : list digit) : Z :=
  fold_left (fun acc d => 10 * acc + digit_val d) ds 0.

Fixpoint digits_of_fuel (fuel : nat) (n : Z) (acc : list digit) : list digit :=
  match fuel with
  | O => acc
  | S fuel' =>
      if n <=? 0 then acc
      else digits_of_fuel fuel' (n / 10) (digit_of_Z (n mod 10) :: acc)
  end.

(** The decimal digits of a positive integer; no digits for [0]. *)
Definition digits_of (n : Z) : list digit :=
  digits_of_fuel (S (Z.to_nat (Z.log2 n))) n [].

Fixpoint strip_leading (ds : list digit) : list digit :=
  match ds with
  | d0 :: rest => strip_leading rest
  | _ => ds
  end.

Definition strip_trailing (ds : list digit) : list digit :=
  rev (strip_leading (rev ds)).

Fixpoint zeros (n : nat) : list digit :=
  match n with
  | O => []
  | S n' => d0 :: zeros n'
  end.

(** The number [m * 10^e]. *)
Definition of_dec (m e : Z) : number :=
  if m =? 0 then mkNumber false [] 0
  else
    let ds := digits_of (Z.abs m) in
    mkNumber (m <? 0) (strip_trailing ds) (Z.of_nat (length ds) + e).

Definition of_Z (z : Z) : number := of_dec z 0.

(** A number as [(m, e)] with value [m * 10^e]. *)
Definition to_dec (x : number) : Z * Z :=
  let m := digits_val (significand x) in
  ((if negative x then - m else m), point x - Z.of_nat (length (significand x))).

(** The exact sum of two decimals.  JavaScript's [x + y] is this sum
    rounded to a double: the sum itself whenever it is a double, as it
    is for two integers whose sum stays below 2^53.  The addition of the
    program is the host's (see [Number_add] below); this one states
    what the host's gives on integers. *)
Definition number_add (x y : number) : number :=
  let (m1, e1) := to_dec x in
  let (m2, e2) := to_dec y in
  let e := Z.min e1 e2 in
  of_dec (m1 * 10 ^ (e1 - e) + m2 * 10 ^ (e2 - e)) e.

(** [Number::toString(x)] (radix 10), following ECMA-262 with [k] the
    number of significant digits and [n] the position of the point. *)
Definition Number_toString (x : number) : string :=
  match significand x with
  | [] => "0"
  | d :: ds =>
      let s := d :: ds in
      let k := Z.of_nat (length s) in
      let n := point x in
      (if negative x then "-" else "") ++
      (if (k <=? n) && (n <=? 21) then
         str_of_digits (s ++ zeros (Z.to_nat (n - k)))%list
       else if (0 <? n) && (n <=? 21) then
         str_of_digits (firstn (Z.to_nat n) s) ++ "." ++
         str_of_digits (skipn (Z.to_nat n) s)
       else if (-6 <? n) && (n <=? 0) then
         "0." ++ str_of_digits (zeros (Z.to_nat (- n)) ++ s)%list
       else
         let e := n - 1 in
         str_of_digits [d] ++
         (match ds with [] => "" | _ => "." ++ str_of_digits ds end) ++
         "e" ++ (if e <? 0 then "-" else "+") ++
         str_of_digits (digits_of (Z.abs e)))
  end.

(** Digits with a comma before every group of three, counted from the right. *)
Fixpoint group (ds : list digit) : string :=
  match ds with
  | [] => ""
  | d :: rest =>
      String (digit_char d)
        ((if (0 <? length rest)%nat && (length rest mod 3 =? 0)%nat
          then "," else "") ++ group rest)
  end.

(** The fraction digits of [t] thousandths: two digits, and a third one
    unless it is zero ([minimumFractionDigits: 2], and the default
    [maximumFractionDigits] of 3). *)
Definition fraction_digits (t : Z) : list digit :=
  let f := t mod 1000 in
  ([digit_of_Z (f / 100); digit_of_Z (f / 10 mod 10)] ++
   (if f mod 10 =? 0 then [] else [digit_of_Z (f mod 10)]))%list.

(** [|x| * 1000] rounded to an integer, ties away from zero. *)
Definition thousandths (x : number) : Z :=
  let m := digits_val (significand x) in
  let e := point x - Z.of_nat (length (significand x)) in
  if -3 <=? e then m * 10 ^ (e + 3)
  else (m + 5 * 10 ^ (- e - 4)) / 10 ^ (- e - 3).

(** [x.toLocaleString("zh-CN", { minimumFractionDigits: 2 })] *)
Definition toLocaleString_zhCN_min2 (x : number) : string :=
  let t := thousandths x in
  let int_ds := match digits_of (t / 1000) with [] => [d0] | ds => ds end in
  (if negative x then "-" else "") ++
  group int_ds ++ "." ++ str_of_digits (fraction_digits t).

(** [Number::toString(x)] for every number. *)
Definition String_of_Number (x : Number) : string :=
  match x with
  | Finite f => Number_toString f
  | Infinite minus => if minus then "-Infinity" else "Infinity"
  | NaN => "NaN"
  end.

(** [x.toLocaleString("zh-CN", { minimumFractionDigits: 2 })] for every
    number. *)
Definition Number_toLocaleString_zhCN_min2 (x : Number) : string :=
  match x with
  | Finite f => toLocaleString_zhCN_min2 f
  | Infinite minus => if minus then "-∞" else "∞"
  | NaN => "NaN"
  end.

(* ================================================================== *)
(** ** Strings of values: [ToString], [Array.prototype.join], [JSON.stringify]

    [Array.prototype.join] and [JSON.stringify] call themselves for every
    nested array or object, so a nesting deeper than the call stack of
    the host allows ends in a [RangeError].  How deep each may go is the
    host's: the functions take it as [stack]. *)

Definition dquote : ascii := "034"%char.
Definition backslash : ascii := "092"%char.
Definition newline : string := String "010"%char "".

Definition hex_char (n : nat) : ascii :=
  match n with
  | 0 => "0" | 1 => "1" | 2 => "2" | 3 => "3" | 4 => "4" | 5 => "5"
  | 6 => "6" | 7 => "7" | 8 => "8" | 9 => "9" | 10 => "a" | 11 => "b"
  | 12 => "c" | 13 => "d" | 14 => "e" | _ => "f"
  end%nat%char.

(** One character of [QuoteJSONString]: the short escapes, [\u00xx] for the
    other control characters, every other character as it is. *)
Definition quote_char (c : ascii) : string :=
  let n := nat_of_ascii c in
  if (n =? 8)%nat then String backslash "b"
  else if (n =? 9)%nat then String backslash "t"
  else if (n =? 10)%nat then String backslash "n"
  else if (n =? 12)%nat then String backslash "f"
  else if (n =? 13)%nat then String backslash "r"
  else if (n =? 34)%nat then String backslash (String dquote "")
  else if (n =? 92)%nat then String backslash (String backslash "")
  else if (n <? 32)%nat then
    String backslash
      (String "u" (String "0" (String "0"
         (String (hex_char (n / 16)) (String (hex_char (n mod 16)) "")))))
  else String c "".

Fixpoint quote_body (s : string) : string :=
  match s with
  | EmptyString => ""
  | String c rest => quote_char c ++ quote_body rest
  end.

Definition QuoteJSONString (s : string) : string :=
  String dquote (quote_body s ++ String dquote "").

(** The closing step of [SerializeJSONArray] and [SerializeJSONObject]. *)
Definition wrap (opening closing gap stepback indent : string)
    (partial : list string) : string :=
  match partial with
  | [] => opening ++ closing
  | _ =>
      if String.eqb gap "" then
        opening ++ String.concat "," partial ++ closing
      else
        opening ++ newline ++ indent ++
        String.concat ("," ++ newline ++ indent) partial ++
        newline ++ stepback ++ closing
  end.

(** A finite number is printed by its digits, the others as [null]. *)
Definition JSON_of_Number (x : Number) : string :=
  match x with
  | Finite f => Number_toString f
  | Infinite _ | NaN => "null"
  end.

(** [SerializeJSONProperty]: the text of a value.  No value here has a
    callable [toJSON], so that step does nothing. *)
Fixpoint SerializeJSONProperty (gap indent : string) (v : value) : string :=
  match v with
  | JNull => "null"
  | JBool true => "true"
  | JBool false => "false"
  | JNum x => JSON_of_Number x
  | JStr s => QuoteJSONString s
  | JArr xs =>
      wrap "[" "]" gap indent (indent ++ gap)
        (map (SerializeJSONProperty gap (indent ++ gap)) xs)
  | JObj fields =>
      wrap "{" "}" gap indent (indent ++ gap)
        (map (fun kv =>
                let '(k, x) := kv in
                QuoteJSONString k ++ ":" ++
                (if String.eqb gap "" then "" else " ") ++
                SerializeJSONProperty gap (indent ++ gap) x) fields)
  end.

(** The text [JSON.stringify(v)] returns when it returns. *)
Definition JSON_text (v : value) : string :=
  SerializeJSONProperty "" "" v.

(** The text [JSON.stringify(v, null, 2)] returns when it returns. *)
Definition JSON_text_2 (v : value) : string :=
  SerializeJSONProperty "  " "" v.

(** How deep arrays and objects are nested in a value. *)
Fixpoint nesting (v : value) : nat :=
  match v with
  | JArr xs => S (list_max (map nesting xs))
  | JObj fields =>
      S (list_max (map (fun kv => let '(_, x) := kv in nesting x) fields))
  | _ => 0
  end.

(** [JSON.stringify(v)] where the serializer can descend [stack] levels. *)
Definition JSON_stringify (stack : nat) (v : value) : Exc string :=
  if (nesting v <=? stack)%nat then Ok (JSON_text v) else Throw RangeError.

(** [JSON.stringify(v, null, 2)] where the serializer can descend [stack]
    levels. *)
Definition JSON_stringify_2 (stack : nat) (v : value) : Exc string :=
  if (nesting v <=? stack)%nat then Ok (JSON_text_2 v) else Throw RangeError.

(** [String(v)], where [join] can descend [stack] levels into nested
    arrays.  An array is converted by [join(",")].  An ordinary object
    is converted by its [toString]: an own property of that name hides
    [Object.prototype.toString], and it is never a function in a JSON
    value, so the conversion ends in a [TypeError]; without one the
    object reads ["[object Object]"]. *)
Fixpoint ToString (stack : nat) (v : value) {struct v} : Exc string :=
  match v with
  | JNull => Ok "null"
  | JBool true => Ok "true"
  | JBool false => Ok "false"
  | JNum x => Ok (String_of_Number x)
  | JStr s => Ok s
  | JArr xs =>
      match stack with
      | O => Throw RangeError
      | S stack' =>
          parts <-
            (fix elements (xs : list value) : Exc (list string) :=
               match xs with
               | [] => Ok []
               | x :: rest =>
                   s <- match x with
                        | JNull => Ok ""
                        | _ => ToString stack' x
                        end ;;
                   ss <- elements rest ;;
                   Ok (s :: ss)
               end) xs ;;
          Ok (String.concat "," parts)
      end
  | JObj fields =>
      if hasOwn "toString" fields then Throw TypeError
      else Ok "[object Object]"
  end.

(** The text of an element of a joined array: [null] gives the empty
    string. *)
Definition element_text (stack : nat) (x : value) : Exc string :=
  match x with
  | JNull => Ok ""
  | _ => ToString stack x
  end.

(** The texts of the elements, from left to right; the first conversion
    that throws ends the join. *)
Fixpoint join_parts (stack : nat) (xs : list value) : Exc (list string) :=
  match xs with
  | [] => Ok []
  | x :: rest =>
      s <- element_text stack x ;;
      ss <- join_parts stack rest ;;
      Ok (s :: ss)
  end.

(** [xs.join(sep)], where the conversion of the elements can descend
    [stack] levels into nested arrays. *)
Definition Array_join (sep : string) (stack : nat) (xs : list value)
  : Exc string :=
  parts <- join_parts stack xs ;;
  Ok (String.concat sep parts).

(* ================================================================== *)
(** ** The parsed-data dialog *)

Record SummaryRow : Set := mkRow { row_label : string; row_value : string }.

Record ParseResultView : Set := mkView {
  badge : Badge;
  parseMessage : string;
  summaryRows : list SummaryRow;
  rawText : string;
  jsonText : string
}.

(** The elements of an array that pass [typeof value === "number"]. *)
Fixpoint numbers_of (xs : list value) : list Number :=
  match xs with
  | [] => []
  | JNum x :: rest => x :: numbers_of rest
  | _ :: rest => numbers_of rest
  end.

Definition formatMoney (value : unknown) : string :=
  match value with
  | Some (JNum x) => "¥" ++ Number_toLocaleString_zhCN_min2 x
  | _ => "-"
  end.

Definition getParseMessage (parsedData : ParsedData) : Exc string :=
  if negb (truthy parsedData) then Ok "暂无解析信息"
  else
    m <- getProp parsedData "parse_message" ;;
    match m with
    | Some (JStr s) => Ok s
    | _ => Ok "暂无解析信息"
    end.

Definition getRawText (parsedData : ParsedData) : Exc string :=
  if negb (truthy parsedData) then Ok ""
  else
    t <- getProp parsedData "raw_text" ;;
    match t with
    | Some (JStr s) => Ok s
    | _ => Ok ""
    end.

Section Platform.

(** The host's [Date]: [Date_parse s] is the time value of [new Date(s)],
    [None] when it is [NaN]; [toLocaleDateString_zhCN t] is
    [date.toLocaleDateString("zh-CN")] for the time value [t]. *)
Variable Date_parse : string -> option Z.
Variable toLocaleDateString_zhCN : Z -> string.

(** The host's numbers: [Number_add x y] is [x + y], the sum of two
    doubles rounded to a double. *)
Variable Number_add : Number -> Number -> Number.

(** The host's call stack: how many levels [join] can descend into the
    arrays nested in the elements of an array, and how many levels of
    nested arrays and objects [JSON.stringify] can print. *)
Variable join_depth : nat.
Variable stringify_depth : nat.

Definition formatText (value : unknown) : Exc string :=
  match value with
  | None => Ok "-"
  | Some JNull => Ok "-"
  | Some (JStr s) => Ok (if String.eqb s "" then "-" else s)
  | Some (JArr xs) => Array_join ", " join_depth xs
  | Some (JObj fields) => JSON_stringify stringify_depth (JObj fields)
  | Some v => ToString join_depth v
  end.

Definition getJsonText (parsedData : ParsedData) : Exc string :=
  match parsedData with
  | PRecord fields => JSON_stringify_2 stringify_depth (JObj fields)
  | PNull | PUndefined => Ok ""
  end.

Definition formatDate (value : unknown) : string :=
  match value with
  | Some (JStr s) =>
      if String.eqb s "" then "-"
      else
        match Date_parse s with
        | None => s
        | Some date => toLocaleDateString_zhCN date
        end
  | _ => "-"
  end.

Definition getSummaryRows (kind : ParsedKind) (parsedData : ParsedData)
  : Exc (list SummaryRow) :=
  if negb (truthy parsedData) then Ok []
  else
    match kind with
    | contract =>
        pages <- getProp parsedData "stamp_pages" ;;
        let stampPages :=
          match pages with
          | Some (JArr xs) =>
              String.concat ", "
                (map String_of_Number
                   (map (fun x => Number_add x (of_Z 1)) (numbers_of xs)))
          | _ => "-"
          end in
        party_a <- getProp parsedData "party_a" ;;
        partyA <- formatText party_a ;;
        party_b <- getProp parsedData "party_b" ;;
        partyB <- formatText party_b ;;
        contract_number <- getProp parsedData "contract_number" ;;
        contractNumber <- formatText contract_number ;;
        sign_date <- getProp parsedData "sign_date" ;;
        effective_date <- getProp parsedData "effective_date" ;;
        expiry_date <- getProp parsedData "expiry_date" ;;
        amount <- getProp parsedData "amount" ;;
        Ok [ mkRow "甲方" partyA;
             mkRow "乙方" partyB;
             mkRow "合同编号" contractNumber;
             mkRow "签约日期" (formatDate sign_date);
             mkRow "生效日期" (formatDate effective_date);
             mkRow "到期日期" (formatDate expiry_date);
             mkRow "合同金额" (formatMoney amount);
             mkRow "盖章页"
               (if String.eqb stampPages "" then "-" else stampPages) ]
    | invoice =>
        invoice_number <- getProp parsedData "invoice_number" ;;
        invoiceNumber <- formatText invoice_number ;;
        invoice_code <- getProp parsedData "invoice_code" ;;
        invoiceCode <- formatText invoice_code ;;
        invoice_date <- getProp parsedData "invoice_date" ;;
        seller <- getProp parsedData "seller" ;;
        sellerText <- formatText seller ;;
        buyer <- getProp parsedData "buyer" ;;
        buyerText <- formatText buyer ;;
        amount <- getProp parsedData "amount" ;;
        tax_amount <- getProp parsedData "tax_amount" ;;
        Ok [ mkRow "发票号码" invoiceNumber;
             mkRow "发票代码" invoiceCode;
             mkRow "开票日期" (formatDate invoice_date);
             mkRow "销售方" sellerText;
             mkRow "购买方" buyerText;
             mkRow "发票金额" (formatMoney amount);
             mkRow "税额" (formatMoney tax_amount) ]
    end.

(** What the [ParsedDataDialog] component computes: the badge, the
    summary rows and the message before rendering, the raw text and the
    JSON text while rendering. *)
Definition ParsedDataDialog (kind : ParsedKind) (parsedData : ParsedData)
  : Exc ParseResultView :=
  badge <- Dialog.getParseStatusBadge parsedData ;;
  summaryRows <- getSummaryRows kind parsedData ;;
  parseMessage <- getParseMessage parsedData ;;
  rawText <- getRawText parsedData ;;
  jsonText <- getJsonText parsedData ;;
  Ok (mkView badge parseMessage summaryRows rawText jsonText).

End Platform.

(* ================================================================== *)
(** ** [JSON.parse]

    A recursive-descent reader of the JSON grammar.  [\uXXXX] escapes are
    decoded to the UTF-8 bytes of the code unit.  A number beyond the
    range of the doubles reads as an infinity; a number within the range
    is kept as written, where JavaScript takes the nearest double: for
    the digits [Number::toString] prints for a double that is the double
    itself.  The members of an object are entered one by one: a
    repeated key overwrites the earlier value in place, and a new key
    goes to its place in the order in which an object lists its keys,
    the array indices first.  The reader is applied below to texts that
    [JSON.stringify] printed. *)

Definition is_ws (c : ascii) : bool :=
  let n := nat_of_ascii c in
  ((n =? 32) || (n =? 9) || (n =? 10) || (n =? 13))%nat.

Fixpoint skip_ws (s : string) : string :=
  match s with
  | EmptyString => ""
  | String c rest => if is_ws c then skip_ws rest else s
  end.

Fixpoint strip_prefix (p s : string) : option string :=
  match p with
  | EmptyString => Some s
  | String a p' =>
      match s with
      | EmptyString => None
      | String b s' => if Ascii.eqb a b then strip_prefix p' s' else None
      end
  end.

Fixpoint span_digits (s : string) : list digit * string :=
  match s with
  | EmptyString => ([], "")
  | String c rest =>
      match digit_of_char c with
      | Some d => let (ds, rest') := span_digits rest in (d :: ds, rest')
      | None => ([], s)
      end
  end.

Definition hex_val (c : ascii) : option nat :=
  let n := nat_of_ascii c in
  if ((48 <=? n) && (n <=? 57))%nat then Some (n - 48)%nat
  else if ((97 <=? n) && (n <=? 102))%nat then Some (n - 87)%nat
  else if ((65 <=? n) && (n <=? 70))%nat then Some (n - 55)%nat
  else None.

Definition hex4 (a b c d : ascii) : option nat :=
  match hex_val a, hex_val b, hex_val c, hex_val d with
  | Some x, Some y, Some z, Some w =>
      Some (((x * 16 + y) * 16 + z) * 16 + w)%nat
  | _, _, _, _ => None
  end.

Definition utf8_encode (n : nat) : string :=
  if (n <? 128)%nat then String (ascii_of_nat n) ""
  else if (n <? 2048)%nat then
    String (ascii_of_nat (192 + n / 64))
      (String (ascii_of_nat (128 + n mod 64)) "")
  else
    String (ascii_of_nat (224 + n / 4096))
      (String (ascii_of_nat (128 + (n / 64) mod 64))
         (String (ascii_of_nat (128 + n mod 64)) "")).

Definition unescape (c : ascii) : option ascii :=
  let n := nat_of_ascii c in
  if (n =? 34)%nat then Some dquote
  else if (n =? 92)%nat then Some backslash
  else if (n =? 47)%nat then Some "/"%char
  else if (n =? 98)%nat then Some "008"%char
  else if (n =? 102)%nat then Some "012"%char
  else if (n =? 110)%nat then Some "010"%char
  else if (n =? 114)%nat then Some "013"%char
  else if (n =? 116)%nat then Some "009"%char
  else None.

Definition prepend (p : string) (r : option (string * string))
  : option (string * string) :=
  match r with
  | Some (s, rest) => Some (p ++ s, rest)
  | None => None
  end.

(** The characters of a string literal after its opening quote, up to and
    including the closing quote. *)
Fixpoint parse_string_body (s : string) : option (string * string) :=
  match s with
  | EmptyString => None
  | String c rest =>
      if Ascii.eqb c dquote then Some ("", rest)
      else if Ascii.eqb c backslash then
        match rest with
        | EmptyString => None
        | String e rest1 =>
            if Ascii.eqb e "u" then
              match rest1 with
              | String h1 (String h2 (String h3 (String h4 rest2))) =>
                  match hex4 h1 h2 h3 h4 with
                  | Some n => prepend (utf8_encode n) (parse_string_body rest2)
                  | None => None
                  end
              | _ => None
              end
            else
              match unescape e with
              | Some ch => prepend (String ch "") (parse_string_body rest1)
              | None => None
              end
        end
      else if (nat_of_ascii c <? 32)%nat then None
      else prepend (String c "") (parse_string_body rest)
  end.

(** The number a JSON number token denotes: integer digits, fraction
    digits and exponent. *)
Definition make_number (neg : bool) (int_ds frac_ds : list digit) (ex : Z)
  : number :=
  let all := (int_ds ++ frac_ds)%list in
  let sig := strip_leading all in
  match strip_trailing sig with
  | [] => mkNumber neg [] 0
  | mant =>
      mkNumber neg mant
        (Z.of_nat (length int_ds)
         - (Z.of_nat (length all) - Z.of_nat (length sig)) + ex)
  end.

Definition nonempty_digits (r : list digit * string)
  : option (list digit * string) :=
  match r with
  | ([], _) => None
  | (_ :: _, _) => Some r
  end.

Definition parse_fraction (s : string) : option (list digit * string) :=
  match s with
  | String c rest =>
      if Ascii.eqb c "." then nonempty_digits (span_digits rest)
      else Some ([], s)
  | EmptyString => Some ([], s)
  end.

Definition parse_exponent_digits (neg : bool) (s : string)
  : option (Z * string) :=
  match nonempty_digits (span_digits s) with
  | None => None
  | Some (ds, rest) =>
      Some ((if neg then - digits_val ds else digits_val ds), rest)
  end.

Definition parse_exponent (s : string) : option (Z * string) :=
  match s with
  | String c rest =>
      if Ascii.eqb c "e" || Ascii.eqb c "E" then
        match rest with
        | String sg rest' =>
            if Ascii.eqb sg "+" then parse_exponent_digits false rest'
            else if Ascii.eqb sg "-" then parse_exponent_digits true rest'
            else parse_exponent_digits false rest
        | EmptyString => None
        end
      else Some (0, s)
  | EmptyString => Some (0, s)
  end.

(** The integer part of a number token: at least one digit, and no
    leading zero before another digit. *)
Definition valid_int (ds : list digit) : bool :=
  match ds with
  | [] => false
  | d0 :: _ :: _ => false
  | _ => true
  end.

Definition parse_unsigned (neg : bool) (s : string) : option (number * string) :=
  let (int_ds, s1) := span_digits s in
  if valid_int int_ds then
    match parse_fraction s1 with
    | None => None
    | Some (frac_ds, s2) =>
        match parse_exponent s2 with
        | None => None
        | Some (ex, s3) => Some (make_number neg int_ds frac_ds ex, s3)
        end
    end
  else None.

Definition parse_number (s : string) : option (number * string) :=
  match s with
  | String c rest =>
      if Ascii.eqb c "-" then parse_unsigned true rest
      else parse_unsigned false s
  | EmptyString => None
  end.

(** Whether a decimal is beyond the range of the doubles: at least half
    way from the largest double to [2^1024]. *)
Definition overflows (x : number) : bool :=
  let (m, e) := to_dec x in
  let bound := 2 ^ 1024 - 2 ^ 970 in
  if 0 <=? e then bound <=? Z.abs m * 10 ^ e
  else bound * 10 ^ (- e) <=? Z.abs m.

(** The number a decimal of a JSON text is read as. *)
Definition Number_of_decimal (x : number) : Number :=
  if overflows x then Infinite (negative x) else Finite x.

(** The array index a key is the canonical numeric string of, if any:
    an integer from 0 to [2^32 - 2] written without a leading zero. *)
Definition array_index (key : string) : option Z :=
  match span_digits key with
  | (d :: ds, EmptyString) =>
      if (match d, ds with
          | _, [] => true
          | d0, _ => false
          | _, _ => true
          end) &&
         (digits_val (d :: ds) <=? 4294967294)
      then Some (digits_val (d :: ds))
      else None
  | _ => None
  end.

(** The order in which an object lists its own keys: the array indices
    first, in ascending order, then the other keys as they were added.
    [comes_before key k] says that a new [key] goes before [k]. *)
Definition comes_before (key k : string) : bool :=
  match array_index key, array_index k with
  | Some i, Some j => i <? j
  | Some _, None => true
  | None, _ => false
  end.

(** [obj[key] = v] on the property list: an existing key keeps its
    place, a new one goes to its place in the order of the keys. *)
Fixpoint obj_set (key : string) (v : value) (fields : list (string * value))
  : list (string * value) :=
  match fields with
  | [] => [(key, v)]
  | (k, x) :: rest =>
      if String.eqb k key then (k, v) :: rest
      else if comes_before key k then (key, v) :: (k, x) :: rest
      else (k, x) :: obj_set key v rest
  end.

Definition build_object (members : list (string * value))
  : list (string * value) :=
  fold_left (fun acc kv => obj_set (fst kv) (snd kv) acc) members [].

Definition with_tag {A B : Type} (f : A -> B) (r : option (A * string))
  : option (B * string) :=
  match r with
  | Some (a, rest) => Some (f a, rest)
  | None => None
  end.

Fixpoint parse_value (fuel : nat) (s : string) : option (value * string) :=
  match fuel with
  | O => None
  | S fuel' =>
      match skip_ws s with
      | EmptyString => None
      | String c rest =>
          if Ascii.eqb c "{" then
            match skip_ws rest with
            | EmptyString => None
            | String c1 rest1 =>
                if Ascii.eqb c1 "}" then Some (JObj [], rest1)
                else
                  with_tag (fun ms => JObj (build_object ms))
                    (parse_members fuel' (String c1 rest1))
            end
          else if Ascii.eqb c "[" then
            match skip_ws rest with
            | EmptyString => None
            | String c1 rest1 =>
                if Ascii.eqb c1 "]" then Some (JArr [], rest1)
                else with_tag JArr (parse_elements fuel' (String c1 rest1))
            end
          else if Ascii.eqb c dquote then
            with_tag JStr (parse_string_body rest)
          else if Ascii.eqb c "t" then
            with_tag (fun r => JBool true)
              (option_map (fun r => (tt, r)) (strip_prefix "rue" rest))
          else if Ascii.eqb c "f" then
            with_tag (fun r => JBool false)
              (option_map (fun r => (tt, r)) (strip_prefix "alse" rest))
          else if Ascii.eqb c "n" then
            with_tag (fun r => JNull)
              (option_map (fun r => (tt, r)) (strip_prefix "ull" rest))
          else
            with_tag (fun x => JNum (Number_of_decimal x))
              (parse_number (String c rest))
      end
  end

with parse_elements (fuel : nat) (s : string)
  : option (list value * string) :=
  match fuel with
  | O => None
  | S fuel' =>
      match parse_value fuel' s with
      | None => None
      | Some (v, s1) =>
          match skip_ws s1 with
          | EmptyString => None
          | String c rest =>
              if Ascii.eqb c "," then
                with_tag (cons v) (parse_elements fuel' rest)
              else if Ascii.eqb c "]" then Some ([v], rest)
              else None
          end
      end
  end

with parse_members (fuel : nat) (s : string)
  : option (list (string * value) * string) :=
  match fuel with
  | O => None
  | S fuel' =>
      match skip_ws s with
      | EmptyString => None
      | String q s0 =>
          if Ascii.eqb q dquote then
            match parse_string_body s0 with
            | None => None
            | Some (key, s1) =>
                match skip_ws s1 with
                | EmptyString => None
                | String c s2 =>
                    if Ascii.eqb c ":" then
                      match parse_value fuel' s2 with
                      | None => None
                      | Some (v, s3) =>
                          match skip_ws s3 with
                          | EmptyString => None
                          | String c' rest =>
                              if Ascii.eqb c' "," then
                                with_tag (cons (key, v))
                                  (parse_members fuel' rest)
                              else if Ascii.eqb c' "}" then
                                Some ([(key, v)], rest)
                              else None
                          end
                      end
                    else None
                end
            end
          else None
      end
  end.

(** [JSON.parse(text)], [None] for a [SyntaxError]. *)
Definition JSON_parse (text : string) : option value :=
  match parse_value (S (String.length text)) text with
  | Some (v, rest) =>
      match skip_ws rest with
      | EmptyString => Some v
      | String _ _ => None
      end
  | None => None
  end.

(** Digit sequences that start with a non-zero digit. *)
Definition starts_nonzero (ds : list digit) : bool :=
  match ds with
  | [] => true
  | d0 :: _ => false
  | _ => true
  end.

(** Digit sequences that end in a non-zero digit. *)
Definition ends_nonzero (ds : list digit) : bool :=
  match rev ds with
  | [] => true
  | d0 :: _ => false
  | _ => true
  end.

(* ================================================================== *)
(** ** JSON-shaped values and deep equality *)

(** The digits of a number are in canonical form: no leading and no
    trailing zero, and zero has its point at 0. *)
Definition wf_number (x : number) : bool :=
  starts_nonzero (significand x) && ends_nonzero (significand x) &&
  match significand x with
  | [] => point x =? 0
  | _ => true
  end.

Fixpoint unique_keys (keys : list string) : bool :=
  match keys with
  | [] => true
  | k :: rest =>
      negb (existsb (String.eqb k) rest) && unique_keys rest
  end.

(** The keys of an object as it lists them: none comes before a key
    listed earlier. *)
Fixpoint keys_ordered (keys : list string) : bool :=
  match keys with
  | [] => true
  | k :: rest =>
      forallb (fun k' => negb (comes_before k' k)) rest && keys_ordered rest
  end.

Definition own_keys (keys : list string) : bool :=
  unique_keys keys && keys_ordered keys.

(** A number as JavaScript can hold it: an infinity, [NaN], or a finite
    number with canonical digits within the range of the doubles. *)
Definition wf_Number (x : Number) : bool :=
  match x with
  | Finite f => wf_number f && negb (overflows f)
  | Infinite _ | NaN => true
  end.

(** A value as JavaScript can hold it: numbers as above, and objects
    without repeated keys, their members in the order in which the
    object lists them. *)
Fixpoint wf_value (v : value) : bool :=
  match v with
  | JNum x => wf_Number x
  | JArr xs => forallb wf_value xs
  | JObj fields =>
      own_keys (map fst fields) &&
      forallb (fun kv => let '(_, x) := kv in wf_value x) fields
  | _ => true
  end.

Definition digit_eqb (a b : digit) : bool := digit_val a =? digit_val b.

Fixpoint digits_eqb (a b : list digit) : bool :=
  match a, b with
  | [], [] => true
  | x :: a', y :: b' => digit_eqb x y && digits_eqb a' b'
  | _, _ => false
  end.

(** [x === y] on numbers: the two zeros are equal. *)
Definition number_strict_eq (x y : number) : bool :=
  match significand x, significand y with
  | [], [] => true
  | _, _ =>
      Bool.eqb (negative x) (negative y) &&
      digits_eqb (significand x) (significand y) &&
      (point x =? point y)
  end.

(** [x === y] on all numbers: [NaN] equals nothing, an infinity equals
    itself. *)
Definition Number_strict_eq (x y : Number) : bool :=
  match x, y with
  | Finite a, Finite b => number_strict_eq a b
  | Infinite s, Infinite t => Bool.eqb s t
  | _, _ => false
  end.

(** Deep equality of two values: strict equality at the leaves, arrays
    element by element, objects key by key whatever the order of the keys. *)
Fixpoint deep_equal (a b : value) : bool :=
  match a, b with
  | JNull, JNull => true
  | JBool x, JBool y => Bool.eqb x y
  | JNum x, JNum y => Number_strict_eq x y
  | JStr s, JStr t => String.eqb s t
  | JArr xs, JArr ys =>
      (fix all2 (xs ys : list value) : bool :=
         match xs, ys with
         | [], [] => true
         | x :: xs', y :: ys' => deep_equal x y && all2 xs' ys'
         | _, _ => false
         end) xs ys
  | JObj fs, JObj gs =>
      (length fs =? length gs)%nat &&
      forallb (fun kv =>
                 let '(k, x) := kv in
                 match lookup k gs with
                 | Some y => deep_equal x y
                 | None => false
                 end) fs
  | _, _ => false
  end.

(** The value read back from the JSON text of [v]: the sign of a zero is
    not printed, so [-0] comes back as [0]; the infinities and [NaN] are
    printed as [null] and come back as [null]. *)
Definition normalize_number (x : number) : number :=
  match significand x with
  | [] => mkNumber false [] 0
  | _ => x
  end.

Fixpoint json_image (v : value) : value :=
  match v with
  | JNum (Finite f) => JNum (normalize_number f)
  | JNum (Infinite _) | JNum NaN => JNull
  | JArr xs => JArr (map json_image xs)
  | JObj fields =>
      JObj (map (fun kv => let '(k, x) := kv in (k, json_image x)) fields)
  | _ => v
  end.

(** Whether every number in a value is finite. *)
Fixpoint finite_value (v : value) : bool :=
  match v with
  | JNum (Finite _) => true
  | JNum (Infinite _) | JNum NaN => false
  | JArr xs => forallb finite_value xs
  | JObj fields => forallb (fun kv => let '(_, x) := kv in finite_value x) fields
  | _ => true
  end.

(** The number of nodes of a value, counting each element and member once
    more for its place in the enclosing array or object. *)
Fixpoint size (v : value) : nat :=
  match v with
  | JArr xs => S (list_sum (map (fun x => S (size x)) xs))
  | JObj fields =>
      S (list_sum (map (fun kv => let '(_, x) := kv in S (size x)) fields))
  | _ => 1
  end.

Definition all_ws (s : string) : bool :=
  match skip_ws s with
  | EmptyString => true
  | String _ _ => false
  end.

(** What may follow a value in the text: nothing, a comma or a line
    break. *)
Definition delimited (rest : string) : bool :=
  match rest with
  | EmptyString => true
  | String c _ => Ascii.eqb c "," || Ascii.eqb c "010"
  end.

(* ================================================================== *)
(** ** A host for the examples

    A [Date] that reads the ISO form [YYYY-MM-DD] only and prints the
    zh-CN form [Y/M/D], both in UTC; sums of integers; a call stack of a
    thousand levels. *)

Module ExampleHost.

Definition digits2 (a b : ascii) : option Z :=
  match digit_of_char a, digit_of_char b with
  | Some x, Some y => Some (digits_val [x; y])
  | _, _ => None
  end.

Definition digits4 (a b c d : ascii) : option Z :=
  match digit_of_char a, digit_of_char b, digit_of_char c, digit_of_char d with
  | Some x, Some y, Some z, Some w => Some (digits_val [x; y; z; w])
  | _, _, _, _ => None
  end.

Definition is_leap (y : Z) : bool :=
  ((y mod 4 =? 0) && negb (y mod 100 =? 0)) || (y mod 400 =? 0).

Definition days_in_month (y m : Z) : Z :=
  if m =? 2 then (if is_leap y then 29 else 28)
  else if (m =? 4) || (m =? 6) || (m =? 9) || (m =? 11) then 30
  else 31.

(** Days from 1970-01-01 to the civil date [y]-[m]-[d]. *)
Definition days_from_civil (y m d : Z) : Z :=
  let y' := if m <=? 2 then y - 1 else y in
  let era := y' / 400 in
  let yoe := y' - era * 400 in
  let doy := (153 * (if 2 <? m then m - 3 else m + 9) + 2) / 5 + d - 1 in
  let doe := yoe * 365 + yoe / 4 - yoe / 100 + doy in
  era * 146097 + doe - 719468.

(** The civil date of a day number. *)
Definition civil_from_days (days : Z) : Z * Z * Z :=
  let z := days + 719468 in
  let era := z / 146097 in
  let doe := z - era * 146097 in
  let yoe := (doe - doe / 1460 + doe / 36524 - doe / 146096) / 365 in
  let doy := doe - (365 * yoe + yoe / 4 - yoe / 100) in
  let mp := (5 * doy + 2) / 153 in
  let d := doy - (153 * mp + 2) / 5 + 1 in
  let m := if mp <? 10 then mp + 3 else mp - 9 in
  ((if m <=? 2 then yoe + era * 400 + 1 else yoe + era * 400), m, d).

Definition Date_parse (s : string) : option Z :=
  match s with
  | String y1 (String y2 (String y3 (String y4 (String s1
      (String m1 (String m2 (String s2 (String e1 (String e2 EmptyString)))))))))
    =>
      if Ascii.eqb s1 "-" && Ascii.eqb s2 "-" then
        match digits4 y1 y2 y3 y4, digits2 m1 m2, digits2 e1 e2 with
        | Some y, Some m, Some d =>
            if (1 <=? m) && (m <=? 12) && (1 <=? d) && (d <=? days_in_month y m)
            then Some (days_from_civil y m d * 86400000)
            else None
        | _, _, _ => None
        end
      else None
  | _ => None
  end.

Definition decimal (n : Z) : string :=
  match digits_of n with
  | [] => "0"
  | ds => str_of_digits ds
  end.

Definition toLocaleDateString_zhCN (t : Z) : string :=
  let '(y, m, d) := civil_from_days (t / 86400000) in
  decimal y ++ "/" ++ decimal m ++ "/" ++ decimal d.

(** The sum of two finite numbers is their exact sum: that is the sum of
    two doubles whenever the exact sum is a double, as it is for the
    integers of the examples.  The other sums follow IEEE 754. *)
Definition Number_add (x y : Number) : Number :=
  match x, y with
  | Finite a, Finite b => Finite (number_add a b)
  | NaN, _ | _, NaN => NaN
  | Infinite s, Infinite t => if Bool.eqb s t then Infinite s else NaN
  | Infinite s, Finite _ | Finite _, Infinite s => Infinite s
  end.

Definition join_depth : nat := 1000.
Definition stringify_depth : nat := 1000.

End ExampleHost.

(* ================================================================== *)
(** ** The rest of the parsed-data dialog: what the three tabs show *)

(** The summary tab: a notice when there are no rows, the grid of rows
    otherwise. *)
Inductive SummaryTab : Set :=
| NoSummary (notice : string)
| SummaryGrid (rows : list SummaryRow).

(** [summaryRows.length === 0 ? <notice> : <grid>] *)
Definition summaryTab (rows : list SummaryRow) : SummaryTab :=
  if (length rows =? 0)%nat then NoSummary "暂无解析数据" else SummaryGrid rows.

(** [getRawText(parsedData) || "暂无原始文本"] *)
Definition rawTab (parsedData : ParsedData) : Exc string :=
  text <- getRawText parsedData ;;
  Ok (if String.eqb text "" then "暂无原始文本" else text).

(** [getJsonText(parsedData) || "暂无原始JSON"] *)
Definition jsonTab (stringify_depth : nat) (parsedData : ParsedData)
  : Exc string :=
  text <- getJsonText stringify_depth parsedData ;;
  Ok (if String.eqb text "" then "暂无原始JSON" else text).

(* ================================================================== *)
(** ** The tables: the cells of a contract, an invoice and a project row

    The row types come from the generated client, which is not part of
    these files; the records hold the fields the cells read, with the
    optionality the cells test for ([None] for [null] or [undefined]). *)

(** [a || b] for an optional string [a]. *)
Definition or_else (a : option string) (b : string) : string :=
  match a with
  | Some s => if String.eqb s "" then b else s
  | None => b
  end.

(** [new Date(s).toLocaleDateString("zh-CN")]: an invalid date prints as
    ["Invalid Date"]. *)
Definition Date_toLocaleDateString (Date_parse : string -> option Z)
    (toLocaleDateString_zhCN : Z -> string) (s : string) : string :=
  match Date_parse s with
  | Some date => toLocaleDateString_zhCN date
  | None => "Invalid Date"
  end.

(** [value ? new Date(value).toLocaleDateString("zh-CN") : "-"], the date
    cell of the three tables. *)
Definition date_cell (Date_parse : string -> option Z)
    (toLocaleDateString_zhCN : Z -> string) (value : option string) : string :=
  match value with
  | Some s =>
      if String.eqb s "" then "-"
      else Date_toLocaleDateString Date_parse toLocaleDateString_zhCN s
  | None => "-"
  end.

Module ContractTable.

(** [ContractPublic]: [entity] holds its [file_path] and [parsed_data]. *)
Record ContractPublic : Set := mkContractPublic {
  id : string;
  contract_number : option string;
  contract_name : option string;
  amount : option number;
  sign_date : option string;
  entity : Entity
}.

Definition contract_number_cell (c : ContractPublic) : string :=
  or_else (contract_number c) "-".

Definition contract_name_cell (c : ContractPublic) : string :=
  or_else (contract_name c) "-".

(** [amount == null ? "-" : `¥${amount.toLocaleString(...)}`] *)
Definition amount_cell (c : ContractPublic) : string :=
  match amount c with
  | None => "-"
  | Some x => "¥" ++ toLocaleString_zhCN_min2 x
  end.

Definition sign_date_cell (Date_parse : string -> option Z)
    (toLocaleDateString_zhCN : Z -> string) (c : ContractPublic) : string :=
  date_cell Date_parse toLocaleDateString_zhCN (sign_date c).

Definition file_cell (c : ContractPublic) : string :=
  if no_file (entity c) then "未上传" else "已上传".

Definition parse_status_cell (c : ContractPublic) : Exc Badge :=
  ContractColumns.getParseStatusBadge (entity c).

End ContractTable.

Module InvoiceTable.

(** [InvoicePublic]: [entity] holds its [file_path] and [parsed_data]. *)
Record InvoicePublic : Set := mkInvoicePublic {
  id : string;
  invoice_number : string;
  invoice_code : string;
  amount : number;
  invoice_date : option string;
  entity : Entity
}.

(** [¥{amount.toLocaleString(...)}] *)
Definition amount_cell (i : InvoicePublic) : string :=
  "¥" ++ toLocaleString_zhCN_min2 (amount i).

Definition invoice_date_cell (Date_parse : string -> option Z)
    (toLocaleDateString_zhCN : Z -> string) (i : InvoicePublic) : string :=
  date_cell Date_parse toLocaleDateString_zhCN (invoice_date i).

Definition file_cell (i : InvoicePublic) : string :=
  if no_file (entity i) then "未上传" else "已上传".

Definition parse_status_cell (i : InvoicePublic) : Exc Badge :=
  InvoiceColumns.getParseStatusBadge (entity i).

End InvoiceTable.

Module ProjectTable.

Record ContractProjectPublic : Set := mkContractProjectPublic {
  id : string;
  code : string;
  name : string;
  description : option string;
  created_at : option string
}.

Definition description_cell (p : ContractProjectPublic) : string :=
  or_else (description p) "暂无描述".

Definition created_at_cell (Date_parse : string -> option Z)
    (toLocaleDateString_zhCN : Z -> string) (p : ContractProjectPublic)
  : string :=
  date_cell Date_parse toLocaleDateString_zhCN (created_at p).

End ProjectTable.

(* ================================================================== *)
(** ** The project page: selecting and deleting contracts

    The handlers of a component read the state of the current render and
    ask for state changes and for requests; a handler is a function from
    that state to the next state and the requests it makes.
    [window.confirm] is the host's and is a parameter. *)

Module ProjectDetailDialog.

Import ContractTable.

Record State : Set := mkState {
  contractForInvoices : option ContractPublic;
  contractForParse : option ContractPublic
}.

(** [deleteMutation.mutate(contractId)] *)
Inductive Request : Set :=
| DeleteContract (contractId : string).

(** [selected?.id === contract.id] *)
Definition same_id (selected : option ContractPublic) (contract : ContractPublic)
  : bool :=
  match selected with
  | Some c => String.eqb (id c) (id contract)
  | None => false
  end.

(** [contract.contract_name || contract.contract_number || "该合同"] *)
Definition contractLabel (contract : ContractPublic) : string :=
  or_else (contract_name contract) (or_else (contract_number contract) "该合同").

Definition confirmMessage (contract : ContractPublic) : string :=
  "确定删除合同 " ++ contractLabel contract ++ " 吗？".

Definition onViewInvoices (st : State) (contract : ContractPublic) : State :=
  mkState (Some contract) (contractForParse st).

Definition onViewParsedData (st : State) (contract : ContractPublic) : State :=
  mkState (contractForInvoices st) (Some contract).

Definition onDelete (confirm : string -> bool) (st : State)
    (contract : ContractPublic) : State * list Request :=
  if negb (confirm (confirmMessage contract)) then (st, [])
  else
    (mkState
       (if same_id (contractForInvoices st) contract then None
        else contractForInvoices st)
       (if same_id (contractForParse st) contract then None
        else contractForParse st),
     [DeleteContract (id contract)]).

(** The props the page passes to the parsed-data dialog:
    [open], [title] and [parsedData]. *)
Definition parsedDialogOpen (st : State) : bool :=
  match contractForParse st with
  | Some _ => true
  | None => false
  end.

Definition parsedDialogTitle (st : State) : string :=
  "合同解析 - " ++
  match contractForParse st with
  | Some c => match contract_name c with Some n => n | None => "" end
  | None => ""
  end.

Definition parsedDialogData (st : State) : ParsedData :=
  match contractForParse st with
  | Some c => parsed_data (entity c)
  | None => PUndefined
  end.

End ProjectDetailDialog.

Module InvoiceDialog.

Import InvoiceTable.

(** The props the invoice dialog passes to the parsed-data dialog, from
    its state [invoiceForParse]. *)
Definition parsedDialogOpen (invoiceForParse : option InvoicePublic) : bool :=
  match invoiceForParse with
  | Some _ => true
  | None => false
  end.

Definition parsedDialogTitle (invoiceForParse : option InvoicePublic)
  : string :=
  "发票解析 - " ++
  match invoiceForParse with
  | Some i => invoice_number i
  | None => ""
  end.

Definition parsedDialogData (invoiceForParse : option InvoicePublic)
  : ParsedData :=
  match invoiceForParse with
  | Some i => parsed_data (entity i)
  | None => PUndefined
  end.

End InvoiceDialog.

(* ================================================================== *)
(** ** The contract form and the invoice form: the file that goes with a
    submission

    [AddContract] and [AddInvoice] keep, next to the form values, whether
    the dialog is open, the file chosen and the key of the file input. *)

(** What happens to a form: the dialog is opened or closed, files are
    chosen in the file input, the form is submitted with valid values,
    the creation succeeds. *)
Inductive FormEvent (File : Type) : Type :=
| OpenChange (open : bool)
| FileChange (files : list File)
| Submit
| Success.

Arguments OpenChange {File} open.
Arguments FileChange {File} files.
Arguments Submit {File}.
Arguments Success {File}.

Module AddInvoice.

Section Files.

(** The files of the browser. *)
Variable File : Type.

(** [isOpen], [invoiceFile] and [fileInputKey]. *)
Record State : Type := mkState {
  isOpen : bool;
  invoiceFile : option File;
  fileInputKey : nat
}.

(** What [onSubmit] hands to the mutation, besides the form values:
    [file: invoiceFile], sent as [file ?? undefined]. *)
Inductive Request : Type :=
| CreateInvoice (file : option File).

Definition initial : State := mkState false None 0.

Definition step (st : State) (ev : FormEvent File) : State * list Request :=
  match ev with
  | OpenChange open =>
      if negb open then (mkState open None (fileInputKey st + 1), [])
      else (mkState open (invoiceFile st) (fileInputKey st), [])
  | FileChange files =>
      (mkState (isOpen st) (hd_error files) (fileInputKey st), [])
  | Submit => (st, [CreateInvoice (invoiceFile st)])
  | Success => (mkState false None (fileInputKey st + 1), [])
  end.

Fixpoint run (st : State) (evs : list (FormEvent File))
  : State * list Request :=
  match evs with
  | [] => (st, [])
  | ev :: rest =>
      let (st1, out1) := step st ev in
      let (st2, out2) := run st1 rest in
      (st2, (out1 ++ out2)%list)
  end.

End Files.

End AddInvoice.

Module AddContract.

Section Files.

Variable File : Type.

(** [isOpen], [contractFile] and [fileInputKey]. *)
Record State : Type := mkState {
  isOpen : bool;
  contractFile : option File;
  fileInputKey : nat
}.

(** [mutation.mutate({ ...data, file: contractFile })] *)
Inductive Request : Type :=
| CreateContract (file : option File).

Definition initial : State := mkState false None 0.

Definition step (st : State) (ev : FormEvent File) : State * list Request :=
  match ev with
  | OpenChange open =>
      if negb open then (mkState open None (fileInputKey st + 1), [])
      else (mkState open (contractFile st) (fileInputKey st), [])
  | FileChange files =>
      (mkState (isOpen st) (hd_error files) (fileInputKey st), [])
  | Submit => (st, [CreateContract (contractFile st)])
  | Success => (mkState false None (fileInputKey st + 1), [])
  end.

Fixpoint run (st : State) (evs : list (FormEvent File))
  : State * list Request :=
  match evs with
  | [] => (st, [])
  | ev :: rest =>
      let (st1, out1) := step st ev in
      let (st2, out2) := run st1 rest in
      (st2, (out1 ++ out2)%list)
  end.

End Files.

End AddContract.

(* ================================================================== *)
(** ** Queries and what the mutations invalidate

    The query keys of these pages are arrays of strings.
    [invalidateQueries({ queryKey })] marks the queries whose key starts
    with the given key: the library matches keys partially, element by
    element. *)

Definition QueryKey : Set := list string.

(** Whether [queryKey] starts with [filter]. *)
Fixpoint partialMatchKey (queryKey filter : QueryKey) : bool :=
  match filter, queryKey with
  | [], _ => true
  | f :: filter', q :: queryKey' =>
      String.eqb f q && partialMatchKey queryKey' filter'
  | _ :: _, [] => false
  end.

(** The [queryKey] of the query options. *)
Definition getContractProjectsQueryOptions : QueryKey :=
  ["contract-projects"].

Definition getContractProjectQueryOptions (id : string) : QueryKey :=
  ["contract-project"; id].

Definition getContractsQueryOptions (projectId : string) : QueryKey :=
  ["contracts"; projectId].

Definition getInvoicesQueryOptions (contractId : string) : QueryKey :=
  ["invoices"; contractId].

(** The queries the pages read. *)
Inductive Query : Set :=
| ContractProjects
| ContractProject (id : string)
| Contracts (projectId : string)
| Invoices (contractId : string).

Definition queryKey (q : Query) : QueryKey :=
  match q with
  | ContractProjects => getContractProjectsQueryOptions
  | ContractProject id => getContractProjectQueryOptions id
  | Contracts projectId => getContractsQueryOptions projectId
  | Invoices contractId => getInvoicesQueryOptions contractId
  end.

(** The mutations of the pages: [AddContractProject], the deletion of a
    contract in [ProjectDetailDialog], [AddContract], the deletion of an
    invoice in [InvoiceDialog], [AddInvoice]. *)
Inductive Mutation : Set :=
| createContractProject
| deleteContract (projectId : string)
| createContract (projectId : string)
| deleteInvoice (contractId : string)
| createInvoice (contractId : string).

(** The key each mutation invalidates in [onSettled]. *)
Definition onSettled (m : Mutation) : QueryKey :=
  match m with
  | createContractProject => ["contract-projects"]
  | deleteContract projectId => ["contracts"; projectId]
  | createContract projectId => ["contracts"; projectId]
  | deleteInvoice contractId => ["invoices"; contractId]
  | createInvoice contractId => ["invoices"; contractId]
  end.

(* ================================================================== *)
(** ** The schemas of the forms

    Of the validation library: [z.string()] accepts strings,
    [.min(1, { message })] asks for at least one character,
    [.optional()] accepts [undefined], and [z.preprocess(f, schema)]
    applies [f] before [schema]. *)

Inductive Issue : Set :=
| invalid_type
| too_small (message : string).

Inductive SafeParse (A : Type) : Type :=
| success (data : A)
| failure (issue : Issue).

Arguments success {A} data.
Arguments failure {A} issue.

Definition z_string (v : unknown) : SafeParse string :=
  match v with
  | Some (JStr s) => success s
  | _ => failure invalid_type
  end.

Definition z_string_min1 (message : string) (v : unknown)
  : SafeParse string :=
  match v with
  | Some (JStr s) =>
      if (1 <=? String.length s)%nat then success s
      else failure (too_small message)
  | _ => failure invalid_type
  end.

Definition optional {A : Type} (schema : unknown -> SafeParse A)
    (v : unknown) : SafeParse (option A) :=
  match v with
  | None => success None
  | Some _ =>
      match schema v with
      | success data => success (Some data)
      | failure issue => failure issue
      end
  end.

Definition preprocess {A : Type} (f : unknown -> unknown)
    (schema : unknown -> SafeParse A) (v : unknown) : SafeParse A :=
  schema (f v).

(** [(value) => (value === "" ? undefined : value)] *)
Definition empty_to_undefined (v : unknown) : unknown :=
  match v with
  | Some (JStr s) => if String.eqb s "" then None else v
  | _ => v
  end.

(** The string fields of [formSchema] in [AddContract]. *)
Module AddContractSchema.

Definition contract_number : unknown -> SafeParse (option string) :=
  preprocess empty_to_undefined (optional (z_string_min1 "合同编号不能为空")).

Definition contract_name : unknown -> SafeParse (option string) :=
  preprocess empty_to_undefined (optional (z_string_min1 "合同名称不能为空")).

Definition sign_date : unknown -> SafeParse (option string) :=
  preprocess empty_to_undefined (optional z_string).

Definition effective_date : unknown -> SafeParse (option string) :=
  preprocess empty_to_undefined (optional z_string).

Definition expiry_date : unknown -> SafeParse (option string) :=
  preprocess empty_to_undefined (optional z_string).

End AddContractSchema.

(** The string fields of [formSchema] in [AddInvoice]. *)
Module AddInvoiceSchema.

Definition invoice_number : unknown -> SafeParse string :=
  z_string_min1 "发票号码不能为空".

Definition invoice_code : unknown -> SafeParse string :=
  z_string_min1 "发票代码不能为空".

Definition invoice_date : unknown -> SafeParse (option string) :=
  optional z_string.

Definition seller : unknown -> SafeParse (option string) :=
  optional z_string.

Definition buyer : unknown -> SafeParse (option string) :=
  optional z_string.

Definition remark : unknown -> SafeParse (option string) :=
  optional z_string.

End AddInvoiceSchema.

(** [formSchema] in [AddContractProject]. *)
Module AddContractProjectSchema.

Definition name : unknown -> SafeParse string :=
  z_string_min1 "项目名称不能为空".

Definition code : unknown -> SafeParse string :=
  z_string_min1 "项目编号不能为空".

Definition description : unknown -> SafeParse (option string) :=
  optional z_string.

End AddContractProjectSchema.

(* ================================================================== *)
(** ** Vocabulary of the statements *)

(** The four status strings the classifiers know. *)
Definition recognized (s : string) : bool :=
  String.eqb s "full" || String.eqb s "partial" ||
  String.eqb s "failed" || String.eqb s "unsupported".

(** The status a payload declares, when it declares one as a string. *)
Definition declared_status (parsedData : ParsedData) : option string :=
  match parsedData with
  | PRecord fields =>
      match lookup "parse_status" fields with
      | Some (JStr s) => Some s
      | _ => None
      end
  | PNull | PUndefined => None
  end.

(** The row badge of an entity that has a file, from the dialog's badge:
    only the default label differs. *)
Definition relabel_default (b : Badge) : Badge :=
  if String.eqb (label b) "未解析" then mkBadge "待解析" (variant b) else b.

(** The characters after the first decimal point of a string. *)
Fixpoint after_point (s : string) : option string :=
  match s with
  | EmptyString => None
  | String c rest => if Ascii.eqb c "." then Some rest else after_point rest
  end.

(** [t] is [|x| * 1000] rounded to the nearest integer, a tie going to
    the larger one. *)
Definition is_thousandths (x : number) (t : Z) : Prop :=
  let (m, e) := to_dec x in
  if -3 <=? e then t = Z.abs m * 10 ^ (e + 3)
  else
    2 * t * 10 ^ (- e - 3) - 10 ^ (- e - 3) <= 2 * Z.abs m
    < 2 * t * 10 ^ (- e - 3) + 10 ^ (- e - 3).

(** The labels of the summary rows of each kind, in order. *)
Definition labels_of (kind : ParsedKind) : list string :=
  match kind with
  | contract =>
      ["甲方"; "乙方"; "合同编号"; "签约日期"; "生效日期"; "到期日期";
       "合同金额"; "盖章页"]
  | invoice =>
      ["发票号码"; "发票代码"; "开票日期"; "销售方"; "购买方"; "发票金额";
       "税额"]
  end.

(** The payload field behind each summary row, in the same order. *)
Definition fields_of (kind : ParsedKind) : list string :=
  match kind with
  | contract =>
      ["party_a"; "party_b"; "contract_number"; "sign_date";
       "effective_date"; "expiry_date"; "amount"; "stamp_pages"]
  | invoice =>
      ["invoice_number"; "invoice_code"; "invoice_date"; "seller"; "buyer";
       "amount"; "tax_amount"]
  end.

(** The number of summary rows of each kind. *)
Definition row_count (kind : ParsedKind) : nat :=
  match kind with
  | contract => 8
  | invoice => 7
  end.

(** The text does not go on with a digit. *)
Definition no_digit_head (rest : string) : Prop :=
  match rest with
  | EmptyString => True
  | String c _ => digit_of_char c = None
  end.

(** The first character of a printed value. *)
Definition value_head (c : ascii) : bool :=
  match digit_of_char c with
  | Some _ => true
  | None =>
      Ascii.eqb c "-" || Ascii.eqb c dquote || Ascii.eqb c "[" ||
      Ascii.eqb c "{" || Ascii.eqb c "n" || Ascii.eqb c "t" || Ascii.eqb c "f"
  end.

(** The reader returns [v], up to the sign of zero, from the indented text
    of [v], whatever the indentation and whatever follows. *)
Definition reads_back (v : value) : Prop :=
  forall indent fuel rest,
    wf_value v = true ->
    all_ws indent = true ->
    (size v <= fuel)%nat ->
    delimited rest = true ->
    parse_value fuel (SerializeJSONProperty "  " indent v ++ rest)
    = Some (json_image v, rest).

(** One member of an object as [SerializeJSONObject] prints it with a
    2-space gap. *)
Definition print_member (ind : string) (kv : string * value) : string :=
  let '(k, x) := kv in
  QuoteJSONString k ++ ":" ++ " " ++ SerializeJSONProperty "  " ind x.

(** A member as it is read back. *)
Definition normalize_member (kv : string * value) : string * value :=
  let '(k, x) := kv in (k, json_image x).

(** The keys of a payload a dialog of the given kind reads, apart from
    the JSON text, which prints them all. *)
Definition keys_read (kind : ParsedKind) : list string :=
  (["parse_status"; "parse_message"; "raw_text"] ++ fields_of kind)%list.

(** The text of the stamp-pages row for the value of the field. *)
Definition stamp_text (Number_add : Number -> Number -> Number)
    (pages : unknown) : string :=
  match pages with
  | Some (JArr xs) =>
      let joined :=
        String.concat ", "
          (map String_of_Number
             (map (fun x => Number_add x (of_Z 1)) (numbers_of xs))) in
      if String.eqb joined "" then "-" else joined
  | _ => "-"
  end.

(** How deep arrays are nested in a value through arrays alone: the
    levels [join] descends to convert it. *)
Fixpoint array_depth (v : value) : nat :=
  match v with
  | JArr xs => S (list_max (map array_depth xs))
  | _ => 0
  end.

(** No object reached through arrays alone has an own property
    [toString]: the objects [join] converts. *)
Fixpoint joinable (v : value) : bool :=
  match v with
  | JArr xs => forallb joinable xs
  | JObj fields => negb (hasOwn "toString" fields)
  | _ => true
  end.

(** The values [ToString] converts when [join] can descend [stack]
    levels. *)
Definition converts (stack : nat) (v : value) : bool :=
  (array_depth v <=? stack)%nat && joinable v.

(** The values [formatText] shows: an array whose elements [join] can
    convert within [join_depth] levels, an object [JSON.stringify] can
    print within [stringify_depth] levels, and everything that is
    neither an array nor an object. *)
Definition shows_as_text (join_depth stringify_depth : nat) (v : unknown)
  : bool :=
  match v with
  | Some (JArr xs) => forallb (converts join_depth) xs
  | Some (JObj fields) => (nesting (JObj fields) <=? stringify_depth)%nat
  | _ => true
  end.

(** The host adds one to a page index exactly, as the addition of
    doubles does below 2^53. *)
Definition exact_on_indices (Number_add : Number -> Number -> Number)
  : Prop :=
  forall i, 0 <= i < 2 ^ 53 - 1 ->
            Number_add (of_Z i) (of_Z 1) = of_Z (i + 1).

(** What [getParseMessage] and [getRawText] return for a present
    payload. *)
Definition message_of (fields : list (string * value)) : string :=
  match lookup "parse_message" fields with
  | Some (JStr s) => s
  | _ => "暂无解析信息"
  end.

Definition raw_text_of (fields : list (string * value)) : string :=
  match lookup "raw_text" fields with
  | Some (JStr s) => s
  | _ => ""
  end.

(** A payload all of whose text fields can be shown. *)
Definition text_fields_show (join_depth stringify_depth : nat)
    (keys : list string) (fields : list (string * value)) : bool :=
  forallb (fun key => shows_as_text join_depth stringify_depth
                        (lookup key fields)) keys.


(** A nullable string or number of a row as a JavaScript value. *)
Definition value_of_string (a : option string) : unknown :=
  match a with
  | Some s => Some (JStr s)
  | None => Some JNull
  end.

Definition value_of_number (a : option number) : unknown :=
  match a with
  | Some x => Some (JNum x)
  | None => Some JNull
  end.

(** The fields of each kind shown through [formatText]. *)
Definition text_fields (kind : ParsedKind) : list string :=
  match kind with
  | contract => ["party_a"; "party_b"; "contract_number"]
  | invoice => ["invoice_number"; "invoice_code"; "seller"; "buyer"]
  end.

(** The events of a form that reset it (closing it, a successful
    submission), that choose a file, and that submit. *)
Definition resets {File : Type} (ev : FormEvent File) : bool :=
  match ev with
  | OpenChange open => negb open
  | Success => true
  | FileChange _ | Submit => false
  end.

Definition picks_file {File : Type} (ev : FormEvent File) : bool :=
  match ev with
  | FileChange _ => true
  | _ => false
  end.

Definition submits {File : Type} (ev : FormEvent File) : bool :=
  match ev with
  | Submit => true
  | _ => false
  end.

(** The state and the requests of the contract form, read as those of
    the invoice form. *)
Definition as_invoice_state {File : Type} (st : AddContract.State File)
  : AddInvoice.State File :=
  AddInvoice.mkState File (AddContract.isOpen File st)
    (AddContract.contractFile File st) (AddContract.fileInputKey File st).

Definition as_invoice_request {File : Type} (r : AddContract.Request File)
  : AddInvoice.Request File :=
  match r with
  | AddContract.CreateContract _ file => AddInvoice.CreateInvoice File file
  end.

(** What may follow a value in a text without line breaks: nothing, a
    comma or a closing bracket. *)
Definition closes (rest : string) : bool :=
  match rest with
  | EmptyString => true
  | String c _ => Ascii.eqb c "," || Ascii.eqb c "]" || Ascii.eqb c "}"
  end.

(** The reader returns [v], up to the sign of zero, from the text of [v]
    without line breaks, whatever follows. *)
Definition reads_back_compact (v : value) : Prop :=
  forall indent fuel rest,
    wf_value v = true ->
    (size v <= fuel)%nat ->
    closes rest = true ->
    parse_value fuel (SerializeJSONProperty "" indent v ++ rest)
    = Some (json_image v, rest).

(** One member of an object as [SerializeJSONObject] prints it without a
    gap. *)
Definition print_member_compact (ind : string) (kv : string * value)
  : string :=
  let '(k, x) := kv in
  QuoteJSONString k ++ ":" ++ "" ++ SerializeJSONProperty "" ind x.

(** The values [formatText] shows as their JSON text: booleans, finite
    numbers and objects. *)
Definition shown_as_json (v : value) : bool :=
  match v with
  | JBool _ | JNum (Finite _) | JObj _ => true
  | JNum (Infinite _) | JNum NaN | JNull | JStr _ | JArr _ => false
  end.

(** Whether the mutation, once settled, marks the query for a refetch. *)
Definition invalidates (m : Mutation) (q : Query) : bool :=
  partialMatchKey (queryKey q) (onSettled m).

(** A field of the contract form that turns the empty string into an
    absent value, and a field that requires a character. *)
Definition blank_as_absent (field : unknown -> SafeParse (option string))
  : Prop :=
  (forall v message, field v <> failure (too_small message)) /\
  (forall s,
     field (Some (JStr s)) = success (if String.eqb s "" then None else Some s)) /\
  (forall v, field v = success None <-> v = None \/ v = Some (JStr "")).

Definition required_text (message : string)
    (field : unknown -> SafeParse string) : Prop :=
  field (Some (JStr "")) = failure (too_small message) /\
  field None = failure invalid_type /\
  (forall v s, field v = success s <-> v = Some (JStr s) /\ s <> "").

(** What becomes of a conversion: a result when [b], an error otherwise. *)
Definition returns_when {A : Type} (b : bool) (c : Exc A) : Prop :=
  if b then exists a, c = Ok a else exists e, c = Throw e.

(* ================================================================== *)
(** * Properties *)

(** ** Status classification *)

Lemma recognized_false (s : string) :
  s <> "full" -> s <> "partial" -> s <> "failed" -> s <> "unsupported" ->
  recognized s = false.
Proof.
  intros H1 H2 H3 H4. unfold recognized.
  apply String.eqb_neq in H1, H2, H3, H4.
  now rewrite H1, H2, H3, H4.
Qed.

Lemma recognized_cases (s : string) :
  recognized s = true ->
  s = "full" \/ s = "partial" \/ s = "failed" \/ s = "unsupported".
Proof.
  unfold recognized. intros H.
  repeat (apply orb_true_iff in H; destruct H as [H | H]);
    apply String.eqb_eq in H; auto.
Qed.

Lemma parse_status_of_declared (parsedData : ParsedData) :
  parse_status_of parsedData =
  Ok (match declared_status parsedData with
      | Some s => Some (JStr s)
      | None => Some JNull
      end).
Proof.
  destruct parsedData as [| | fields]; try reflexivity.
  unfold parse_status_of, declared_status, getProp, bind, truthy.
  destruct (lookup "parse_status" fields) as [[| b | x | s | xs | fs] |];
    reflexivity.
Qed.

(** C1. The dialog's status classification is total: it never throws, an
    absent payload gives Unparsed, a [parse_status] that is one of the
    strings full, partial, failed, unsupported gives the outcome of that
    name, and every other payload (field absent, not a string, or a string
    outside the four) gives Unparsed. *)
Theorem status_classification_total (parsedData : ParsedData) :
  (exists b, Dialog.getParseStatusBadge parsedData = Ok b) /\
  (truthy parsedData = false ->
   Dialog.getParseStatusBadge parsedData = Ok Dialog.Unparsed) /\
  (declared_status parsedData = Some "full" ->
   Dialog.getParseStatusBadge parsedData = Ok Dialog.Full) /\
  (declared_status parsedData = Some "partial" ->
   Dialog.getParseStatusBadge parsedData = Ok Dialog.Partial) /\
  (declared_status parsedData = Some "failed" ->
   Dialog.getParseStatusBadge parsedData = Ok Dialog.Failed) /\
  (declared_status parsedData = Some "unsupported" ->
   Dialog.getParseStatusBadge parsedData = Ok Dialog.Unsupported) /\
  (forall fields, parsedData = PRecord fields ->
   lookup "parse_status" fields = None ->
   Dialog.getParseStatusBadge parsedData = Ok Dialog.Unparsed) /\
  (forall fields v, parsedData = PRecord fields ->
   lookup "parse_status" fields = Some v ->
   typeof (Some v) <> "string" ->
   Dialog.getParseStatusBadge parsedData = Ok Dialog.Unparsed) /\
  (forall s, declared_status parsedData = Some s ->
   s <> "full" -> s <> "partial" -> s <> "failed" -> s <> "unsupported" ->
   Dialog.getParseStatusBadge parsedData = Ok Dialog.Unparsed) /\
  Dialog.getParseStatusBadge PUndefined = Ok Dialog.Unparsed /\
  Dialog.getParseStatusBadge PNull = Ok Dialog.Unparsed /\
  Dialog.getParseStatusBadge (PRecord [("parse_status", JStr "full")])
    = Ok Dialog.Full /\
  Dialog.getParseStatusBadge (PRecord [("parse_status", JStr "bogus")])
    = Ok Dialog.Unparsed /\
  Dialog.getParseStatusBadge (PRecord [("parse_status", JNum (of_Z 42))])
    = Ok Dialog.Unparsed.
Proof.
  unfold Dialog.getParseStatusBadge.
  rewrite parse_status_of_declared.
  repeat split; try reflexivity.
  - destruct (declared_status parsedData) as [s |]; simpl;
      repeat match goal with
             | |- context [String.eqb ?a ?b] => destruct (String.eqb a b)
             end; eexists; reflexivity.
  - intros H. destruct parsedData; simpl in *; try reflexivity; discriminate.
  - intros ->. reflexivity.
  - intros ->. reflexivity.
  - intros ->. reflexivity.
  - intros ->. reflexivity.
  - intros fields -> H. simpl. rewrite H. reflexivity.
  - intros fields v -> H Hty. simpl. rewrite H.
    destruct v; try reflexivity. now contradiction Hty.
  - intros s -> H1 H2 H3 H4. simpl.
    apply String.eqb_neq in H1, H2, H3, H4.
    now rewrite H1, H2, H3, H4.
Qed.

Lemma status_classification_total_witness :
  Dialog.getParseStatusBadge
    (PRecord [("raw_text", JStr "x"); ("parse_status", JStr "failed")])
  = Ok Dialog.Failed.
Proof.
  destruct (status_classification_total
              (PRecord [("raw_text", JStr "x"); ("parse_status", JStr "failed")]))
    as (_ & _ & _ & _ & Hfailed & _).
  exact (Hfailed eq_refl).
Defined.

(** ** Row badges *)

Lemma row_badges_agree (e : Entity) :
  ContractColumns.getParseStatusBadge e = InvoiceColumns.getParseStatusBadge e.
Proof. reflexivity. Qed.

Lemma row_badge_by_status (e : Entity) :
  ContractColumns.getParseStatusBadge e =
  if no_file e then Ok (mkBadge "未上传" outline)
  else
    match declared_status (parsed_data e) with
    | Some s =>
        if String.eqb s "full" then Ok Dialog.Full
        else if String.eqb s "partial" then Ok Dialog.Partial
        else if String.eqb s "failed" then Ok Dialog.Failed
        else if String.eqb s "unsupported" then Ok Dialog.Unsupported
        else Ok (mkBadge "待解析" outline)
    | None => Ok (mkBadge "待解析" outline)
    end.
Proof.
  unfold ContractColumns.getParseStatusBadge.
  destruct (no_file e); [reflexivity |].
  rewrite parse_status_of_declared.
  destruct (declared_status (parsed_data e)); reflexivity.
Qed.

Lemma dialog_badge_by_status (parsedData : ParsedData) :
  Dialog.getParseStatusBadge parsedData =
  match declared_status parsedData with
  | Some s =>
      if String.eqb s "full" then Ok Dialog.Full
      else if String.eqb s "partial" then Ok Dialog.Partial
      else if String.eqb s "failed" then Ok Dialog.Failed
      else if String.eqb s "unsupported" then Ok Dialog.Unsupported
      else Ok Dialog.Unparsed
  | None => Ok Dialog.Unparsed
  end.
Proof.
  unfold Dialog.getParseStatusBadge.
  rewrite parse_status_of_declared.
  destruct (declared_status parsedData); reflexivity.
Qed.

(** Case analysis on the file test and the declared status of [e], with
    the two row badges computed in each case. *)
Ltac row_badge_cases e Hc Hi :=
  pose proof (row_badge_by_status e) as Hc;
  pose proof (row_badges_agree e) as Hi;
  rewrite Hc in Hi; symmetry in Hi;
  destruct (no_file e);
  [ | destruct (declared_status (parsed_data e)) as [?s |];
      [ destruct (String.eqb s "full");
        [ | destruct (String.eqb s "partial");
            [ | destruct (String.eqb s "failed");
                [ | destruct (String.eqb s "unsupported") ] ] ] | ] ].

(** C5 as stated fails: the row badges of a partially and of a fully
    parsed contract carry the same variant. *)
Lemma partial_and_full_share_variant :
  exists bp bf,
    ContractColumns.getParseStatusBadge
      (mkEntity (Some "a.pdf") (PRecord [("parse_status", JStr "partial")]))
    = Ok bp /\
    ContractColumns.getParseStatusBadge
      (mkEntity (Some "a.pdf") (PRecord [("parse_status", JStr "full")]))
    = Ok bf /\
    ~ variant bp <> variant bf.
Proof.
  exists Dialog.Partial, Dialog.Full.
  repeat split. intros H. now apply H.
Qed.

(** C5, amended. The row badges use three variants: outline when there is
    no file and for the Unparsed and Unsupported outcomes, secondary for
    both Partial and Full, destructive for Failed.  For two entities with
    a file, one declaring the status "partial" and one declaring "full",
    the badges of both row classifiers carry the same variant, secondary,
    and differ in their label: "部分解析" and "已解析". *)
Theorem row_badge_variants (e p f : Entity) :
  (exists b,
     ContractColumns.getParseStatusBadge e = Ok b /\
     InvoiceColumns.getParseStatusBadge e = Ok b /\
     variant b =
       (if no_file e then outline
        else
          match declared_status (parsed_data e) with
          | Some s =>
              if String.eqb s "full" then secondary
              else if String.eqb s "partial" then secondary
              else if String.eqb s "failed" then destructive
              else outline
          | None => outline
          end)) /\
  (no_file p = false ->
   declared_status (parsed_data p) = Some "partial" ->
   no_file f = false ->
   declared_status (parsed_data f) = Some "full" ->
   exists bp bf,
     ContractColumns.getParseStatusBadge p = Ok bp /\
     InvoiceColumns.getParseStatusBadge p = Ok bp /\
     ContractColumns.getParseStatusBadge f = Ok bf /\
     InvoiceColumns.getParseStatusBadge f = Ok bf /\
     variant bp = secondary /\
     variant bf = secondary /\
     label bp = "部分解析" /\
     label bf = "已解析" /\
     label bp <> label bf).
Proof.
  split.
  - row_badge_cases e Hc Hi;
      (eexists; split; [exact Hc | split; [exact Hi | reflexivity]]).
  - intros Hp Hsp Hf Hsf.
    exists Dialog.Partial, Dialog.Full.
    rewrite <- (row_badges_agree p), <- (row_badges_agree f).
    rewrite (row_badge_by_status p), (row_badge_by_status f).
    rewrite Hp, Hsp, Hf, Hsf. cbn.
    repeat split. discriminate.
Qed.

Lemma row_badge_variants_witness :
  exists bp bf,
    ContractColumns.getParseStatusBadge
      (mkEntity (Some "a.pdf") (PRecord [("parse_status", JStr "partial")]))
    = Ok bp /\
    InvoiceColumns.getParseStatusBadge
      (mkEntity (Some "a.pdf") (PRecord [("parse_status", JStr "partial")]))
    = Ok bp /\
    ContractColumns.getParseStatusBadge
      (mkEntity (Some "b.pdf") (PRecord [("parse_status", JStr "full")]))
    = Ok bf /\
    InvoiceColumns.getParseStatusBadge
      (mkEntity (Some "b.pdf") (PRecord [("parse_status", JStr "full")]))
    = Ok bf /\
    variant bp = secondary /\
    variant bf = secondary /\
    label bp = "部分解析" /\
    label bf = "已解析" /\
    label bp <> label bf.
Proof.
  exact (proj2 (row_badge_variants
                  (mkEntity None PNull)
                  (mkEntity (Some "a.pdf")
                     (PRecord [("parse_status", JStr "partial")]))
                  (mkEntity (Some "b.pdf")
                     (PRecord [("parse_status", JStr "full")])))
           eq_refl eq_refl eq_refl eq_refl).
Defined.

(** C9. Both row badges test the file reference first: without a file the
    badge is "未上传" whatever the payload says; with a file the badge is
    the dialog's classification of the payload, its default label being
    "待解析". *)
Theorem row_badge_file_first (e : Entity) :
  (no_file e = true ->
   ContractColumns.getParseStatusBadge e = Ok (mkBadge "未上传" outline) /\
   InvoiceColumns.getParseStatusBadge e = Ok (mkBadge "未上传" outline)) /\
  (no_file e = false ->
   exists b,
     Dialog.getParseStatusBadge (parsed_data e) = Ok b /\
     ContractColumns.getParseStatusBadge e = Ok (relabel_default b) /\
     InvoiceColumns.getParseStatusBadge e = Ok (relabel_default b)) /\
  relabel_default Dialog.Unparsed = mkBadge "待解析" outline /\
  ContractColumns.getParseStatusBadge
    (mkEntity None (PRecord [("parse_status", JStr "full")]))
  = Ok (mkBadge "未上传" outline) /\
  InvoiceColumns.getParseStatusBadge
    (mkEntity (Some "") (PRecord [("parse_status", JStr "full")]))
  = Ok (mkBadge "未上传" outline).
Proof.
  split; [| split; [| repeat split]].
  - intros Hfile.
    pose proof (row_badge_by_status e) as Hc.
    pose proof (row_badges_agree e) as Hi.
    rewrite Hc in Hi. rewrite Hfile in Hc, Hi. now split.
  - pose proof (dialog_badge_by_status (parsed_data e)) as Hd.
    row_badge_cases e Hc Hi; intros Hfile; try discriminate Hfile;
      (eexists; split; [exact Hd | split; [exact Hc | exact Hi]]).
Qed.

Lemma row_badge_file_first_witness :
  ContractColumns.getParseStatusBadge
    (mkEntity None (PRecord [("parse_status", JStr "partial")]))
  = Ok (mkBadge "未上传" outline) /\
  exists b,
    Dialog.getParseStatusBadge (PRecord [("parse_status", JStr "partial")])
    = Ok b /\
    ContractColumns.getParseStatusBadge
      (mkEntity (Some "c.pdf") (PRecord [("parse_status", JStr "partial")]))
    = Ok (relabel_default b) /\
    InvoiceColumns.getParseStatusBadge
      (mkEntity (Some "c.pdf") (PRecord [("parse_status", JStr "partial")]))
    = Ok (relabel_default b).
Proof.
  split.
  - exact (proj1 (proj1 (row_badge_file_first
             (mkEntity None (PRecord [("parse_status", JStr "partial")])))
             eq_refl)).
  - exact (proj1 (proj2 (row_badge_file_first
             (mkEntity (Some "c.pdf")
                (PRecord [("parse_status", JStr "partial")]))))
             eq_refl).
Defined.

(** C10. The dialog classifier and the two row classifiers recognise the
    same four status strings; for an entity with a file they return the
    same label and variant on each recognised status, and on everything
    else they differ in the label only ("未解析" in the dialog, "待解析"
    in the rows). *)
Theorem classifiers_agree (e : Entity) :
  no_file e = false ->
  ContractColumns.getParseStatusBadge e = InvoiceColumns.getParseStatusBadge e /\
  match declared_status (parsed_data e) with
  | Some s =>
      if recognized s then
        ContractColumns.getParseStatusBadge e
          = Dialog.getParseStatusBadge (parsed_data e) /\
        Dialog.getParseStatusBadge (parsed_data e) <> Ok Dialog.Unparsed /\
        ContractColumns.getParseStatusBadge e <> Ok (mkBadge "待解析" outline)
      else
        Dialog.getParseStatusBadge (parsed_data e) = Ok Dialog.Unparsed /\
        ContractColumns.getParseStatusBadge e = Ok (mkBadge "待解析" outline)
  | None =>
      Dialog.getParseStatusBadge (parsed_data e) = Ok Dialog.Unparsed /\
      ContractColumns.getParseStatusBadge e = Ok (mkBadge "待解析" outline)
  end.
Proof.
  intros Hfile. split; [apply row_badges_agree |].
  rewrite row_badge_by_status, dialog_badge_by_status, Hfile.
  destruct (declared_status (parsed_data e)) as [s |]; [| now split].
  unfold recognized.
  destruct (String.eqb s "full"); [repeat split; discriminate |].
  destruct (String.eqb s "partial"); [repeat split; discriminate |].
  destruct (String.eqb s "failed"); [repeat split; discriminate |].
  destruct (String.eqb s "unsupported"); repeat split; discriminate.
Qed.

Lemma classifiers_agree_witness :
  ContractColumns.getParseStatusBadge
    (mkEntity (Some "i.pdf") (PRecord [("parse_status", JStr "unsupported")]))
  = Dialog.getParseStatusBadge (PRecord [("parse_status", JStr "unsupported")]).
Proof.
  exact (proj1 (proj2 (classifiers_agree
           (mkEntity (Some "i.pdf")
              (PRecord [("parse_status", JStr "unsupported")]))
           eq_refl))).
Defined.

(** ** Decimal digits *)

Lemma digit_val_range (d : digit) : 0 <= digit_val d < 10.
Proof. destruct d; simpl; lia. Qed.

Lemma digit_val_of_Z (r : Z) : 0 <= r < 10 -> digit_val (digit_of_Z r) = r.
Proof.
  intros H.
  assert (r = 0 \/ r = 1 \/ r = 2 \/ r = 3 \/ r = 4 \/
          r = 5 \/ r = 6 \/ r = 7 \/ r = 8 \/ r = 9) as Hr by lia.
  repeat (destruct Hr as [-> | Hr]; [reflexivity |]).
  now subst r.
Qed.

Lemma digit_of_char_char (d : digit) : digit_of_char (digit_char d) = Some d.
Proof. destruct d; reflexivity. Qed.

Lemma fold_digits_acc (ds : list digit) (a : Z) :
  fold_left (fun acc d => 10 * acc + digit_val d) ds a
  = a * 10 ^ Z.of_nat (length ds) + digits_val ds.
Proof.
  unfold digits_val. revert a.
  induction ds as [| d ds IH]; intros a.
  - simpl. lia.
  - cbn [fold_left length]. rewrite IH, (IH (10 * 0 + digit_val d)).
    rewrite Nat2Z.inj_succ, Z.pow_succ_r by lia. lia.
Qed.

Lemma digits_val_cons (d : digit) (ds : list digit) :
  digits_val (d :: ds)
  = digit_val d * 10 ^ Z.of_nat (length ds) + digits_val ds.
Proof.
  unfold digits_val at 1. cbn [fold_left]. rewrite fold_digits_acc. lia.
Qed.

Lemma digits_val_app (a b : list digit) :
  digits_val (a ++ b)
  = digits_val a * 10 ^ Z.of_nat (length b) + digits_val b.
Proof.
  unfold digits_val at 1. rewrite fold_left_app.
  rewrite fold_digits_acc. reflexivity.
Qed.

Lemma length_zeros (n : nat) : length (zeros n) = n.
Proof. induction n; simpl; congruence. Qed.

Lemma digits_val_zeros (n : nat) : digits_val (zeros n) = 0.
Proof.
  induction n as [| n IH]; [reflexivity |].
  cbn [zeros]. rewrite digits_val_cons, IH. simpl. lia.
Qed.

Lemma digits_val_app_zeros (ds : list digit) (n : nat) :
  digits_val (ds ++ zeros n) = digits_val ds * 10 ^ Z.of_nat n.
Proof. rewrite digits_val_app, length_zeros, digits_val_zeros. lia. Qed.

Lemma zeros_snoc (n : nat) : (zeros n ++ [d0])%list = d0 :: zeros n.
Proof. induction n as [| n IH]; simpl; [reflexivity | now rewrite IH]. Qed.

Lemma rev_zeros (n : nat) : rev (zeros n) = zeros n.
Proof.
  induction n as [| n IH]; [reflexivity |].
  simpl. rewrite IH. apply zeros_snoc.
Qed.

Lemma strip_leading_split (ds : list digit) :
  ds = (zeros (length ds - length (strip_leading ds)) ++ strip_leading ds)%list
  /\ (length (strip_leading ds) <= length ds)%nat.
Proof.
  induction ds as [| d ds [IH Hle]]; [now split |].
  destruct d; cbn [strip_leading];
    try (rewrite Nat.sub_diag; split; [reflexivity | lia]).
  cbn [length]. split; [| lia].
  replace (S (length ds) - length (strip_leading ds))%nat
    with (S (length ds - length (strip_leading ds))) by lia.
  simpl. now rewrite <- IH.
Qed.

Lemma strip_leading_zeros_app (n : nat) (ds : list digit) :
  strip_leading (zeros n ++ ds) = strip_leading ds.
Proof. induction n; simpl; auto. Qed.

Lemma length_strip_trailing (ds : list digit) :
  (length (strip_trailing ds) <= length ds)%nat.
Proof.
  unfold strip_trailing. rewrite length_rev.
  pose proof (proj2 (strip_leading_split (rev ds))) as H.
  now rewrite length_rev in H.
Qed.

Lemma strip_trailing_split (ds : list digit) :
  ds = (strip_trailing ds
        ++ zeros (length ds - length (strip_trailing ds)))%list.
Proof.
  unfold strip_trailing.
  destruct (strip_leading_split (rev ds)) as [H _].
  rewrite !length_rev in *.
  rewrite <- (rev_involutive ds) at 1.
  rewrite H at 1. rewrite rev_app_distr, rev_zeros.
  reflexivity.
Qed.

Lemma strip_trailing_app_zeros (ds : list digit) (n : nat) :
  strip_trailing (ds ++ zeros n) = strip_trailing ds.
Proof.
  unfold strip_trailing.
  now rewrite rev_app_distr, rev_zeros, strip_leading_zeros_app.
Qed.

Lemma strip_leading_id (ds : list digit) :
  starts_nonzero ds = true -> strip_leading ds = ds.
Proof. destruct ds as [| [] ds]; simpl; intros H; congruence. Qed.

Lemma strip_trailing_id (ds : list digit) :
  ends_nonzero ds = true -> strip_trailing ds = ds.
Proof.
  unfold ends_nonzero, strip_trailing. intros H.
  rewrite strip_leading_id.
  - apply rev_involutive.
  - unfold starts_nonzero. exact H.
Qed.

Lemma starts_nonzero_strip_trailing (ds : list digit) :
  starts_nonzero ds = true -> starts_nonzero (strip_trailing ds) = true.
Proof.
  intros H. pose proof (strip_trailing_split ds) as Hs.
  destruct (strip_trailing ds) as [| d r]; [reflexivity |].
  rewrite Hs in H. exact H.
Qed.

Lemma strip_trailing_nonempty (d : digit) (ds : list digit) :
  d <> d0 -> strip_trailing (d :: ds) <> [].
Proof.
  intros Hd Hnil. pose proof (strip_trailing_split (d :: ds)) as Hs.
  rewrite Hnil in Hs. simpl in Hs. congruence.
Qed.

Lemma digits_of_fuel_val (fuel : nat) :
  forall n acc, 0 <= n < 2 ^ Z.of_nat fuel ->
  digits_val (digits_of_fuel fuel n acc)
  = n * 10 ^ Z.of_nat (length acc) + digits_val acc.
Proof.
  induction fuel as [| fuel IH]; intros n acc Hn.
  - simpl in *. assert (n = 0) by lia. subst. lia.
  - cbn [digits_of_fuel]. destruct (Z.leb_spec n 0) as [Hle | Hgt].
    + assert (n = 0) by lia. subst. lia.
    + rewrite Nat2Z.inj_succ, Z.pow_succ_r in Hn by lia.
      rewrite IH.
      * rewrite digits_val_cons, digit_val_of_Z
          by (apply Z.mod_pos_bound; lia).
        cbn [length]. rewrite Nat2Z.inj_succ, Z.pow_succ_r by lia.
        pose proof (Z.div_mod n 10 ltac:(lia)) as Hdm.
        set (p := 10 ^ Z.of_nat (length acc)) in *.
        set (q := n / 10) in *. set (r := n mod 10) in *.
        clearbody p q r. subst n. ring.
      * split; [apply Z.div_pos; lia |].
        apply Z.div_lt_upper_bound; lia.
Qed.

Lemma digits_of_val (n : Z) : 0 <= n -> digits_val (digits_of n) = n.
Proof.
  intros Hn. unfold digits_of. rewrite digits_of_fuel_val.
  - change (Z.of_nat (length (@nil digit))) with 0.
    change (digits_val []) with 0. rewrite Z.pow_0_r. lia.
  - split; [assumption |].
    destruct (Z.eq_dec n 0) as [-> | Hnz]; [simpl; lia |].
    rewrite Nat2Z.inj_succ, Z2Nat.id by apply Z.log2_nonneg.
    apply Z.log2_spec. lia.
Qed.

Lemma digits_of_fuel_head (fuel : nat) :
  forall n acc, 0 < n < 2 ^ Z.of_nat fuel ->
  exists d r, digits_of_fuel fuel n acc = d :: r /\ d <> d0.
Proof.
  induction fuel as [| fuel IH]; intros n acc Hn.
  - simpl in Hn. lia.
  - cbn [digits_of_fuel]. destruct (Z.leb_spec n 0) as [Hle | Hgt]; [lia |].
    rewrite Nat2Z.inj_succ, Z.pow_succ_r in Hn by lia.
    destruct (Z.eq_dec (n / 10) 0) as [Hz | Hnz].
    + assert (digits_of_fuel fuel (n / 10) (digit_of_Z (n mod 10) :: acc)
              = digit_of_Z (n mod 10) :: acc) as ->.
      { rewrite Hz. destruct fuel; reflexivity. }
      eexists _, _. split; [reflexivity |].
      intros Hd. pose proof (digit_val_of_Z (n mod 10)) as Hv.
      rewrite Hd in Hv. simpl in Hv.
      pose proof (Z.mod_pos_bound n 10 ltac:(lia)).
      pose proof (Z.div_mod n 10 ltac:(lia)). lia.
    + apply IH. split.
      * pose proof (Z.div_pos n 10 ltac:(lia) ltac:(lia)). lia.
      * apply Z.div_lt_upper_bound; lia.
Qed.

Lemma digits_of_head (n : Z) :
  0 < n -> exists d r, digits_of n = d :: r /\ d <> d0.
Proof.
  intros Hn. unfold digits_of. apply digits_of_fuel_head.
  split; [assumption |].
  rewrite Nat2Z.inj_succ, Z2Nat.id by apply Z.log2_nonneg.
  apply Z.log2_spec. lia.
Qed.

Lemma digits_of_fuel_length (fuel : nat) :
  forall n acc k, 0 <= n < 10 ^ Z.of_nat k ->
  (length (digits_of_fuel fuel n acc) <= k + length acc)%nat.
Proof.
  induction fuel as [| fuel IH]; intros n acc k Hn.
  - simpl. lia.
  - cbn [digits_of_fuel]. destruct (Z.leb_spec n 0) as [Hle | Hgt]; [lia |].
    destruct k as [| k]; [simpl in Hn; lia |].
    rewrite Nat2Z.inj_succ, Z.pow_succ_r in Hn by lia.
    specialize (IH (n / 10) (digit_of_Z (n mod 10) :: acc) k).
    cbn [length] in IH. etransitivity; [apply IH | lia].
    split; [apply Z.div_pos; lia |].
    apply Z.div_lt_upper_bound; lia.
Qed.

Lemma digits_of_length (n : Z) (k : nat) :
  0 <= n < 10 ^ Z.of_nat k -> (length (digits_of n) <= k)%nat.
Proof.
  intros Hn. unfold digits_of.
  pose proof (digits_of_fuel_length (S (Z.to_nat (Z.log2 n))) n [] k Hn).
  simpl in *. lia.
Qed.

(** ** Integers as numbers *)

Lemma to_dec_of_Z (i : Z) :
  0 <= i ->
  fst (to_dec (of_Z i)) * 10 ^ snd (to_dec (of_Z i)) = i /\
  0 <= snd (to_dec (of_Z i)).
Proof.
  intros Hi. unfold of_Z, of_dec.
  destruct (Z.eqb_spec i 0) as [-> | Hnz]; [simpl; lia |].
  rewrite Z.abs_eq by lia.
  destruct (Z.ltb_spec i 0) as [Hneg | _]; [lia |].
  unfold to_dec. cbn [negative significand point fst snd].
  pose proof (strip_trailing_split (digits_of i)) as Hs.
  pose proof (length_strip_trailing (digits_of i)) as Hl.
  pose proof (digits_of_val i Hi) as Hv.
  rewrite Hs, digits_val_app_zeros in Hv.
  split; [| lia].
  etransitivity; [| exact Hv]. f_equal. f_equal. lia.
Qed.

Lemma number_add_one (i : Z) :
  0 <= i -> number_add (of_Z i) (of_Z 1) = of_Z (i + 1).
Proof.
  intros Hi. unfold number_add.
  destruct (to_dec_of_Z i Hi) as [Hv He].
  destruct (to_dec (of_Z i)) as [m e]. cbn [fst snd] in *.
  change (to_dec (of_Z 1)) with (1, 0). cbv iota beta.
  rewrite Z.min_r by lia. unfold of_Z. f_equal.
  rewrite !Z.sub_0_r, Z.pow_0_r. lia.
Qed.

Lemma Number_toString_of_Z (j : Z) :
  0 < j < 10 ^ 21 ->
  Number_toString (of_Z j) = str_of_digits (digits_of j).
Proof.
  intros Hj. unfold of_Z, of_dec.
  destruct (Z.eqb_spec j 0) as [-> | Hnz]; [lia |].
  rewrite Z.abs_eq by lia.
  destruct (Z.ltb_spec j 0) as [Hneg | _]; [lia |].
  pose proof (strip_trailing_split (digits_of j)) as Hs.
  pose proof (length_strip_trailing (digits_of j)) as Hl.
  pose proof (digits_of_length j 21 ltac:(simpl; lia)) as Hlen.
  destruct (digits_of_head j ltac:(lia)) as (d & r & Hd & Hdnz).
  unfold Number_toString. cbn [negative significand point].
  destruct (strip_trailing (digits_of j)) as [| c cs] eqn:Hst.
  - exfalso. rewrite Hd in Hst. now apply (strip_trailing_nonempty d r Hdnz).
  - destruct (Z.leb_spec (Z.of_nat (length (c :: cs)))
                (Z.of_nat (length (digits_of j)) + 0)) as [_ | Hbad]; [| lia].
    destruct (Z.leb_spec (Z.of_nat (length (digits_of j)) + 0) 21)
      as [_ | Hbad]; [| lia].
    cbn [andb append]. f_equal.
    etransitivity; [| symmetry; exact Hs]. f_equal. f_equal. lia.
Qed.

Lemma str_of_digits_nonempty (d : digit) (ds : list digit) :
  str_of_digits (d :: ds) <> "".
Proof. discriminate. Qed.

Lemma concat_nonempty (sep x : string) (xs : list string) :
  x <> "" -> String.concat sep (x :: xs) <> "".
Proof.
  intros Hx. destruct x as [| c x]; [congruence |].
  destruct xs; simpl; discriminate.
Qed.

Lemma numbers_of_map_of_Z (idx : list Z) :
  numbers_of (map (fun i => JNum (of_Z i)) idx)
  = map (fun i => Finite (of_Z i)) idx.
Proof. induction idx as [| i idx IH]; simpl; congruence. Qed.

(** ** Money *)

Lemma after_point_app (a b : string) :
  after_point a = None -> after_point (a ++ "." ++ b) = Some b.
Proof.
  induction a as [| c a IH]; simpl; [reflexivity |].
  destruct (Ascii.eqb c "."); [discriminate | exact IH].
Qed.

Lemma after_point_none_app (a b : string) :
  after_point a = None -> after_point b = None -> after_point (a ++ b) = None.
Proof.
  intros Ha Hb. induction a as [| c a IH]; simpl in *; [exact Hb |].
  destruct (Ascii.eqb c "."); [discriminate | auto].
Qed.

Lemma after_point_group (ds : list digit) : after_point (group ds) = None.
Proof.
  induction ds as [| d ds IH]; [reflexivity |].
  cbn [group after_point].
  assert (Ascii.eqb (digit_char d) "." = false) as -> by (destruct d; reflexivity).
  apply after_point_none_app; [| exact IH].
  destruct ((0 <? length ds)%nat && (length ds mod 3 =? 0)%nat); reflexivity.
Qed.

Lemma length_str_of_digits (ds : list digit) :
  String.length (str_of_digits ds) = length ds.
Proof. induction ds; simpl; congruence. Qed.

Lemma length_fraction_digits (t : Z) :
  (2 <= length (fraction_digits t) <= 3)%nat.
Proof.
  unfold fraction_digits. destruct (t mod 1000 mod 10 =? 0); simpl; lia.
Qed.

Lemma append_assoc (a b c : string) : (a ++ b) ++ c = a ++ (b ++ c).
Proof. induction a as [| x a IH]; simpl; [reflexivity | now rewrite IH]. Qed.

Lemma digits_val_nonneg (ds : list digit) : 0 <= digits_val ds.
Proof.
  induction ds as [| d ds IH]; [reflexivity |].
  rewrite digits_val_cons. pose proof (digit_val_range d).
  assert (0 <= 10 ^ Z.of_nat (length ds)) by (apply Z.pow_nonneg; lia).
  nia.
Qed.

Lemma thousandths_nonneg (x : number) : 0 <= thousandths x.
Proof.
  unfold thousandths.
  pose proof (digits_val_nonneg (significand x)) as Hm.
  set (m := digits_val (significand x)) in *.
  set (e := point x - Z.of_nat (length (significand x))).
  destruct (Z.leb_spec (-3) e) as [He | He].
  - assert (0 <= 10 ^ (e + 3)) by (apply Z.pow_nonneg; lia). nia.
  - assert (0 < 10 ^ (- e - 3)) by (apply Z.pow_pos_nonneg; lia).
    assert (0 <= 10 ^ (- e - 4)) by (apply Z.pow_nonneg; lia).
    apply Z.div_pos; lia.
Qed.

Lemma thousandths_rounds (x : number) : is_thousandths x (thousandths x).
Proof.
  unfold is_thousandths, thousandths, to_dec.
  pose proof (digits_val_nonneg (significand x)) as Hm.
  set (m := digits_val (significand x)) in *.
  set (e := point x - Z.of_nat (length (significand x))).
  assert (Habs : Z.abs (if negative x then - m else m) = m)
    by (destruct (negative x); lia).
  rewrite Habs.
  destruct (Z.leb_spec (-3) e) as [He | He]; [reflexivity |].
  set (h := 10 ^ (- e - 4)).
  assert (Hh : 0 < h) by (apply Z.pow_pos_nonneg; lia).
  assert (HK : 10 ^ (- e - 3) = 10 * h).
  { unfold h. replace (- e - 3) with (Z.succ (- e - 4)) by lia.
    apply Z.pow_succ_r. lia. }
  rewrite HK.
  pose proof (Z.div_mod (m + 5 * h) (10 * h) ltac:(lia)) as Hdiv.
  pose proof (Z.mod_pos_bound (m + 5 * h) (10 * h) ltac:(lia)) as Hmod.
  nia.
Qed.

Lemma integer_digits (n : Z) :
  0 <= n ->
  let ids := match digits_of n with [] => [d0] | ds => ds end in
  digits_val ids = n /\
  ids <> [] /\
  (ids = [d0] \/ starts_nonzero ids = true).
Proof.
  intros Hn. cbv zeta.
  pose proof (digits_of_val n Hn) as Hval.
  destruct (Z.eq_dec n 0) as [-> | Hnz].
  - change (digits_of 0) with (@nil digit).
    repeat split; [discriminate | now left].
  - destruct (digits_of_head n ltac:(lia)) as (d & r & Hd & Hdnz).
    rewrite Hd in *.
    repeat split; [exact Hval | discriminate |].
    right. destruct d; [contradiction | reflexivity ..].
Qed.

Lemma fraction_digits_value (t : Z) :
  0 <= t ->
  digits_val (fraction_digits t)
  * 10 ^ (3 - Z.of_nat (length (fraction_digits t))) = t mod 1000 /\
  (length (fraction_digits t) = 3%nat -> t mod 10 <> 0).
Proof.
  intros Ht. unfold fraction_digits.
  pose proof (Z.mod_pos_bound t 1000 ltac:(lia)) as Hf.
  set (f := t mod 1000) in *.
  assert (Hmod : f mod 10 = t mod 10).
  { unfold f. symmetry.
    rewrite (Z.div_mod t 1000) at 1 by lia.
    replace (1000 * (t / 1000) + t mod 1000)
      with (t mod 1000 + (100 * (t / 1000)) * 10) by lia.
    apply Z.mod_add. lia. }
  assert (H1 : 0 <= f / 100 < 10) by (split; [apply Z.div_pos | apply Z.div_lt_upper_bound]; lia).
  assert (H2 : 0 <= f / 10 mod 10 < 10) by (apply Z.mod_pos_bound; lia).
  assert (H3 : 0 <= f mod 10 < 10) by (apply Z.mod_pos_bound; lia).
  assert (Hsplit : f = 100 * (f / 100) + 10 * (f / 10 mod 10) + f mod 10).
  { pose proof (Z.div_mod f 10 ltac:(lia)).
    pose proof (Z.div_mod (f / 10) 10 ltac:(lia)).
    assert (f / 10 / 10 = f / 100) by (rewrite Z.div_div by lia; reflexivity).
    lia. }
  destruct (Z.eqb_spec (f mod 10) 0) as [Hz | Hnz].
  - cbn [app length]. unfold digits_val. cbn [fold_left].
    rewrite !digit_val_of_Z by assumption.
    split; [| discriminate].
    change (10 ^ (3 - Z.of_nat 2)) with 10. lia.
  - cbn [app length]. unfold digits_val. cbn [fold_left].
    rewrite !digit_val_of_Z by assumption.
    split; [| intros _; lia].
    change (10 ^ (3 - Z.of_nat 3)) with 1. lia.
Qed.

(** C4 as stated fails: one eighth is rendered with three fraction
    digits, not with exactly two. *)
Lemma formatMoney_three_fraction_digits :
  formatMoney (Some (JNum (mkNumber false [d1; d2; d5] 0))) = "¥0.125" /\
  ~ (exists f,
        after_point (formatMoney (Some (JNum (mkNumber false [d1; d2; d5] 0))))
        = Some f /\ String.length f = 2%nat).
Proof.
  split; [reflexivity |].
  intros (f & Hf & Hlen). vm_compute in Hf.
  injection Hf as <-. discriminate Hlen.
Qed.

(** C4, amended. [formatMoney] returns "-" for everything that is not a
    number.  A finite number is rendered as the currency glyph, a minus
    sign when negative, then the number rounded to thousandths (a tie
    away from zero): its integer digits in comma-separated groups of
    three, a point, and two fraction digits, or three when the third is
    not zero.  The infinities are rendered as the glyph and "∞" or
    "-∞", and NaN as the glyph and "NaN".  So formatMoney(1234.5) is
    "¥1,234.50" and formatMoney("x") is "-". *)
Theorem formatMoney_spec (value : unknown) :
  (typeof value <> "number" -> formatMoney value = "-") /\
  (forall x : number, value = Some (JNum x) ->
   exists t ids fds,
     is_thousandths x t /\
     digits_val ids = t / 1000 /\
     ids <> [] /\
     (ids = [d0] \/ starts_nonzero ids = true) /\
     (2 <= length fds <= 3)%nat /\
     digits_val fds * 10 ^ (3 - Z.of_nat (length fds)) = t mod 1000 /\
     (length fds = 3%nat -> t mod 10 <> 0) /\
     formatMoney value =
       "¥" ++ (if negative x then "-" else "") ++ group ids ++ "." ++
       str_of_digits fds /\
     after_point (formatMoney value) = Some (str_of_digits fds)) /\
  (forall minus, value = Some (JNum (Infinite minus)) ->
   formatMoney value = "¥" ++ (if minus then "-∞" else "∞")) /\
  (value = Some (JNum NaN) -> formatMoney value = "¥NaN") /\
  formatMoney (Some (JNum (mkNumber false [d1; d2; d3; d4; d5] 4)))
    = "¥1,234.50" /\
  formatMoney (Some (JStr "x")) = "-".
Proof.
  split; [| split; [| split; [| split; [| split]]]]; try reflexivity.
  - intros Hty. destruct value as [[| b | x | s | xs | fs] |];
      try reflexivity. now contradiction Hty.
  - intros x ->.
    unfold formatMoney, Number_toLocaleString_zhCN_min2,
      toLocaleString_zhCN_min2.
    pose proof (thousandths_nonneg x) as Ht.
    set (t := thousandths x) in *.
    destruct (integer_digits (t / 1000) ltac:(apply Z.div_pos; lia))
      as (Hval & Hne & Hcanon).
    destruct (fraction_digits_value t Ht) as (Hfrac & Hthird).
    exists t, (match digits_of (t / 1000) with [] => [d0] | ds => ds end),
      (fraction_digits t).
    split; [apply thousandths_rounds |].
    split; [exact Hval |].
    split; [exact Hne |].
    split; [exact Hcanon |].
    split; [apply length_fraction_digits |].
    split; [exact Hfrac |].
    split; [exact Hthird |].
    split; [reflexivity |].
    rewrite <- (append_assoc "¥"), <- (append_assoc ("¥" ++ _) (group _)).
    apply after_point_app.
    apply after_point_none_app; [| apply after_point_group].
    destruct (negative x); reflexivity.
  - intros minus ->. reflexivity.
  - intros ->. reflexivity.
Qed.

Lemma formatMoney_spec_witness :
  formatMoney (Some (JBool true)) = "-" /\
  (exists t ids fds,
     is_thousandths (mkNumber true [d9; d9; d9; d9; d9; d9; d5] 3) t /\
     digits_val ids = t / 1000 /\
     ids <> [] /\
     (ids = [d0] \/ starts_nonzero ids = true) /\
     (2 <= length fds <= 3)%nat /\
     digits_val fds * 10 ^ (3 - Z.of_nat (length fds)) = t mod 1000 /\
     (length fds = 3%nat -> t mod 10 <> 0) /\
     formatMoney (Some (JNum (mkNumber true [d9; d9; d9; d9; d9; d9; d5] 3))) =
       "¥" ++ "-" ++ group ids ++ "." ++ str_of_digits fds /\
     after_point
       (formatMoney
          (Some (JNum (mkNumber true [d9; d9; d9; d9; d9; d9; d5] 3))))
     = Some (str_of_digits fds)) /\
  formatMoney (Some (JNum (Infinite false))) = "¥∞".
Proof.
  split; [| split].
  - apply (proj1 (formatMoney_spec (Some (JBool true)))). discriminate.
  - exact (proj1 (proj2 (formatMoney_spec
             (Some (JNum (mkNumber true [d9; d9; d9; d9; d9; d9; d5] 3)))))
             (mkNumber true [d9; d9; d9; d9; d9; d9; d5] 3) eq_refl).
  - exact (proj1 (proj2 (proj2 (formatMoney_spec
             (Some (JNum (Infinite false)))))) false eq_refl).
Defined.

(** ** Conversion to strings *)

(** Induction on values, with the hypotheses for the elements of an
    array and for the members of an object. *)
Lemma value_nested_ind (P : value -> Prop) :
  P JNull ->
  (forall b, P (JBool b)) ->
  (forall x, P (JNum x)) ->
  (forall s, P (JStr s)) ->
  (forall xs, Forall P xs -> P (JArr xs)) ->
  (forall fields, Forall (fun kv => P (snd kv)) fields -> P (JObj fields)) ->
  forall v, P v.
Proof.
  intros Hnull Hbool Hnum Hstr Harr Hobj.
  fix IH 1. intros [| b | x | s | xs | fields].
  - exact Hnull.
  - apply Hbool.
  - apply Hnum.
  - apply Hstr.
  - apply Harr. revert xs. fix IHxs 1. intros [| x xs].
    + constructor.
    + constructor; [apply IH | apply IHxs].
  - apply Hobj. revert fields. fix IHfs 1. intros [| [k x] fields].
    + constructor.
    + constructor; [apply IH | apply IHfs].
Qed.

Lemma list_max_leb (l : list nat) (k : nat) :
  (list_max l <=? k)%nat = forallb (fun n => (n <=? k)%nat) l.
Proof.
  induction l as [| a l IH]; [reflexivity |].
  cbn [list_max forallb fold_right]. fold (list_max l). rewrite <- IH.
  destruct (Nat.leb_spec a k), (Nat.leb_spec (list_max l) k),
    (Nat.leb_spec (Nat.max a (list_max l)) k); try reflexivity; lia.
Qed.

Lemma converts_array (k : nat) (xs : list value) :
  converts (S k) (JArr xs) = forallb (converts k) xs.
Proof.
  unfold converts. cbn [array_depth joinable].
  change (S (list_max (map array_depth xs)) <=? S k)%nat
    with (list_max (map array_depth xs) <=? k)%nat.
  rewrite list_max_leb.
  induction xs as [| x xs IH]; [reflexivity |].
  cbn [map forallb]. rewrite <- IH.
  destruct (array_depth x <=? k)%nat, (joinable x),
    (forallb (fun n => (n <=? k)%nat) (map array_depth xs)),
    (forallb joinable xs); reflexivity.
Qed.

Lemma ToString_array (k : nat) (xs : list value) :
  ToString (S k) (JArr xs) = Array_join "," k xs.
Proof.
  unfold Array_join. cbn [ToString]. f_equal.
  induction xs as [| x xs IH]; [reflexivity |].
  cbn [join_parts]. rewrite <- IH. reflexivity.
Qed.

Lemma join_parts_result (k : nat) (xs : list value) :
  Forall (fun x => forall stack, returns_when (converts stack x)
                                   (ToString stack x)) xs ->
  returns_when (forallb (converts k) xs) (join_parts k xs).
Proof.
  induction 1 as [| x xs Hx Hxs IH]; [now exists [] |].
  cbn [forallb join_parts].
  assert (Helem : returns_when (converts k x) (element_text k x)).
  { destruct x; try apply Hx.
    unfold returns_when, converts. cbn. eexists; reflexivity. }
  unfold returns_when in *.
  destruct (converts k x).
  - destruct Helem as (s & ->). cbn [andb bind].
    destruct (forallb (converts k) xs).
    + destruct IH as (ss & ->). now exists (s :: ss).
    + destruct IH as (e & ->). now exists e.
  - destruct Helem as (e & ->). now exists e.
Qed.

Lemma ToString_result (v : value) :
  forall stack, returns_when (converts stack v) (ToString stack v).
Proof.
  induction v as [| b | x | s | xs IH | fields IH] using value_nested_ind;
    intros stack.
  - unfold returns_when, converts. cbn. eexists; reflexivity.
  - unfold returns_when, converts. cbn. destruct b; eexists; reflexivity.
  - unfold returns_when, converts. cbn. eexists; reflexivity.
  - unfold returns_when, converts. cbn. eexists; reflexivity.
  - destruct stack as [| k]; [now exists RangeError |].
    rewrite converts_array, ToString_array.
    pose proof (join_parts_result k xs IH) as H.
    unfold returns_when, Array_join in *.
    destruct (forallb (converts k) xs).
    + destruct H as (parts & ->). eexists; reflexivity.
    + destruct H as (e & ->). now exists e.
  - unfold returns_when, converts.
    cbn [array_depth joinable ToString Nat.leb andb].
    destruct (hasOwn "toString" fields); eexists; reflexivity.
Qed.

Lemma Array_join_result (sep : string) (k : nat) (xs : list value) :
  returns_when (forallb (converts k) xs) (Array_join sep k xs).
Proof.
  pose proof (join_parts_result k xs) as H.
  unfold returns_when, Array_join in *.
  destruct (forallb (converts k) xs).
  - destruct H as (parts & ->);
      [apply Forall_forall; intros x _; apply ToString_result |].
    eexists; reflexivity.
  - destruct H as (e & ->);
      [apply Forall_forall; intros x _; apply ToString_result |].
    now exists e.
Qed.

Lemma getParseMessage_present (fields : list (string * value)) :
  getParseMessage (PRecord fields) = Ok (message_of fields).
Proof.
  unfold getParseMessage, message_of. cbn [truthy negb getProp bind].
  destruct (lookup "parse_message" fields) as [[| b | x | s | xs | fs] |];
    reflexivity.
Qed.

Lemma getRawText_present (fields : list (string * value)) :
  getRawText (PRecord fields) = Ok (raw_text_of fields).
Proof.
  unfold getRawText, raw_text_of. cbn [truthy negb getProp bind].
  destruct (lookup "raw_text" fields) as [[| b | x | s | xs | fs] |];
    reflexivity.
Qed.


(** ** The dialog *)

Section PlatformProperties.

Variable Date_parse : string -> option Z.
Variable toLocaleDateString_zhCN : Z -> string.
Variable Number_add : Number -> Number -> Number.
Variable join_depth : nat.
Variable stringify_depth : nat.

Local Abbreviation formatDate :=
  (formatDate Date_parse toLocaleDateString_zhCN).
Local Abbreviation formatText := (formatText join_depth stringify_depth).
Local Abbreviation getJsonText := (getJsonText stringify_depth).
Local Abbreviation getSummaryRows :=
  (getSummaryRows Date_parse toLocaleDateString_zhCN Number_add join_depth
     stringify_depth).
Local Abbreviation ParsedDataDialog :=
  (ParsedDataDialog Date_parse toLocaleDateString_zhCN Number_add join_depth
     stringify_depth).
Local Abbreviation shows_as_text :=
  (shows_as_text join_depth stringify_depth).
Local Abbreviation text_fields_show :=
  (text_fields_show join_depth stringify_depth).
Local Abbreviation stamp_text := (stamp_text Number_add).

(** C8. [formatDate] returns "-" unless its argument is a non-empty
    string; a string the host cannot read as a date is returned unchanged,
    one it can read is returned as the host's zh-CN calendar date.  So
    formatDate(null) is "-", and formatDate("not-a-date") is "not-a-date"
    on a host for which that string is no date. *)
Theorem formatDate_spec (value : unknown) :
  (typeof value <> "string" -> formatDate value = "-") /\
  (value = Some (JStr "") -> formatDate value = "-") /\
  (forall s, value = Some (JStr s) -> s <> "" ->
   (Date_parse s = None -> formatDate value = s) /\
   (forall date, Date_parse s = Some date ->
    formatDate value = toLocaleDateString_zhCN date)) /\
  (Date_parse "not-a-date" = None ->
   formatDate (Some (JStr "not-a-date")) = "not-a-date") /\
  formatDate (Some JNull) = "-".
Proof.
  repeat split.
  - intros Hty. destruct value as [[| b | x | s | xs | fs] |];
      try reflexivity. now contradiction Hty.
  - intros ->. reflexivity.
  - intros Hp. subst value. unfold formatDate.
    apply String.eqb_neq in H0. now rewrite H0, Hp.
  - intros date Hp. subst value. unfold formatDate.
    apply String.eqb_neq in H0. now rewrite H0, Hp.
  - intros Hp. unfold formatDate. simpl. now rewrite Hp.
Qed.


Lemma formatText_result (value : unknown) :
  returns_when (shows_as_text value) (formatText value).
Proof.
  destruct value as [[| b | x | s | xs | fs] |];
    try (eexists; reflexivity).
  - destruct b; eexists; reflexivity.
  - apply Array_join_result.
  - unfold shows_as_text, formatText, JSON_stringify.
    destruct (nesting (JObj fs) <=? stringify_depth)%nat;
      eexists; reflexivity.
Qed.

Lemma formatText_missing : formatText None = Ok "-".
Proof. reflexivity. Qed.

(** The rows of a contract, when there are rows. *)
Lemma contract_rows (fields : list (string * value))
    (rows : list SummaryRow) :
  getSummaryRows contract (PRecord fields) = Ok rows ->
  exists a b c,
    formatText (lookup "party_a" fields) = Ok a /\
    formatText (lookup "party_b" fields) = Ok b /\
    formatText (lookup "contract_number" fields) = Ok c /\
    rows =
      [ mkRow "甲方" a; mkRow "乙方" b; mkRow "合同编号" c;
        mkRow "签约日期" (formatDate (lookup "sign_date" fields));
        mkRow "生效日期" (formatDate (lookup "effective_date" fields));
        mkRow "到期日期" (formatDate (lookup "expiry_date" fields));
        mkRow "合同金额" (formatMoney (lookup "amount" fields));
        mkRow "盖章页" (stamp_text (lookup "stamp_pages" fields)) ].
Proof.
  unfold getSummaryRows. cbn [truthy negb getProp bind].
  destruct (formatText (lookup "party_a" fields)) as [e | a];
    [discriminate |].
  destruct (formatText (lookup "party_b" fields)) as [e | b];
    [discriminate |].
  destruct (formatText (lookup "contract_number" fields)) as [e | c];
    [discriminate |].
  cbn [bind]. intros [= <-]. exists a, b, c.
  do 3 (split; [reflexivity |]).
  unfold stamp_text.
  destruct (lookup "stamp_pages" fields) as [[| pb | px | ps | pxs | pfs] |];
    reflexivity.
Qed.

(** The rows of an invoice, when there are rows. *)
Lemma invoice_rows (fields : list (string * value))
    (rows : list SummaryRow) :
  getSummaryRows invoice (PRecord fields) = Ok rows ->
  exists a b c d,
    formatText (lookup "invoice_number" fields) = Ok a /\
    formatText (lookup "invoice_code" fields) = Ok b /\
    formatText (lookup "seller" fields) = Ok c /\
    formatText (lookup "buyer" fields) = Ok d /\
    rows =
      [ mkRow "发票号码" a; mkRow "发票代码" b;
        mkRow "开票日期" (formatDate (lookup "invoice_date" fields));
        mkRow "销售方" c; mkRow "购买方" d;
        mkRow "发票金额" (formatMoney (lookup "amount" fields));
        mkRow "税额" (formatMoney (lookup "tax_amount" fields)) ].
Proof.
  unfold getSummaryRows. cbn [truthy negb getProp bind].
  destruct (formatText (lookup "invoice_number" fields)) as [e | a];
    [discriminate |].
  destruct (formatText (lookup "invoice_code" fields)) as [e | b];
    [discriminate |].
  destruct (formatText (lookup "seller" fields)) as [e | c];
    [discriminate |].
  destruct (formatText (lookup "buyer" fields)) as [e | d];
    [discriminate |].
  cbn [bind]. intros [= <-]. exists a, b, c, d.
  repeat split; reflexivity.
Qed.

(** There are rows exactly when every text field can be shown. *)
Lemma summary_rows_result (kind : ParsedKind)
    (fields : list (string * value)) :
  returns_when (text_fields_show (text_fields kind) fields)
    (getSummaryRows kind (PRecord fields)).
Proof.
  unfold text_fields_show, getSummaryRows.
  cbn [truthy negb getProp bind].
  destruct kind; cbn [text_fields forallb];
    repeat match goal with
           | |- context [formatText (lookup ?k fields)] =>
               let H := fresh "H" in
               pose proof (formatText_result (lookup k fields)) as H;
               unfold returns_when in H;
               destruct (shows_as_text (lookup k fields));
               [ destruct H as (? & ->); cbn [bind andb]
               | destruct H as (? & ->); cbn [bind andb returns_when];
                 eexists; reflexivity ]
           end;
    eexists; reflexivity.
Qed.

Lemma summary_rows_returned (kind : ParsedKind)
    (fields : list (string * value)) :
  text_fields_show (text_fields kind) fields = true ->
  exists rows, getSummaryRows kind (PRecord fields) = Ok rows.
Proof.
  intros Hshow. pose proof (summary_rows_result kind fields) as Hres.
  unfold returns_when in Hres. now rewrite Hshow in Hres.
Qed.

Lemma summary_rows_labels (kind : ParsedKind)
    (fields : list (string * value)) (rows : list SummaryRow) :
  getSummaryRows kind (PRecord fields) = Ok rows ->
  length rows = row_count kind /\
  map row_label rows = labels_of kind.
Proof.
  destruct kind; intros H.
  - apply contract_rows in H. destruct H as (a & b & c & _ & _ & _ & ->).
    split; reflexivity.
  - apply invoice_rows in H. destruct H as (a & b & c & d & _ & _ & _ & _ & ->).
    split; reflexivity.
Qed.


Lemma stamp_pages_of_indices (idx : list Z) :
  exact_on_indices Number_add ->
  Forall (fun i => 0 <= i < 2 ^ 53 - 1) idx ->
  map String_of_Number
    (map (fun x => Number_add x (of_Z 1))
       (numbers_of (map (fun i => JNum (of_Z i)) idx)))
  = map (fun i => str_of_digits (digits_of (i + 1))) idx.
Proof.
  intros Hadd Hidx. rewrite numbers_of_map_of_Z, !map_map.
  apply map_ext_in. intros i Hin.
  rewrite Forall_forall in Hidx. specialize (Hidx i Hin).
  rewrite (Hadd i Hidx). cbn [String_of_Number].
  apply Number_toString_of_Z.
  assert (2 ^ 53 < 10 ^ 21) by (vm_compute; reflexivity). lia.
Qed.




(** The parts of a view the dialog computes. *)
Lemma dialog_parts (kind : ParsedKind) (parsedData : ParsedData)
    (view : ParseResultView) :
  ParsedDataDialog kind parsedData = Ok view ->
  Dialog.getParseStatusBadge parsedData = Ok (badge view) /\
  getSummaryRows kind parsedData = Ok (summaryRows view) /\
  getParseMessage parsedData = Ok (parseMessage view) /\
  getRawText parsedData = Ok (rawText view) /\
  getJsonText parsedData = Ok (jsonText view).
Proof.
  unfold ParsedDataDialog.
  destruct (Dialog.getParseStatusBadge parsedData) as [e | b];
    [discriminate |].
  destruct (getSummaryRows kind parsedData) as [e | rows]; [discriminate |].
  destruct (getParseMessage parsedData) as [e | m]; [discriminate |].
  destruct (getRawText parsedData) as [e | t]; [discriminate |].
  destruct (getJsonText parsedData) as [e | j]; [discriminate |].
  cbn [bind]. intros [= <-]. repeat split.
Qed.

End PlatformProperties.

(** ** Reading back a printed number *)

Lemma span_digits_str (ds : list digit) (rest : string) :
  no_digit_head rest ->
  span_digits (str_of_digits ds ++ rest) = (ds, rest).
Proof.
  intros Hrest. induction ds as [| d ds IH].
  - destruct rest as [| c rest]; [reflexivity |].
    simpl in *. now rewrite Hrest.
  - cbn [str_of_digits append span_digits].
    now rewrite digit_of_char_char, IH.
Qed.

Lemma span_digits_cons (d : digit) (s : string) :
  span_digits (String (digit_char d) s)
  = (let (ds, r) := span_digits s in (d :: ds, r)).
Proof. cbn [span_digits]. now rewrite digit_of_char_char. Qed.

Lemma span_digits_stop (c : ascii) (s : string) :
  digit_of_char c = None -> span_digits (String c s) = ([], String c s).
Proof. intros H. cbn [span_digits]. now rewrite H. Qed.

Lemma delimited_cases (rest : string) :
  delimited rest = true ->
  rest = "" \/ exists r, rest = String "," r \/ rest = String "010" r.
Proof.
  destruct rest as [| c r]; [now left |]. intros H. right. exists r.
  unfold delimited in H. apply orb_true_iff in H.
  destruct H as [H | H]; apply Ascii.eqb_eq in H; subst; auto.
Qed.

Lemma delimited_no_digit (rest : string) :
  delimited rest = true -> no_digit_head rest.
Proof.
  intros H. destruct (delimited_cases rest H) as [-> | (r & [-> | ->])];
    reflexivity.
Qed.

Lemma parse_fraction_delimited (rest : string) :
  delimited rest = true -> parse_fraction rest = Some ([], rest).
Proof.
  intros H. destruct (delimited_cases rest H) as [-> | (r & [-> | ->])];
    reflexivity.
Qed.

Lemma parse_exponent_delimited (rest : string) :
  delimited rest = true -> parse_exponent rest = Some (0, rest).
Proof.
  intros H. destruct (delimited_cases rest H) as [-> | (r & [-> | ->])];
    reflexivity.
Qed.

Lemma str_of_digits_app (a b : list digit) :
  str_of_digits (a ++ b) = str_of_digits a ++ str_of_digits b.
Proof. induction a as [| d a IH]; simpl; [reflexivity | now rewrite IH]. Qed.

Lemma valid_int_nonzero (d : digit) (ds : list digit) :
  starts_nonzero (d :: ds) = true -> valid_int (d :: ds) = true.
Proof. destruct d; simpl; congruence. Qed.

Lemma make_number_canonical (neg : bool) (a b : list digit) (ex : Z) :
  a <> [] \/ b <> [] ->
  starts_nonzero (a ++ b) = true ->
  ends_nonzero (a ++ b) = true ->
  make_number neg a b ex = mkNumber neg (a ++ b) (Z.of_nat (length a) + ex).
Proof.
  intros Hne Hs He. unfold make_number.
  rewrite (strip_leading_id _ Hs), (strip_trailing_id _ He).
  destruct (a ++ b)%list as [| d r] eqn:Hab.
  - apply app_eq_nil in Hab. destruct Hab, Hne; congruence.
  - f_equal. lia.
Qed.

Lemma starts_nonzero_cons (d : digit) (ds : list digit) :
  starts_nonzero (d :: ds) = true -> d <> d0.
Proof. destruct d; simpl; congruence. Qed.

Lemma ends_nonzero_app_zeros (ds : list digit) (j : nat) :
  ends_nonzero ds = true -> strip_trailing (ds ++ zeros j) = ds.
Proof.
  intros H. rewrite strip_trailing_app_zeros. now apply strip_trailing_id.
Qed.

Lemma nonempty_digits_cons (d : digit) (ds : list digit) (rest : string) :
  nonempty_digits (d :: ds, rest) = Some (d :: ds, rest).
Proof. reflexivity. Qed.

Lemma nonempty_digits_ne (ds : list digit) (rest : string) :
  ds <> [] -> nonempty_digits (ds, rest) = Some (ds, rest).
Proof. destruct ds; [congruence | reflexivity]. Qed.

(** The exponent form [d.ddde+x]. *)
Lemma parse_unsigned_exponent_form (neg : bool) (d : digit) (ds : list digit)
    (e : Z) (rest : string) :
  starts_nonzero (d :: ds) = true ->
  ends_nonzero (d :: ds) = true ->
  delimited rest = true ->
  e <> 0 ->
  parse_unsigned neg
    ((str_of_digits [d] ++
      match ds with [] => "" | _ => "." ++ str_of_digits ds end ++
      "e" ++ (if e <? 0 then "-" else "+") ++
      str_of_digits (digits_of (Z.abs e))) ++ rest)
  = Some (mkNumber neg (d :: ds) (1 + e), rest).
Proof.
  intros Hs He Hrest Hnz.
  pose proof (delimited_no_digit rest Hrest) as Hnd.
  assert (Hexp :
    parse_exponent
      (String "e" ((if e <? 0 then "-" else "+") ++
                   str_of_digits (digits_of (Z.abs e)) ++ rest))
    = Some (e, rest)).
  { destruct (digits_of_head (Z.abs e) ltac:(lia)) as (c & cs & Hd & _).
    pose proof (digits_of_val (Z.abs e) ltac:(lia)) as Hv.
    destruct (Z.ltb_spec e 0) as [Hneg | Hpos];
      cbn [append parse_exponent Ascii.eqb Bool.eqb orb andb];
      unfold parse_exponent_digits;
      rewrite span_digits_str by assumption;
      rewrite Hd, nonempty_digits_cons, <- Hd, Hv;
      f_equal; f_equal; lia. }
  unfold parse_unsigned.
  destruct ds as [| c cs].
  - cbn [str_of_digits append].
    rewrite span_digits_cons, span_digits_stop by reflexivity.
    rewrite (valid_int_nonzero d [] Hs).
    cbn [parse_fraction Ascii.eqb Bool.eqb andb].
    rewrite append_assoc, Hexp.
    rewrite make_number_canonical; auto. left; discriminate.
  - cbn [str_of_digits append].
    rewrite span_digits_cons, span_digits_stop by reflexivity.
    rewrite (valid_int_nonzero d [] ltac:(destruct d; simpl in *; congruence)).
    cbn [parse_fraction Ascii.eqb Bool.eqb andb].
    rewrite append_assoc. cbn [append].
    change (String (digit_char c) (str_of_digits cs ++ ?x))
      with (str_of_digits (c :: cs) ++ x).
    rewrite span_digits_str by reflexivity.
    rewrite nonempty_digits_cons, append_assoc, Hexp.
    rewrite make_number_canonical; auto. left; discriminate.
Qed.

(** The text of a positive number and what it reads back to. *)
Lemma parse_unsigned_print (neg : bool) (d : digit) (ds : list digit) (pt : Z)
    (rest : string) :
  starts_nonzero (d :: ds) = true ->
  ends_nonzero (d :: ds) = true ->
  delimited rest = true ->
  parse_unsigned neg (Number_toString (mkNumber false (d :: ds) pt) ++ rest)
  = Some (mkNumber neg (d :: ds) pt, rest).
Proof.
  intros Hs He Hrest.
  pose proof (delimited_no_digit rest Hrest) as Hnd.
  pose proof (parse_unsigned_exponent_form neg d ds (pt - 1) rest Hs He Hrest)
    as Hexp.
  replace (1 + (pt - 1)) with pt in Hexp by lia.
  unfold Number_toString. cbn [significand negative point].
  set (sig := d :: ds) in *.
  assert (Hlen : (1 <= length sig)%nat) by (subst sig; simpl; lia).
  cbn [append].
  destruct (Z.leb_spec (Z.of_nat (length sig)) pt) as [Hk | Hk];
    destruct (Z.leb_spec pt 21) as [H21 | H21];
    destruct (Z.ltb_spec 0 pt) as [H0 | H0];
    destruct (Z.ltb_spec (-6) pt) as [H6 | H6];
    destruct (Z.leb_spec pt 0) as [Hle | Hle];
    try lia; cbn [andb];
    try (apply Hexp; lia).
  - (* digits followed by zeros *)
    unfold parse_unsigned.
    rewrite span_digits_str by assumption.
    assert (valid_int (sig ++ zeros (Z.to_nat (pt - Z.of_nat (length sig))))
            = true) as ->.
    { subst sig. cbn [app]. now apply valid_int_nonzero. }
    rewrite parse_fraction_delimited, parse_exponent_delimited by assumption.
    f_equal. f_equal. unfold make_number. rewrite app_nil_r.
    rewrite strip_leading_id by (subst sig; exact Hs).
    rewrite ends_nonzero_app_zeros by assumption.
    subst sig. cbn iota. f_equal.
    rewrite length_app, length_zeros. cbn [length] in *. lia.
  - (* a point inside the digits *)
    unfold parse_unsigned. rewrite append_assoc. cbn [append].
    rewrite span_digits_str by reflexivity.
    assert (valid_int (firstn (Z.to_nat pt) sig) = true) as ->.
    { destruct (Z.to_nat pt) eqn:Hn; [lia |].
      subst sig. cbn [firstn]. destruct d; simpl in *; congruence. }
    cbn [parse_fraction Ascii.eqb Bool.eqb andb].
    rewrite span_digits_str by assumption.
    rewrite nonempty_digits_ne.
    2:{ intros Hnil. apply (f_equal (@length digit)) in Hnil.
        rewrite length_skipn in Hnil.
        change (length (@nil digit)) with 0%nat in Hnil. lia. }
    rewrite parse_exponent_delimited by assumption.
    rewrite make_number_canonical; rewrite ?firstn_skipn; auto.
    + f_equal. f_equal. f_equal. rewrite length_firstn. lia.
    + right. intros Hnil. apply (f_equal (@length digit)) in Hnil.
      rewrite length_skipn in Hnil.
        change (length (@nil digit)) with 0%nat in Hnil. lia.
  - (* zeros between the point and the digits *)
    unfold parse_unsigned.
    cbn [append span_digits digit_of_char].
    cbn [valid_int parse_fraction Ascii.eqb Bool.eqb andb].
    rewrite span_digits_str by assumption.
    rewrite nonempty_digits_ne.
    2:{ intros Hnil. apply app_eq_nil in Hnil. destruct Hnil. subst sig.
        discriminate. }
    rewrite parse_exponent_delimited by assumption.
    f_equal. f_equal. unfold make_number.
    change ([d0] ++ zeros (Z.to_nat (- pt)) ++ sig)%list
      with (zeros (S (Z.to_nat (- pt))) ++ sig)%list.
    rewrite strip_leading_zeros_app.
    rewrite strip_leading_id by (subst sig; exact Hs).
    rewrite strip_trailing_id by assumption.
    subst sig. cbn iota. f_equal.
    rewrite length_app, length_zeros. cbn [length] in *. lia.
Qed.

Lemma Number_toString_head (d : digit) (ds : list digit) (pt : Z) :
  exists c r,
    Number_toString (mkNumber false (d :: ds) pt) = String (digit_char c) r.
Proof.
  unfold Number_toString. cbn [significand negative point append].
  destruct (Z.leb_spec (Z.of_nat (length (d :: ds))) pt) as [Hk | Hk];
    destruct (Z.leb_spec pt 21) as [H21 | H21];
    destruct (Z.ltb_spec 0 pt) as [H0 | H0];
    destruct (Z.ltb_spec (-6) pt) as [H6 | H6];
    destruct (Z.leb_spec pt 0) as [Hle | Hle];
    try lia; cbn [andb];
    try (eexists _, _; reflexivity);
    try (exists d0; eexists; reflexivity).
  destruct (Z.to_nat pt) eqn:Hn; [lia |].
  eexists _, _; reflexivity.
Qed.

Lemma parse_number_digit_head (c : digit) (s : string) :
  parse_number (String (digit_char c) s)
  = parse_unsigned false (String (digit_char c) s).
Proof. destruct c; reflexivity. Qed.

Lemma parse_number_print (x : number) (rest : string) :
  wf_number x = true ->
  delimited rest = true ->
  parse_number (Number_toString x ++ rest) = Some (normalize_number x, rest).
Proof.
  intros Hwf Hrest. destruct x as [neg sig pt].
  unfold wf_number in Hwf. cbn [significand point] in Hwf.
  apply andb_true_iff in Hwf. destruct Hwf as [Hwf Hpt].
  apply andb_true_iff in Hwf. destruct Hwf as [Hs He].
  destruct sig as [| d ds].
  - unfold Number_toString, normalize_number. cbn [significand append].
    unfold parse_number. cbn [Ascii.eqb Bool.eqb andb].
    unfold parse_unsigned. cbn [span_digits digit_of_char].
    pose proof (delimited_no_digit rest Hrest) as Hnd.
    change rest with (str_of_digits [] ++ rest) at 1.
    rewrite span_digits_str by assumption.
    cbn [valid_int].
    now rewrite parse_fraction_delimited, parse_exponent_delimited.
  - unfold normalize_number. cbn [significand].
    pose proof (parse_unsigned_print neg d ds pt rest Hs He Hrest) as Hp.
    destruct neg.
    + change (Number_toString (mkNumber true (d :: ds) pt))
        with (String "-" (Number_toString (mkNumber false (d :: ds) pt))).
      cbn [append parse_number Ascii.eqb Bool.eqb andb]. exact Hp.
    + destruct (Number_toString_head d ds pt) as (c & r & Hhead).
      rewrite Hhead in *. cbn [append] in *.
      rewrite parse_number_digit_head. exact Hp.
Qed.

(** ** Reading back a printed string *)

Lemma parse_quote_char (c : ascii) (t : string) :
  parse_string_body (quote_char c ++ t)
  = prepend (String c "") (parse_string_body t).
Proof. destruct c as [[] [] [] [] [] [] [] []]; reflexivity. Qed.

Lemma parse_quote_body (s rest : string) :
  parse_string_body (quote_body s ++ String dquote rest) = Some (s, rest).
Proof.
  induction s as [| c s IH]; [reflexivity |].
  cbn [quote_body]. rewrite append_assoc, parse_quote_char, IH. reflexivity.
Qed.

Lemma parse_quoted (s rest : string) :
  exists body,
    QuoteJSONString s ++ rest = String dquote body /\
    parse_string_body body = Some (s, rest).
Proof.
  exists (quote_body s ++ String dquote rest). split.
  - unfold QuoteJSONString. cbn [append]. now rewrite append_assoc.
  - apply parse_quote_body.
Qed.

(** ** Reading back a printed value *)

Lemma skip_ws_app (a s : string) :
  all_ws a = true -> skip_ws (a ++ s) = skip_ws s.
Proof.
  unfold all_ws. induction a as [| c a IH]; [reflexivity |].
  cbn [skip_ws append]. destruct (is_ws c); [exact IH | discriminate].
Qed.

Lemma all_ws_app (a b : string) :
  all_ws a = true -> all_ws b = true -> all_ws (a ++ b) = true.
Proof.
  intros Ha Hb. unfold all_ws in *. now rewrite skip_ws_app.
Qed.

Lemma skip_ws_idem (s : string) : skip_ws (skip_ws s) = skip_ws s.
Proof.
  induction s as [| c s IH]; [reflexivity |].
  cbn [skip_ws]. destruct (is_ws c) eqn:Hc; [exact IH |].
  cbn [skip_ws]. now rewrite Hc.
Qed.

Lemma parse_value_skip (fuel : nat) (a s : string) :
  all_ws a = true -> parse_value fuel (a ++ s) = parse_value fuel s.
Proof.
  intros Ha. destruct fuel; [reflexivity |].
  cbn [parse_value]. now rewrite skip_ws_app.
Qed.

Lemma parse_elements_skip (fuel : nat) (a s : string) :
  all_ws a = true -> parse_elements fuel (a ++ s) = parse_elements fuel s.
Proof.
  intros Ha. destruct fuel; [reflexivity |].
  cbn [parse_elements]. now rewrite parse_value_skip.
Qed.

Lemma parse_members_skip (fuel : nat) (a s : string) :
  all_ws a = true -> parse_members fuel (a ++ s) = parse_members fuel s.
Proof.
  intros Ha. destruct fuel; [reflexivity |].
  cbn [parse_members]. now rewrite skip_ws_app.
Qed.

Lemma value_head_digit (d : digit) : value_head (digit_char d) = true.
Proof. destruct d; reflexivity. Qed.

Lemma Number_toString_value_head (x : number) :
  exists c r, Number_toString x = String c r /\ value_head c = true.
Proof.
  destruct x as [[] [| d ds] pt];
    try (eexists _, _; split; reflexivity).
  destruct (Number_toString_head d ds pt) as (c & r & H).
  rewrite H. exists (digit_char c), r. split; [reflexivity |].
  apply value_head_digit.
Qed.

Lemma print_head (v : value) (indent : string) :
  exists c r,
    SerializeJSONProperty "  " indent v = String c r /\ value_head c = true.
Proof.
  destruct v as [| [] | [f | m |] | s | [| x xs] | [| [k x] fs]];
    try (eexists _, _; split; reflexivity).
  apply Number_toString_value_head.
Qed.

Lemma value_head_facts (c : ascii) :
  value_head c = true ->
  is_ws c = false /\ Ascii.eqb c "]" = false /\ Ascii.eqb c "}" = false.
Proof.
  destruct c as [[] [] [] [] [] [] [] []]; intros H;
    try discriminate H; repeat split.
Qed.

Lemma skip_ws_value_head (c : ascii) (s : string) :
  value_head c = true -> skip_ws (String c s) = String c s.
Proof.
  intros H. apply value_head_facts in H. destruct H as (H & _).
  cbn [skip_ws]. now rewrite H.
Qed.

Lemma overflows_normalize (x : number) :
  overflows x = false -> overflows (normalize_number x) = false.
Proof.
  unfold normalize_number. destruct (significand x); [reflexivity | auto].
Qed.

Lemma parse_value_number (fuel : nat) (x : number) (rest : string) :
  parse_value (S fuel) (Number_toString x ++ rest)
  = with_tag (fun y => JNum (Number_of_decimal y))
      (parse_number (Number_toString x ++ rest)).
Proof.
  destruct x as [neg [| d ds] pt].
  - reflexivity.
  - destruct (Number_toString_head d ds pt) as (c & r & H).
    destruct neg.
    + change (Number_toString (mkNumber true (d :: ds) pt))
        with (String "-" (Number_toString (mkNumber false (d :: ds) pt))).
      reflexivity.
    + rewrite H. destruct c; reflexivity.
Qed.

Lemma skip_ws_newline (s : string) : skip_ws (newline ++ s) = skip_ws s.
Proof. reflexivity. Qed.

Lemma delimited_newline (s : string) : delimited (newline ++ s) = true.
Proof. reflexivity. Qed.

Lemma delimited_comma (s : string) : delimited (String "," s) = true.
Proof. reflexivity. Qed.

Lemma all_ws_newline (s : string) : all_ws s = true -> all_ws (newline ++ s) = true.
Proof. intros H. unfold all_ws. now rewrite skip_ws_newline. Qed.

Lemma all_ws_gap (s : string) : all_ws s = true -> all_ws (s ++ "  ") = true.
Proof. intros H. now apply all_ws_app. Qed.

Lemma list_sum_cons (a : nat) (l : list nat) :
  list_sum (a :: l) = (a + list_sum l)%nat.
Proof. reflexivity. Qed.

Lemma concat_cons2 (sep x y : string) (l : list string) :
  String.concat sep (x :: y :: l) = x ++ sep ++ String.concat sep (y :: l).
Proof. reflexivity. Qed.

Lemma parse_elements_print (xs : list value) :
  Forall reads_back xs ->
  xs <> [] ->
  forall ind stepback fuel rest,
    all_ws ind = true ->
    all_ws stepback = true ->
    forallb wf_value xs = true ->
    (list_sum (map (fun x => S (size x)) xs) <= fuel)%nat ->
    parse_elements fuel
      (String.concat ("," ++ newline ++ ind)
         (map (SerializeJSONProperty "  " ind) xs) ++
       newline ++ stepback ++ "]" ++ rest)
    = Some (map json_image xs, rest).
Proof.
  induction 1 as [| x xs Hx Hxs IH]; [congruence |].
  intros _ ind stepback fuel rest Hind Hstep Hwf Hfuel.
  cbn [forallb] in Hwf. apply andb_true_iff in Hwf. destruct Hwf as [Hwx Hwxs].
  cbn [map] in Hfuel. rewrite list_sum_cons in Hfuel.
  destruct fuel as [| fuel]; [lia |].
  cbn [parse_elements].
  destruct xs as [| y ys].
  - cbn [map String.concat].
    rewrite (Hx ind fuel _ Hwx Hind ltac:(simpl in Hfuel; lia)
               (delimited_newline _)).
    rewrite skip_ws_newline, skip_ws_app by assumption.
    reflexivity.
  - cbn [map]. rewrite concat_cons2, !append_assoc.
    change ("," ++ ?s) with (String "," s).
    rewrite (Hx ind fuel _ Hwx Hind ltac:(lia) (delimited_comma _)).
    change (skip_ws (String "," ?s)) with (String "," s).
    cbn [Ascii.eqb Bool.eqb andb].
    rewrite <- append_assoc.
    rewrite parse_elements_skip by (apply all_ws_newline, Hind).
    pose proof (IH ltac:(discriminate) ind stepback fuel rest Hind Hstep Hwxs
                  ltac:(lia)) as IH'.
    cbn [map] in IH'. rewrite IH'. reflexivity.
Qed.

Lemma parse_members_print (fields : list (string * value)) :
  Forall (fun kv => reads_back (snd kv)) fields ->
  fields <> [] ->
  forall ind stepback fuel rest,
    all_ws ind = true ->
    all_ws stepback = true ->
    forallb (fun kv => let '(_, x) := kv in wf_value x) fields = true ->
    (list_sum (map (fun kv => let '(_, x) := kv in S (size x)) fields)
     <= fuel)%nat ->
    parse_members fuel
      (String.concat ("," ++ newline ++ ind) (map (print_member ind) fields) ++
       newline ++ stepback ++ "}" ++ rest)
    = Some (map normalize_member fields, rest).
Proof.
  induction 1 as [| [k x] fs Hx Hfs IH]; [congruence |].
  intros _ ind stepback fuel rest Hind Hstep Hwf Hfuel.
  cbn [forallb] in Hwf. apply andb_true_iff in Hwf. destruct Hwf as [Hwx Hwfs].
  cbn [map] in Hfuel. rewrite list_sum_cons in Hfuel.
  cbn [snd] in Hx.
  destruct fuel as [| fuel]; [lia |].
  cbn [parse_members].
  assert (Hmember : forall tail, delimited tail = true ->
            exists body,
              print_member ind (k, x) ++ tail = String dquote body /\
              parse_string_body body
              = Some (k, String ":" (" " ++ SerializeJSONProperty "  " ind x
                                     ++ tail))).
  { intros tail _. unfold print_member.
    destruct (parse_quoted k
                (String ":" (" " ++ SerializeJSONProperty "  " ind x ++ tail)))
      as (body & Hbody & Hparse).
    exists body. split; [| exact Hparse].
    rewrite <- Hbody. rewrite !append_assoc. reflexivity. }
  destruct fs as [| [k' y] fs'].
  - cbn [map String.concat].
    destruct (Hmember (newline ++ stepback ++ "}" ++ rest)
                (delimited_newline _)) as (body & Hbody & Hkey).
    rewrite Hbody.
    change (skip_ws (String dquote body)) with (String dquote body).
    cbv iota beta. rewrite Ascii.eqb_refl, Hkey.
    change (skip_ws (String ":" ?s)) with (String ":" s).
    cbn [Ascii.eqb Bool.eqb andb].
    rewrite parse_value_skip by reflexivity.
    rewrite (Hx ind fuel _ Hwx Hind ltac:(lia) (delimited_newline _)).
    rewrite skip_ws_newline, skip_ws_app by assumption.
    reflexivity.
  - cbn [map]. rewrite concat_cons2, !append_assoc.
    change ("," ++ ?s) with (String "," s).
    match goal with
    | |- context [print_member ind (k, x) ++ String "," ?tail] =>
        destruct (Hmember (String "," tail) (delimited_comma _))
          as (body & Hbody & Hkey)
    end.
    rewrite Hbody.
    change (skip_ws (String dquote body)) with (String dquote body).
    cbv iota beta. rewrite Ascii.eqb_refl, Hkey.
    change (skip_ws (String ":" ?s)) with (String ":" s).
    cbn [Ascii.eqb Bool.eqb andb].
    rewrite parse_value_skip by reflexivity.
    rewrite (Hx ind fuel _ Hwx Hind ltac:(lia) (delimited_comma _)).
    change (skip_ws (String "," ?s)) with (String "," s).
    cbn [Ascii.eqb Bool.eqb andb].
    rewrite <- append_assoc.
    rewrite parse_members_skip by (apply all_ws_newline, Hind).
    pose proof (IH ltac:(discriminate) ind stepback fuel rest Hind Hstep Hwfs
                  ltac:(lia)) as IH'.
    cbn [map] in IH'. rewrite IH'. reflexivity.
Qed.

Lemma concat_head (sep : string) (c : ascii) (r : string) (l : list string)
    (tail : string) :
  exists r', String.concat sep (String c r :: l) ++ tail = String c r'.
Proof. destruct l; eexists; reflexivity. Qed.

Lemma parse_array_dispatch (fuel : nat) (ws body : string) (c : ascii)
    (r : string) :
  all_ws ws = true ->
  body = String c r ->
  value_head c = true ->
  parse_value (S fuel) (String "[" (ws ++ body))
  = with_tag JArr (parse_elements fuel body).
Proof.
  intros Hws -> Hc. cbn [parse_value].
  change (skip_ws (String "[" ?s)) with (String "[" s).
  cbn [Ascii.eqb Bool.eqb andb].
  rewrite skip_ws_app, skip_ws_value_head by assumption.
  apply value_head_facts in Hc. destruct Hc as (_ & -> & _). reflexivity.
Qed.

Lemma parse_object_dispatch (fuel : nat) (ws body : string) (c : ascii)
    (r : string) :
  all_ws ws = true ->
  body = String c r ->
  value_head c = true ->
  parse_value (S fuel) (String "{" (ws ++ body))
  = with_tag (fun ms => JObj (build_object ms)) (parse_members fuel body).
Proof.
  intros Hws -> Hc. cbn [parse_value].
  change (skip_ws (String "{" ?s)) with (String "{" s).
  cbn [Ascii.eqb Bool.eqb andb].
  rewrite skip_ws_app, skip_ws_value_head by assumption.
  apply value_head_facts in Hc. destruct Hc as (_ & _ & ->). reflexivity.
Qed.

Lemma unique_keys_NoDup (keys : list string) :
  unique_keys keys = true -> NoDup keys.
Proof.
  induction keys as [| k keys IH]; [constructor |].
  cbn [unique_keys]. intros H. apply andb_true_iff in H. destruct H as [Hk Hu].
  constructor; [| auto].
  intros Hin. apply negb_true_iff in Hk.
  assert (existsb (String.eqb k) keys = true) as Hex.
  { apply existsb_exists. exists k. split; [assumption | apply String.eqb_refl]. }
  congruence.
Qed.

Lemma own_keys_NoDup (keys : list string) :
  own_keys keys = true -> NoDup keys.
Proof.
  unfold own_keys. intros H. apply andb_true_iff in H.
  now apply unique_keys_NoDup.
Qed.

Lemma obj_set_fresh (key : string) (v : value) (fields : list (string * value)) :
  ~ In key (map fst fields) ->
  forallb (fun k => negb (comes_before key k)) (map fst fields) = true ->
  obj_set key v fields = (fields ++ [(key, v)])%list.
Proof.
  induction fields as [| [k x] fields IH]; [reflexivity |].
  cbn [map fst In obj_set app forallb]. intros Hnot Hord.
  apply andb_true_iff in Hord. destruct Hord as [Hk Hord].
  apply negb_true_iff in Hk. rewrite Hk.
  destruct (String.eqb_spec k key) as [-> | _]; [tauto |].
  rewrite IH by tauto. reflexivity.
Qed.

Lemma keys_ordered_before (l1 l2 : list string) (k : string) :
  keys_ordered (l1 ++ k :: l2) = true ->
  forallb (fun k0 => negb (comes_before k k0)) l1 = true.
Proof.
  induction l1 as [| a l1 IH]; [reflexivity |].
  cbn [app keys_ordered forallb]. intros H.
  apply andb_true_iff in H. destruct H as [Ha H].
  rewrite forallb_app in Ha. apply andb_true_iff in Ha.
  destruct Ha as [_ Ha]. cbn [forallb] in Ha.
  apply andb_true_iff in Ha. destruct Ha as [Ha _].
  rewrite Ha. cbn [andb]. now apply IH.
Qed.

Lemma build_object_fresh (members acc : list (string * value)) :
  NoDup (map fst acc ++ map fst members) ->
  keys_ordered (map fst acc ++ map fst members) = true ->
  fold_left (fun a kv => obj_set (fst kv) (snd kv) a) members acc
  = (acc ++ members)%list.
Proof.
  revert acc. induction members as [| [k x] members IH]; intros acc Hnd Hord.
  - now rewrite app_nil_r.
  - cbn [fold_left fst snd]. cbn [map fst] in Hnd, Hord.
    rewrite obj_set_fresh.
    + rewrite IH.
      * now rewrite <- app_assoc.
      * rewrite map_app, <- app_assoc. exact Hnd.
      * rewrite map_app, <- app_assoc. exact Hord.
    + apply NoDup_remove_2 in Hnd. intros Hin. apply Hnd.
      apply in_or_app. now left.
    + now apply keys_ordered_before in Hord.
Qed.

Lemma build_object_unique (members : list (string * value)) :
  own_keys (map fst members) = true -> build_object members = members.
Proof.
  intros H. unfold build_object.
  pose proof (own_keys_NoDup _ H) as Hnd.
  unfold own_keys in H. apply andb_true_iff in H. destruct H as [_ Hord].
  now rewrite build_object_fresh.
Qed.

Lemma map_fst_normalize (fields : list (string * value)) :
  map fst (map normalize_member fields) = map fst fields.
Proof.
  induction fields as [| [k x] fields IH]; [reflexivity |].
  cbn [map fst normalize_member]. now rewrite IH.
Qed.

Lemma reads_back_all (v : value) : reads_back v.
Proof.
  induction v as [| b | x | s | xs IH | fields IH] using value_nested_ind;
    intros indent fuel rest Hwf Hind Hfuel Hrest;
    (destruct fuel as [| fuel]; [cbn [size] in Hfuel; lia |]).
  - reflexivity.
  - destruct b; reflexivity.
  - destruct x as [f | m |]; [| reflexivity | reflexivity].
    cbn [SerializeJSONProperty JSON_of_Number json_image].
    cbn [wf_value wf_Number] in Hwf. apply andb_true_iff in Hwf.
    destruct Hwf as [Hwf Hrange]. apply negb_true_iff in Hrange.
    rewrite parse_value_number, parse_number_print by assumption.
    cbn [with_tag]. unfold Number_of_decimal.
    now rewrite (overflows_normalize f Hrange).
  - cbn [SerializeJSONProperty json_image].
    destruct (parse_quoted s rest) as (body & -> & Hbody).
    cbn [parse_value].
    change (skip_ws (String dquote body)) with (String dquote body).
    cbv iota beta.
    change (Ascii.eqb dquote "{") with false.
    change (Ascii.eqb dquote "[") with false.
    rewrite Ascii.eqb_refl, Hbody. reflexivity.
  - destruct xs as [| x xs]; [reflexivity |].
    change (SerializeJSONProperty "  " indent (JArr (x :: xs)))
      with ("[" ++ newline ++ (indent ++ "  ") ++
            String.concat ("," ++ newline ++ (indent ++ "  "))
              (map (SerializeJSONProperty "  " (indent ++ "  ")) (x :: xs)) ++
            newline ++ indent ++ "]").
    pose proof (all_ws_gap _ Hind) as Hind'.
    destruct (print_head x (indent ++ "  ")) as (c & r & Hc & Hhead).
    remember (indent ++ "  ") as ind' eqn:Eind'.
    rewrite !append_assoc.
    change ("[" ++ ?t) with (String "[" t).
    rewrite <- (append_assoc newline ind').
    assert (exists r',
              String.concat ("," ++ newline ++ ind')
                (map (SerializeJSONProperty "  " ind') (x :: xs)) ++
              newline ++ indent ++ "]" ++ rest = String c r')
      as (r' & Hbody).
    { cbn [map]. rewrite Hc. apply concat_head. }
    rewrite (parse_array_dispatch fuel _ _ c r'
               (all_ws_newline _ Hind') Hbody Hhead).
    cbn [wf_value size] in Hwf, Hfuel.
    rewrite (parse_elements_print (x :: xs) IH ltac:(discriminate)
               ind' indent fuel rest Hind' Hind Hwf ltac:(lia)).
    reflexivity.
  - destruct fields as [| [k x] fields]; [reflexivity |].
    change (SerializeJSONProperty "  " indent (JObj ((k, x) :: fields)))
      with ("{" ++ newline ++ (indent ++ "  ") ++
            String.concat ("," ++ newline ++ (indent ++ "  "))
              (map (print_member (indent ++ "  ")) ((k, x) :: fields)) ++
            newline ++ indent ++ "}").
    pose proof (all_ws_gap _ Hind) as Hind'.
    remember (indent ++ "  ") as ind' eqn:Eind'.
    rewrite !append_assoc.
    change ("{" ++ ?t) with (String "{" t).
    rewrite <- (append_assoc newline ind').
    assert (exists r',
              String.concat ("," ++ newline ++ ind')
                (map (print_member ind') ((k, x) :: fields)) ++
              newline ++ indent ++ "}" ++ rest = String dquote r')
      as (r' & Hbody).
    { cbn [map]. apply concat_head. }
    rewrite (parse_object_dispatch fuel _ _ dquote r'
               (all_ws_newline _ Hind') Hbody eq_refl).
    cbn [wf_value size] in Hwf, Hfuel.
    apply andb_true_iff in Hwf. destruct Hwf as [Hkeys Hwf].
    rewrite (parse_members_print ((k, x) :: fields) IH ltac:(discriminate)
               ind' indent fuel rest Hind' Hind Hwf ltac:(lia)).
    cbn [with_tag json_image].
    change (map (fun kv => let '(k0, x0) := kv in (k0, json_image x0)))
      with (map normalize_member).
    rewrite build_object_unique by (now rewrite map_fst_normalize).
    reflexivity.
Qed.

Lemma length_append (a b : string) :
  String.length (a ++ b) = (String.length a + String.length b)%nat.
Proof. induction a as [| c a IH]; simpl; [reflexivity | now rewrite IH]. Qed.

Lemma append_nil_r (s : string) : s ++ "" = s.
Proof. induction s as [| c s IH]; simpl; [reflexivity | now rewrite IH]. Qed.

Lemma length_concat_lower (sep : string) (l : list string) :
  (1 <= String.length sep)%nat ->
  (list_sum (map (fun p => S (String.length p)) l)
   <= S (String.length (String.concat sep l)))%nat.
Proof.
  intros Hsep. induction l as [| p [| q l] IH].
  - simpl. lia.
  - simpl. lia.
  - rewrite concat_cons2, !length_append.
    cbn [map] in *. rewrite !list_sum_cons in *. lia.
Qed.

Lemma length_wrap_lower (opening closing stepback indent : string)
    (partial : list string) :
  (1 <= String.length opening)%nat ->
  (S (list_sum (map (fun p => S (String.length p)) partial))
   <= String.length (wrap opening closing "  " stepback indent partial))%nat.
Proof.
  intros Hop. unfold wrap. destruct partial as [| p partial].
  - rewrite length_append. simpl. lia.
  - cbn [String.eqb Ascii.eqb Bool.eqb andb]. cbv iota.
    pose proof (length_concat_lower ("," ++ newline ++ indent) (p :: partial)
                  ltac:(simpl; lia)) as H.
    rewrite !length_append.
    change (String.length newline) with 1%nat. lia.
Qed.

Lemma list_sum_le (A : Type) (f g : A -> nat) (l : list A) :
  Forall (fun a => (f a <= g a)%nat) l ->
  (list_sum (map f l) <= list_sum (map g l))%nat.
Proof.
  induction 1 as [| a l Ha Hl IH]; [reflexivity |].
  cbn [map]. rewrite !list_sum_cons. lia.
Qed.

Lemma size_le_length (v : value) :
  forall indent,
    (size v <= String.length (SerializeJSONProperty "  " indent v))%nat.
Proof.
  induction v as [| b | x | s | xs IH | fields IH] using value_nested_ind;
    intros indent.
  - simpl. lia.
  - destruct b; simpl; lia.
  - destruct (print_head (JNum x) indent) as (c & r & H & _).
    cbn [size]. rewrite H. simpl. lia.
  - simpl. lia.
  - cbn [SerializeJSONProperty size].
    etransitivity; [| apply length_wrap_lower; simpl; lia].
    apply le_n_S. rewrite map_map. apply list_sum_le.
    eapply Forall_impl; [| exact IH].
    intros x Hx. apply le_n_S, Hx.
  - cbn [SerializeJSONProperty size].
    etransitivity; [| apply length_wrap_lower; simpl; lia].
    apply le_n_S. rewrite map_map. apply list_sum_le.
    eapply Forall_impl; [| exact IH].
    intros [k x] Hx. cbn [snd] in Hx.
    rewrite !length_append. specialize (Hx (indent ++ "  ")). lia.
Qed.

Lemma JSON_parse_stringify (v : value) :
  wf_value v = true ->
  JSON_parse (JSON_text_2 v) = Some (json_image v).
Proof.
  intros Hwf. unfold JSON_parse, JSON_text_2.
  rewrite <- (append_nil_r (SerializeJSONProperty "  " "" v)) at 2.
  rewrite reads_back_all; try reflexivity; try assumption.
  pose proof (size_le_length v ""). lia.
Qed.

(** ** Deep equality of the value read back *)

Lemma digits_eqb_refl (ds : list digit) : digits_eqb ds ds = true.
Proof.
  induction ds as [| d ds IH]; [reflexivity |].
  cbn [digits_eqb]. unfold digit_eqb. now rewrite Z.eqb_refl, IH.
Qed.

Lemma number_strict_eq_normalize (x : number) :
  number_strict_eq (normalize_number x) x = true.
Proof.
  destruct x as [neg [| d ds] pt]; [reflexivity |].
  unfold normalize_number, number_strict_eq. cbn [significand negative point].
  now rewrite Bool.eqb_reflx, digits_eqb_refl, Z.eqb_refl.
Qed.

Lemma lookup_unique (fields : list (string * value)) (k : string) (x : value) :
  NoDup (map fst fields) -> In (k, x) fields -> lookup k fields = Some x.
Proof.
  induction fields as [| [k' x'] fields IH]; [contradiction |].
  cbn [map fst In lookup]. intros Hnd Hin.
  inversion Hnd as [| ? ? Hnot Hnd']; subst.
  destruct Hin as [[= -> ->] | Hin].
  - now rewrite String.eqb_refl.
  - destruct (String.eqb_spec k' k) as [-> | _]; [| auto].
    exfalso. apply Hnot. apply in_map_iff. now exists (k, x).
Qed.

Lemma Number_strict_eq_image (x : Number) :
  deep_equal (json_image (JNum x)) (JNum x) = finite_value (JNum x).
Proof.
  destruct x as [f | m |]; [| reflexivity | reflexivity].
  apply number_strict_eq_normalize.
Qed.

(** The value read back is deep-equal to the value exactly when its
    numbers are finite. *)
Lemma deep_equal_image (v : value) :
  wf_value v = true -> deep_equal (json_image v) v = finite_value v.
Proof.
  induction v as [| b | x | s | xs IH | fields IH] using value_nested_ind;
    intros Hwf.
  - reflexivity.
  - apply Bool.eqb_reflx.
  - apply Number_strict_eq_image.
  - apply String.eqb_refl.
  - cbn [json_image deep_equal wf_value finite_value] in *.
    induction IH as [| x xs Hx _ IHxs]; [reflexivity |].
    cbn [forallb] in Hwf. apply andb_true_iff in Hwf. destruct Hwf as [Hwx Hwxs].
    cbn [map forallb]. now rewrite Hx, IHxs.
  - cbn [json_image deep_equal wf_value finite_value] in *.
    apply andb_true_iff in Hwf. destruct Hwf as [Hkeys Hwf].
    apply own_keys_NoDup in Hkeys.
    rewrite length_map, Nat.eqb_refl. cbn [andb].
    rewrite Forall_forall in IH. rewrite forallb_forall in Hwf.
    apply Bool.eq_iff_eq_true. rewrite !forallb_forall. split.
    + intros H [k x] Hin.
      pose proof (IH (k, x) Hin (Hwf (k, x) Hin)) as Hx. cbn [snd] in Hx.
      rewrite <- Hx.
      specialize (H (k, json_image x)). cbn beta iota in H.
      rewrite (lookup_unique fields k x Hkeys Hin) in H.
      apply H. apply in_map_iff. now exists (k, x).
    + intros H [k y] Hin.
      apply in_map_iff in Hin. destruct Hin as ([k' x] & [= <- <-] & Hin).
      rewrite (lookup_unique fields k' x Hkeys Hin).
      pose proof (IH (k', x) Hin (Hwf (k', x) Hin)) as Hx. cbn [snd] in Hx.
      rewrite Hx.
      apply (H (k', x) Hin).
Qed.

(** ** The JSON text of the dialog *)

(** C6, amended. The JSON text of a present payload, as JavaScript can
    hold it and nested no deeper than [JSON.stringify] can print, is its
    2-space-indented serialization, and parsing it gives the payload
    with [-0] read as [0] and with [null] in the place of an infinity
    or of [NaN].  That value is deep-equal to the payload exactly when
    all the numbers of the payload are finite.  A payload nested deeper
    gives no text: [JSON.stringify] throws.  For an absent payload the
    JSON text is the empty string.  The JSON text of a view the dialog
    computes is this text. *)
Theorem rawJson_round_trip (Date_parse : string -> option Z)
    (toLocaleDateString_zhCN : Z -> string)
    (Number_add : Number -> Number -> Number)
    (join_depth stringify_depth : nat) (kind : ParsedKind)
    (fields : list (string * value)) :
  (wf_value (JObj fields) = true ->
   (nesting (JObj fields) <= stringify_depth)%nat ->
   exists text v,
     getJsonText stringify_depth (PRecord fields) = Ok text /\
     text = JSON_text_2 (JObj fields) /\
     JSON_parse text = Some v /\
     v = json_image (JObj fields) /\
     deep_equal v (JObj fields) = finite_value (JObj fields)) /\
  ((stringify_depth < nesting (JObj fields))%nat ->
   getJsonText stringify_depth (PRecord fields) = Throw RangeError) /\
  getJsonText stringify_depth PNull = Ok "" /\
  getJsonText stringify_depth PUndefined = Ok "" /\
  (forall parsedData view,
     ParsedDataDialog Date_parse toLocaleDateString_zhCN Number_add join_depth
       stringify_depth kind parsedData = Ok view ->
     getJsonText stringify_depth parsedData = Ok (jsonText view)).
Proof.
  split; [| split; [| split; [| split]]]; try reflexivity.
  - intros Hwf Hdepth.
    exists (JSON_text_2 (JObj fields)), (json_image (JObj fields)).
    split.
    { unfold getJsonText, JSON_stringify_2.
      apply Nat.leb_le in Hdepth. now rewrite Hdepth. }
    split; [reflexivity |].
    split; [now apply JSON_parse_stringify |].
    split; [reflexivity |].
    now apply deep_equal_image.
  - intros Hdeep. unfold getJsonText, JSON_stringify_2.
    apply Nat.leb_gt in Hdeep. now rewrite Hdeep.
  - intros parsedData view Hview.
    apply (dialog_parts Date_parse toLocaleDateString_zhCN Number_add
             join_depth stringify_depth kind parsedData view Hview).
Qed.

(** ** The properties on the example host *)

Lemma formatDate_spec_witness :
  formatDate ExampleHost.Date_parse ExampleHost.toLocaleDateString_zhCN
    (Some (JNum (of_Z 20240115))) = "-" /\
  formatDate ExampleHost.Date_parse ExampleHost.toLocaleDateString_zhCN
    (Some (JStr "not-a-date")) = "not-a-date" /\
  formatDate ExampleHost.Date_parse ExampleHost.toLocaleDateString_zhCN
    (Some (JStr "2024-01-15")) = "2024/1/15".
Proof.
  split; [| split].
  - apply (proj1 (formatDate_spec ExampleHost.Date_parse
                    ExampleHost.toLocaleDateString_zhCN
                    (Some (JNum (of_Z 20240115))))).
    discriminate.
  - exact (proj1 (proj2 (proj2 (proj2
             (formatDate_spec ExampleHost.Date_parse
                ExampleHost.toLocaleDateString_zhCN None))))
             eq_refl).
  - refine (proj2 (proj1 (proj2 (proj2
             (formatDate_spec ExampleHost.Date_parse
                ExampleHost.toLocaleDateString_zhCN
                (Some (JStr "2024-01-15")))))
             "2024-01-15" eq_refl _) 1705276800000 eq_refl).
    discriminate.
Defined.

Lemma exact_on_indices_example : exact_on_indices ExampleHost.Number_add.
Proof.
  intros i Hi. unfold ExampleHost.Number_add. cbn.
  f_equal. apply number_add_one. lia.
Defined.






(** C6 as stated fails: the payload read from the JSON text
    [{"amount":1e400}] has an infinite amount; its JSON text reads back
    with [null] for the amount, which is not deep-equal to the payload. *)
Lemma rawJson_infinity_reads_back_null :
  JSON_parse ("{" ++ String dquote "amount" ++ String dquote ":1e400}")
  = Some (JObj [("amount", JNum (Infinite false))]) /\
  exists text v,
    getJsonText ExampleHost.stringify_depth
      (PRecord [("amount", JNum (Infinite false))]) = Ok text /\
    JSON_parse text = Some v /\
    v = JObj [("amount", JNull)] /\
    deep_equal v (JObj [("amount", JNum (Infinite false))]) = false.
Proof.
  split; [vm_compute; reflexivity |].
  eexists. eexists.
  split; [reflexivity |]. split; [vm_compute; reflexivity |].
  split; reflexivity.
Qed.

Lemma rawJson_round_trip_witness :
  exists text v,
    getJsonText ExampleHost.stringify_depth
      (PRecord [("parse_status", JStr "partial");
                ("seller", JStr "A Co");
                ("amount", JNum (mkNumber false [d1; d2; d3; d4; d5] 4));
                ("tax_amount", JNum (mkNumber true [] 0));
                ("lines", JArr [JNull; JBool true; JObj []; JArr []])])
    = Ok text /\
    text
    = JSON_text_2
        (JObj [("parse_status", JStr "partial");
               ("seller", JStr "A Co");
               ("amount", JNum (mkNumber false [d1; d2; d3; d4; d5] 4));
               ("tax_amount", JNum (mkNumber true [] 0));
               ("lines", JArr [JNull; JBool true; JObj []; JArr []])]) /\
    JSON_parse text = Some v /\
    v = json_image
          (JObj [("parse_status", JStr "partial");
                 ("seller", JStr "A Co");
                 ("amount", JNum (mkNumber false [d1; d2; d3; d4; d5] 4));
                 ("tax_amount", JNum (mkNumber true [] 0));
                 ("lines", JArr [JNull; JBool true; JObj []; JArr []])]) /\
    deep_equal v
      (JObj [("parse_status", JStr "partial");
             ("seller", JStr "A Co");
             ("amount", JNum (mkNumber false [d1; d2; d3; d4; d5] 4));
             ("tax_amount", JNum (mkNumber true [] 0));
             ("lines", JArr [JNull; JBool true; JObj []; JArr []])])
    = true.
Proof.
  refine (proj1 (rawJson_round_trip ExampleHost.Date_parse
                  ExampleHost.toLocaleDateString_zhCN ExampleHost.Number_add
                  ExampleHost.join_depth ExampleHost.stringify_depth invoice
                  [("parse_status", JStr "partial");
                   ("seller", JStr "A Co");
                   ("amount", JNum (mkNumber false [d1; d2; d3; d4; d5] 4));
                   ("tax_amount", JNum (mkNumber true [] 0));
                   ("lines", JArr [JNull; JBool true; JObj []; JArr []])])
           eq_refl _).
  apply Nat.leb_le. reflexivity.
Defined.

(* ================================================================== *)
(** * More of the dialog, the tables and the pages *)

(** ** Text cells that come out empty *)

Lemma append_eq_empty (a b : string) : a ++ b = "" -> a = "" /\ b = "".
Proof. destruct a; simpl; [auto | discriminate]. Qed.

Lemma stringify_object_head (gap indent : string)
    (fields : list (string * value)) :
  exists r, SerializeJSONProperty gap indent (JObj fields) = String "{" r.
Proof.
  cbn [SerializeJSONProperty]. unfold wrap.
  destruct (map _ fields); [| destruct (String.eqb gap "")];
    eexists; reflexivity.
Qed.

Lemma Number_toString_nonempty (x : number) : Number_toString x <> "".
Proof.
  destruct (Number_toString_value_head x) as (c & r & -> & _). discriminate.
Qed.

Lemma String_of_Number_nonempty (x : Number) : String_of_Number x <> "".
Proof.
  destruct x as [f | [] |]; try discriminate.
  apply Number_toString_nonempty.
Qed.

Lemma join_parts_length (stack : nat) (xs : list value) :
  forall parts, join_parts stack xs = Ok parts -> length parts = length xs.
Proof.
  induction xs as [| x xs IH]; intros parts H.
  - injection H as <-. reflexivity.
  - cbn [join_parts] in H.
    destruct (element_text stack x) as [e | s]; [discriminate |].
    cbn [bind] in H.
    destruct (join_parts stack xs) as [e | ss]; [discriminate |].
    injection H as <-. cbn [length]. f_equal. now apply IH.
Qed.

Lemma formatText_blank (join_depth stringify_depth : nat) (value : unknown) :
  formatText join_depth stringify_depth value = Ok "" ->
  exists xs, value = Some (JArr xs) /\ (length xs <= 1)%nat.
Proof.
  intros H.
  destruct value as [[| [] | x | s | xs | fs] |]; try discriminate H.
  - injection H as H. now apply String_of_Number_nonempty in H.
  - cbn [formatText] in H. destruct (String.eqb_spec s ""); congruence.
  - exists xs. split; [reflexivity |].
    unfold formatText, Array_join in H.
    destruct (join_parts join_depth xs) as [e | parts] eqn:Hparts;
      [discriminate |].
    apply join_parts_length in Hparts. rewrite <- Hparts.
    injection H as H.
    destruct parts as [| a [| b parts]]; cbn [length]; try lia.
    exfalso. rewrite concat_cons2 in H.
    apply append_eq_empty in H. destruct H as [_ H]. discriminate H.
  - exfalso. unfold formatText, JSON_stringify, JSON_text in H.
    destruct (nesting (JObj fs) <=? stringify_depth)%nat; [| discriminate].
    destruct (stringify_object_head "" "" fs) as (r & Hr). congruence.
Qed.

(** X1. When [formatText] returns the empty string, its argument is an
    array of at most one element, such as the empty array; every other
    value it returns a text for, among them every array of two or more
    elements, shows as a non-empty text. *)
Theorem formatText_empty_only_for_arrays (join_depth stringify_depth : nat)
    (value : unknown) :
  (formatText join_depth stringify_depth value = Ok "" ->
   exists xs, value = Some (JArr xs) /\ (length xs <= 1)%nat) /\
  formatText join_depth stringify_depth (Some (JArr [])) = Ok "" /\
  formatText join_depth stringify_depth (Some (JArr [JNull])) = Ok "" /\
  formatText join_depth stringify_depth (Some (JArr [JStr ""])) = Ok "".
Proof.
  split; [apply formatText_blank | repeat split].
Qed.

Lemma formatText_empty_only_for_arrays_witness :
  exists xs, Some (JArr [JArr []]) = Some (JArr xs) /\ (length xs <= 1)%nat.
Proof.
  exact (proj1 (formatText_empty_only_for_arrays ExampleHost.join_depth
                  ExampleHost.stringify_depth (Some (JArr [JArr []])))
           eq_refl).
Defined.

(** ** The keys the dialog reads *)

(** X2. The dialog reads a fixed set of keys of the payload: for two
    payloads that agree on [parse_status], [parse_message], [raw_text]
    and the fields of the kind, the badge, the summary rows, the message
    and the raw text are computed with the same outcome, the same result
    or the same error, whatever else the payloads hold; so two views the
    dialog computes for them have these four parts in common. *)
Theorem dialog_reads_fixed_keys (Date_parse : string -> option Z)
    (toLocaleDateString_zhCN : Z -> string)
    (Number_add : Number -> Number -> Number)
    (join_depth stringify_depth : nat) (kind : ParsedKind)
    (f g : list (string * value)) :
  (forall key, In key (keys_read kind) -> lookup key f = lookup key g) ->
  Dialog.getParseStatusBadge (PRecord f)
  = Dialog.getParseStatusBadge (PRecord g) /\
  getSummaryRows Date_parse toLocaleDateString_zhCN Number_add join_depth
    stringify_depth kind (PRecord f)
  = getSummaryRows Date_parse toLocaleDateString_zhCN Number_add join_depth
      stringify_depth kind (PRecord g) /\
  getParseMessage (PRecord f) = getParseMessage (PRecord g) /\
  getRawText (PRecord f) = getRawText (PRecord g) /\
  (forall vf vg,
     ParsedDataDialog Date_parse toLocaleDateString_zhCN Number_add join_depth
       stringify_depth kind (PRecord f) = Ok vf ->
     ParsedDataDialog Date_parse toLocaleDateString_zhCN Number_add join_depth
       stringify_depth kind (PRecord g) = Ok vg ->
     badge vf = badge vg /\
     parseMessage vf = parseMessage vg /\
     summaryRows vf = summaryRows vg /\
     rawText vf = rawText vg).
Proof.
  intros Hsame.
  assert (Hbadge : Dialog.getParseStatusBadge (PRecord f)
                   = Dialog.getParseStatusBadge (PRecord g)).
  { rewrite !dialog_badge_by_status. unfold declared_status.
    rewrite (Hsame "parse_status") by (simpl; tauto). reflexivity. }
  assert (Hrows : getSummaryRows Date_parse toLocaleDateString_zhCN Number_add
                    join_depth stringify_depth kind (PRecord f)
                  = getSummaryRows Date_parse toLocaleDateString_zhCN
                      Number_add join_depth stringify_depth kind (PRecord g)).
  { unfold getSummaryRows. cbn [truthy negb getProp bind].
    destruct kind; cbn [keys_read fields_of app] in Hsame;
      repeat match goal with
             | |- context [lookup ?k f] =>
                 rewrite (Hsame k) by (simpl; tauto)
             end;
      reflexivity. }
  assert (Hmessage : getParseMessage (PRecord f) = getParseMessage (PRecord g)).
  { rewrite !getParseMessage_present. unfold message_of.
    rewrite (Hsame "parse_message") by (simpl; tauto). reflexivity. }
  assert (Hraw : getRawText (PRecord f) = getRawText (PRecord g)).
  { rewrite !getRawText_present. unfold raw_text_of.
    rewrite (Hsame "raw_text") by (simpl; tauto). reflexivity. }
  split; [exact Hbadge |]. split; [exact Hrows |].
  split; [exact Hmessage |]. split; [exact Hraw |].
  intros vf vg Hvf Hvg.
  apply dialog_parts in Hvf. destruct Hvf as (Hbf & Hrf & Hmf & Htf & _).
  apply dialog_parts in Hvg. destruct Hvg as (Hbg & Hrg & Hmg & Htg & _).
  repeat split; congruence.
Qed.

Lemma dialog_reads_fixed_keys_witness :
  getSummaryRows ExampleHost.Date_parse ExampleHost.toLocaleDateString_zhCN
    ExampleHost.Number_add ExampleHost.join_depth ExampleHost.stringify_depth
    invoice (PRecord [("seller", JStr "A Co"); ("page_count", JNum (of_Z 3))])
  = getSummaryRows ExampleHost.Date_parse ExampleHost.toLocaleDateString_zhCN
      ExampleHost.Number_add ExampleHost.join_depth
      ExampleHost.stringify_depth
      invoice (PRecord [("ocr", JBool true); ("seller", JStr "A Co")]).
Proof.
  apply (dialog_reads_fixed_keys ExampleHost.Date_parse
           ExampleHost.toLocaleDateString_zhCN ExampleHost.Number_add
           ExampleHost.join_depth ExampleHost.stringify_depth invoice
           [("seller", JStr "A Co"); ("page_count", JNum (of_Z 3))]
           [("ocr", JBool true); ("seller", JStr "A Co")]).
  intros key Hin. simpl in Hin.
  repeat (destruct Hin as [<- | Hin]; [reflexivity |]). contradiction.
Defined.

(** ** Stamp pages that are not numbers *)

(** X3. In the stamp-pages row of the rows of a contract only the
    numbers of the array count: an array without a number shows "-",
    entries that are not numbers are skipped, and when the numbers are
    page indices the row shows their 1-based page numbers in order,
    joined by ", " (on a host that adds one to an index exactly). *)
Theorem stamp_pages_skip_non_numbers (Date_parse : string -> option Z)
    (toLocaleDateString_zhCN : Z -> string)
    (Number_add : Number -> Number -> Number)
    (join_depth stringify_depth : nat) (fields : list (string * value))
    (xs : list value) (rows : list SummaryRow) :
  lookup "stamp_pages" fields = Some (JArr xs) ->
  getSummaryRows Date_parse toLocaleDateString_zhCN Number_add join_depth
    stringify_depth contract (PRecord fields) = Ok rows ->
  exists r,
    nth_error rows 7 = Some r /\
    (numbers_of xs = [] -> row_value r = "-") /\
    (exact_on_indices Number_add ->
     forall idx,
       numbers_of xs = map (fun i => Finite (of_Z i)) idx ->
       idx <> [] ->
       Forall (fun i => 0 <= i < 2 ^ 53 - 1) idx ->
       row_value r
       = String.concat ", "
           (map (fun i => str_of_digits (digits_of (i + 1))) idx)) /\
    (forall fields' ys rows' r',
       lookup "stamp_pages" fields' = Some (JArr ys) ->
       numbers_of ys = numbers_of xs ->
       getSummaryRows Date_parse toLocaleDateString_zhCN Number_add
         join_depth stringify_depth contract (PRecord fields') = Ok rows' ->
       nth_error rows' 7 = Some r' ->
       row_value r' = row_value r).
Proof.
  intros Hlook Hrows. apply contract_rows in Hrows.
  destruct Hrows as (a & b & c & _ & _ & _ & ->).
  eexists. split; [reflexivity |].
  cbn [row_value]. rewrite Hlook. unfold stamp_text.
  split; [| split].
  - intros ->. reflexivity.
  - intros Hadd idx Hnum Hne Hidx.
    pose proof (stamp_pages_of_indices Number_add idx Hadd Hidx) as Htext.
    rewrite numbers_of_map_of_Z in Htext. cbv zeta. rewrite Hnum, Htext.
    destruct idx as [| i idx]; [congruence |].
    destruct (String.eqb_spec
                (String.concat ", "
                   (map (fun i => str_of_digits (digits_of (i + 1))) (i :: idx)))
                "") as [Hempty | _]; [| reflexivity].
    exfalso. revert Hempty. cbn [map]. apply concat_nonempty.
    inversion Hidx as [| ? ? Hi _]; subst.
    destruct (digits_of_head (i + 1) ltac:(lia)) as (d & ds & -> & _).
    discriminate.
  - intros fields' ys rows' r' Hlook' Hsame Hrows' Hnth'.
    apply contract_rows in Hrows'.
    destruct Hrows' as (a' & b' & c' & _ & _ & _ & ->).
    injection Hnth' as <-. cbn [row_value].
    rewrite Hlook'. unfold stamp_text. now rewrite Hsame.
Qed.

Lemma stamp_pages_skip_non_numbers_witness :
  exists rows r,
    getSummaryRows ExampleHost.Date_parse ExampleHost.toLocaleDateString_zhCN
      ExampleHost.Number_add ExampleHost.join_depth ExampleHost.stringify_depth
      contract
      (PRecord [("stamp_pages",
                 JArr [JStr "cover"; JNum (of_Z 0); JNull; JNum (of_Z 4)])])
    = Ok rows /\
    nth_error rows 7 = Some r /\
    row_value r = "1, 5".
Proof.
  destruct (summary_rows_returned ExampleHost.Date_parse
              ExampleHost.toLocaleDateString_zhCN ExampleHost.Number_add
              ExampleHost.join_depth ExampleHost.stringify_depth contract
              [("stamp_pages",
                JArr [JStr "cover"; JNum (of_Z 0); JNull; JNum (of_Z 4)])]
              eq_refl)
    as (rows & Hrows).
  destruct (stamp_pages_skip_non_numbers ExampleHost.Date_parse
              ExampleHost.toLocaleDateString_zhCN ExampleHost.Number_add
              ExampleHost.join_depth ExampleHost.stringify_depth
              [("stamp_pages",
                JArr [JStr "cover"; JNum (of_Z 0); JNull; JNum (of_Z 4)])]
              [JStr "cover"; JNum (of_Z 0); JNull; JNum (of_Z 4)] rows
              eq_refl Hrows)
    as (r & Hnth & _ & Hidx & _).
  exists rows, r. split; [exact Hrows |]. split; [exact Hnth |].
  apply (Hidx exact_on_indices_example [0; 4] eq_refl).
  - discriminate.
  - repeat constructor; vm_compute; intuition discriminate.
Defined.

(** ** Whole amounts *)

Lemma of_Z_value (n : Z) :
  digits_val (significand (of_Z n))
  * 10 ^ (point (of_Z n) - Z.of_nat (length (significand (of_Z n))))
  = Z.abs n /\
  0 <= point (of_Z n) - Z.of_nat (length (significand (of_Z n))) /\
  negative (of_Z n) = (n <? 0).
Proof.
  unfold of_Z, of_dec.
  destruct (Z.eqb_spec n 0) as [-> | Hnz]; [repeat split; simpl; lia |].
  cbn [negative significand point].
  pose proof (strip_trailing_split (digits_of (Z.abs n))) as Hs.
  pose proof (length_strip_trailing (digits_of (Z.abs n))) as Hl.
  pose proof (digits_of_val (Z.abs n) ltac:(lia)) as Hv.
  rewrite Hs, digits_val_app_zeros in Hv.
  split; [| split; [lia | reflexivity]].
  etransitivity; [| exact Hv]. f_equal. f_equal. lia.
Qed.

Lemma thousandths_of_Z (n : Z) : thousandths (of_Z n) = Z.abs n * 1000.
Proof.
  destruct (of_Z_value n) as (Hv & He & _).
  unfold thousandths.
  set (m := digits_val (significand (of_Z n))) in *.
  set (e := point (of_Z n) - Z.of_nat (length (significand (of_Z n)))) in *.
  destruct (Z.leb_spec (-3) e) as [_ | Hbad]; [| lia].
  rewrite Z.pow_add_r by lia. rewrite <- Hv.
  change (10 ^ 3) with 1000. ring.
Qed.

(** X4. A whole amount between -2^53 and 2^53 is shown by [formatMoney]
    as the currency glyph, a minus sign after the glyph when the amount
    is negative, the decimal digits of its absolute value in groups of
    three, and ".00". *)
Theorem formatMoney_whole_amount (n : Z) :
  - 2 ^ 53 < n < 2 ^ 53 ->
  formatMoney (Some (JNum (of_Z n)))
  = "¥" ++ (if n <? 0 then "-" else "") ++
    group (match digits_of (Z.abs n) with [] => [d0] | ds => ds end) ++
    ".00".
Proof.
  intros _.
  unfold formatMoney, Number_toLocaleString_zhCN_min2, toLocaleString_zhCN_min2.
  destruct (of_Z_value n) as (_ & _ & ->).
  rewrite thousandths_of_Z.
  rewrite Z.div_mul by lia.
  unfold fraction_digits. rewrite Z.mod_mul by lia.
  reflexivity.
Qed.

Lemma formatMoney_whole_amount_witness :
  formatMoney (Some (JNum (of_Z (-1234567))))
  = "¥" ++ "-" ++ group [d1; d2; d3; d4; d5; d6; d7] ++ ".00".
Proof.
  apply (formatMoney_whole_amount (-1234567)). vm_compute.
  split; reflexivity.
Defined.

(** ** The notices of the three tabs *)

Lemma getJsonText_present_head (stringify_depth : nat)
    (fields : list (string * value)) (text : string) :
  getJsonText stringify_depth (PRecord fields) = Ok text ->
  exists r, text = String "{" r.
Proof.
  unfold getJsonText, JSON_stringify_2, JSON_text_2.
  destruct (nesting (JObj fields) <=? stringify_depth)%nat; [| discriminate].
  destruct (stringify_object_head "  " "" fields) as (r & ->).
  intros H. exists r. congruence.
Qed.

(** X5. The JSON tab shows its notice for an absent payload and the JSON
    text, which is never the notice, for a present payload that has one;
    it throws when [getJsonText] does.  The summary tab shows its notice
    exactly when the payload is absent: the rows of a present payload
    are shown as a grid.  The raw-text tab shows [raw_text] when it is a
    non-empty string and its notice otherwise, also for a present
    payload. *)
Theorem dialog_tab_notices (Date_parse : string -> option Z)
    (toLocaleDateString_zhCN : Z -> string)
    (Number_add : Number -> Number -> Number)
    (join_depth stringify_depth : nat) (kind : ParsedKind)
    (parsedData : ParsedData) :
  (truthy parsedData = false ->
   jsonTab stringify_depth parsedData = Ok "暂无原始JSON") /\
  (forall text,
     truthy parsedData = true ->
     getJsonText stringify_depth parsedData = Ok text ->
     jsonTab stringify_depth parsedData = Ok text /\ text <> "暂无原始JSON") /\
  (forall e,
     getJsonText stringify_depth parsedData = Throw e ->
     jsonTab stringify_depth parsedData = Throw e) /\
  (forall rows,
     getSummaryRows Date_parse toLocaleDateString_zhCN Number_add join_depth
       stringify_depth kind parsedData = Ok rows ->
     (summaryTab rows = NoSummary "暂无解析数据" <-> truthy parsedData = false) /\
     (truthy parsedData = true -> summaryTab rows = SummaryGrid rows)) /\
  (truthy parsedData = false -> rawTab parsedData = Ok "暂无原始文本") /\
  (forall fields, parsedData = PRecord fields ->
   (forall s, lookup "raw_text" fields = Some (JStr s) -> s <> "" ->
    rawTab parsedData = Ok s) /\
   (lookup "raw_text" fields = Some (JStr "") ->
    rawTab parsedData = Ok "暂无原始文本") /\
   (typeof (lookup "raw_text" fields) <> "string" ->
    rawTab parsedData = Ok "暂无原始文本")).
Proof.
  split; [| split; [| split; [| split; [| split]]]].
  - destruct parsedData; [reflexivity | reflexivity | discriminate].
  - intros text Htruthy Htext.
    destruct parsedData as [| | fields]; try discriminate Htruthy.
    destruct (getJsonText_present_head stringify_depth fields text Htext)
      as (r & ->).
    unfold jsonTab. rewrite Htext. split; [reflexivity | discriminate].
  - intros e He. unfold jsonTab. now rewrite He.
  - intros rows Hrows.
    destruct parsedData as [| | fields].
    + injection Hrows as <-. split; [split; reflexivity | discriminate].
    + injection Hrows as <-. split; [split; reflexivity | discriminate].
    + destruct (summary_rows_labels Date_parse toLocaleDateString_zhCN
                  Number_add join_depth stringify_depth kind fields rows
                  Hrows) as [Hlen _].
      assert (Hgrid : summaryTab rows = SummaryGrid rows).
      { unfold summaryTab. rewrite Hlen. destruct kind; reflexivity. }
      rewrite Hgrid. split; [split; discriminate | reflexivity].
  - destruct parsedData; [reflexivity | reflexivity | discriminate].
  - intros fields ->. unfold rawTab. rewrite getRawText_present.
    unfold raw_text_of. cbn [bind]. split; [| split].
    + intros s -> Hs. apply String.eqb_neq in Hs. now rewrite Hs.
    + intros ->. reflexivity.
    + intros Hty.
      destruct (lookup "raw_text" fields) as [[| b | x | s | xs | fs] |];
        try reflexivity. now contradiction Hty.
Qed.

Lemma dialog_tab_notices_witness :
  rawTab (PRecord [("raw_text", JStr "第一条")]) = Ok "第一条" /\
  rawTab (PRecord [("raw_text", JStr "")]) = Ok "暂无原始文本" /\
  jsonTab ExampleHost.stringify_depth (PRecord []) = Ok "{}" /\
  jsonTab ExampleHost.stringify_depth PNull = Ok "暂无原始JSON".
Proof.
  destruct (dialog_tab_notices ExampleHost.Date_parse
              ExampleHost.toLocaleDateString_zhCN ExampleHost.Number_add
              ExampleHost.join_depth ExampleHost.stringify_depth contract
              (PRecord [("raw_text", JStr "第一条")]))
    as (_ & _ & _ & _ & _ & Hraw).
  destruct (dialog_tab_notices ExampleHost.Date_parse
              ExampleHost.toLocaleDateString_zhCN ExampleHost.Number_add
              ExampleHost.join_depth ExampleHost.stringify_depth contract
              (PRecord [("raw_text", JStr "")]))
    as (_ & _ & _ & _ & _ & Hraw').
  split; [| split; [| split]].
  - refine (proj1 (Hraw _ eq_refl) "第一条" eq_refl _). discriminate.
  - exact (proj1 (proj2 (Hraw' _ eq_refl)) eq_refl).
  - exact (proj1 (proj1 (proj2 (dialog_tab_notices ExampleHost.Date_parse
             ExampleHost.toLocaleDateString_zhCN ExampleHost.Number_add
             ExampleHost.join_depth ExampleHost.stringify_depth contract
             (PRecord []))) "{}" eq_refl eq_refl)).
  - exact (proj1 (dialog_tab_notices ExampleHost.Date_parse
             ExampleHost.toLocaleDateString_zhCN ExampleHost.Number_add
             ExampleHost.join_depth ExampleHost.stringify_depth contract
             PNull) eq_refl).
Defined.

(** ** The cells of the tables and the formatters of the dialog *)

Lemma date_cell_formatDate (Date_parse : string -> option Z)
    (toLocaleDateString_zhCN : Z -> string) (value : option string) :
  (forall s, value = Some s -> s <> "" -> Date_parse s = None ->
   date_cell Date_parse toLocaleDateString_zhCN value = "Invalid Date" /\
   formatDate Date_parse toLocaleDateString_zhCN (value_of_string value) = s) /\
  ((forall s, value = Some s -> s <> "" -> Date_parse s <> None) ->
   date_cell Date_parse toLocaleDateString_zhCN value
   = formatDate Date_parse toLocaleDateString_zhCN (value_of_string value)).
Proof.
  unfold date_cell, Date_toLocaleDateString, formatDate, value_of_string.
  split.
  - intros s -> Hs Hparse. apply String.eqb_neq in Hs.
    now rewrite Hs, Hparse.
  - intros Hok. destruct value as [s |]; [| reflexivity].
    destruct (String.eqb_spec s "") as [_ | Hs]; [reflexivity |].
    specialize (Hok s eq_refl Hs).
    destruct (Date_parse s); [reflexivity | congruence].
Qed.

(** X6. The amount and date cells of the tables against the formatters of
    the dialog.  The contract's amount cell is [formatMoney] of the
    amount, "-" exactly when there is none; an invoice's amount cell is
    [formatMoney] of its amount and never "-".  The three date cells are
    [formatDate] of the date when the date is missing, empty or a date
    the host can read; for a string the host cannot read they show
    "Invalid Date" where [formatDate] shows the string itself. *)
Theorem table_cells_and_formatters (Date_parse : string -> option Z)
    (toLocaleDateString_zhCN : Z -> string)
    (c : ContractTable.ContractPublic) (i : InvoiceTable.InvoicePublic)
    (p : ProjectTable.ContractProjectPublic) :
  let cell := date_cell Date_parse toLocaleDateString_zhCN in
  let shown value :=
    formatDate Date_parse toLocaleDateString_zhCN (value_of_string value) in
  ContractTable.amount_cell c
  = formatMoney (value_of_number (ContractTable.amount c)) /\
  (ContractTable.amount_cell c = "-" <-> ContractTable.amount c = None) /\
  InvoiceTable.amount_cell i
  = formatMoney (Some (JNum (InvoiceTable.amount i))) /\
  InvoiceTable.amount_cell i <> "-" /\
  ContractTable.sign_date_cell Date_parse toLocaleDateString_zhCN c
  = cell (ContractTable.sign_date c) /\
  InvoiceTable.invoice_date_cell Date_parse toLocaleDateString_zhCN i
  = cell (InvoiceTable.invoice_date i) /\
  ProjectTable.created_at_cell Date_parse toLocaleDateString_zhCN p
  = cell (ProjectTable.created_at p) /\
  forall value,
    (forall s, value = Some s -> s <> "" -> Date_parse s = None ->
     cell value = "Invalid Date" /\ shown value = s) /\
    ((forall s, value = Some s -> s <> "" -> Date_parse s <> None) ->
     cell value = shown value).
Proof.
  unfold ContractTable.amount_cell, InvoiceTable.amount_cell.
  cbv zeta.
  split; [destruct (ContractTable.amount c); reflexivity |].
  split.
  { destruct (ContractTable.amount c); split; intro H;
      try discriminate; reflexivity. }
  split; [reflexivity |].
  split; [discriminate |].
  do 3 (split; [reflexivity |]).
  intros value. apply date_cell_formatDate.
Qed.

Lemma table_cells_and_formatters_witness :
  date_cell ExampleHost.Date_parse ExampleHost.toLocaleDateString_zhCN
    (Some "2024-01-15") = "2024/1/15" /\
  formatDate ExampleHost.Date_parse ExampleHost.toLocaleDateString_zhCN
    (Some (JStr "2024-01-15")) = "2024/1/15" /\
  date_cell ExampleHost.Date_parse ExampleHost.toLocaleDateString_zhCN
    (Some "soon") = "Invalid Date" /\
  formatDate ExampleHost.Date_parse ExampleHost.toLocaleDateString_zhCN
    (Some (JStr "soon")) = "soon".
Proof.
  pose (c := ContractTable.mkContractPublic "c1" None None None None
               (mkEntity None PUndefined)).
  pose (i := InvoiceTable.mkInvoicePublic "i1" "n" "k" (of_Z 1) None
               (mkEntity None PUndefined)).
  pose (p := ProjectTable.mkContractProjectPublic "p1" "P" "p" None None).
  pose proof (table_cells_and_formatters ExampleHost.Date_parse
                ExampleHost.toLocaleDateString_zhCN c i p) as H.
  cbv zeta in H.
  destruct H as (_ & _ & _ & _ & _ & _ & _ & H).
  destruct (H (Some "soon")) as [Hbad _].
  destruct (Hbad "soon" eq_refl) as [Hcell Hshown];
    [discriminate | reflexivity |].
  destruct (H (Some "2024-01-15")) as [_ Hgood].
  split; [reflexivity |].
  split; [| split; [exact Hcell | exact Hshown]].
  transitivity (date_cell ExampleHost.Date_parse
                  ExampleHost.toLocaleDateString_zhCN (Some "2024-01-15"));
    [| reflexivity].
  symmetry. apply Hgood.
  intros s [= <-] _. discriminate.
Defined.

(** ** The file cell and the status cell of a row *)

(** X7. In the contract table and in the invoice table the file cell
    and the status cell agree on whether a file was uploaded: the status
    badge is labelled "未上传" exactly when the file cell shows "未上传",
    whatever the parse payload holds; and the status cell never throws. *)
Theorem file_cell_and_status_cell (c : ContractTable.ContractPublic)
    (i : InvoiceTable.InvoicePublic) :
  (exists b, ContractTable.parse_status_cell c = Ok b /\
     (label b = "未上传" <-> ContractTable.file_cell c = "未上传") /\
     (label b <> "未上传" <-> ContractTable.file_cell c = "已上传")) /\
  (exists b, InvoiceTable.parse_status_cell i = Ok b /\
     (label b = "未上传" <-> InvoiceTable.file_cell i = "未上传") /\
     (label b <> "未上传" <-> InvoiceTable.file_cell i = "已上传")).
Proof.
  unfold ContractTable.parse_status_cell, ContractTable.file_cell,
    InvoiceTable.parse_status_cell, InvoiceTable.file_cell.
  split.
  - row_badge_cases (ContractTable.entity c) Hc Hi; rewrite Hc;
      eexists; (split; [reflexivity |]); cbn [label Dialog.Full
        Dialog.Partial Dialog.Failed Dialog.Unsupported];
      (split; split; intro H; try reflexivity; try discriminate;
       try congruence).
  - row_badge_cases (InvoiceTable.entity i) Hc Hi; rewrite Hi;
      eexists; (split; [reflexivity |]); cbn [label Dialog.Full
        Dialog.Partial Dialog.Failed Dialog.Unsupported];
      (split; split; intro H; try reflexivity; try discriminate;
       try congruence).
Qed.

Lemma file_cell_and_status_cell_witness :
  let c := ContractTable.mkContractPublic "c1" None None None None
             (mkEntity (Some "a.pdf") PNull) in
  exists b, ContractTable.parse_status_cell c = Ok b /\ label b <> "未上传".
Proof.
  intros c.
  destruct (file_cell_and_status_cell c
              (InvoiceTable.mkInvoicePublic "i1" "n" "k" (of_Z 1) None
                 (mkEntity None PUndefined)))
    as [(b & Hb & _ & Hfile) _].
  exists b. split; [exact Hb |]. apply Hfile. reflexivity.
Defined.

(** ** Deleting a contract from the project page *)

Lemma or_else_nonempty (a : option string) (b : string) :
  b <> "" -> or_else a b <> "".
Proof.
  intros Hb. unfold or_else. destruct a as [s |]; [| exact Hb].
  destruct (String.eqb_spec s ""); assumption.
Qed.

Lemma same_id_cleared (selected : option ContractTable.ContractPublic)
    (contract : ContractTable.ContractPublic) :
  ProjectDetailDialog.same_id
    (if ProjectDetailDialog.same_id selected contract then None else selected)
    contract = false.
Proof.
  destruct (ProjectDetailDialog.same_id selected contract) eqn:E;
    [reflexivity | exact E].
Qed.

(** X8. Deleting a contract from the project page.  The question put to
    the user always names the contract: its name, else its number, else
    "该合同", never the empty string.  When the user declines, nothing
    changes and nothing is requested.  When the user accepts, exactly
    one deletion is requested, for this contract's id; neither the
    invoice dialog nor the parsed-data dialog is left on a contract with
    that id, and a dialog on a contract with another id is untouched.
    So a contract just opened in either dialog is closed by its
    deletion. *)
Theorem contract_onDelete_closes_its_dialogs (confirm : string -> bool)
    (st : ProjectDetailDialog.State) (contract : ContractTable.ContractPublic) :
  let st' := fst (ProjectDetailDialog.onDelete confirm st contract) in
  let requests := snd (ProjectDetailDialog.onDelete confirm st contract) in
  ProjectDetailDialog.contractLabel contract <> "" /\
  (confirm (ProjectDetailDialog.confirmMessage contract) = false ->
   st' = st /\ requests = []) /\
  (confirm (ProjectDetailDialog.confirmMessage contract) = true ->
   requests
   = [ProjectDetailDialog.DeleteContract (ContractTable.id contract)] /\
   ProjectDetailDialog.same_id
     (ProjectDetailDialog.contractForInvoices st') contract = false /\
   ProjectDetailDialog.same_id
     (ProjectDetailDialog.contractForParse st') contract = false /\
   (ProjectDetailDialog.same_id
      (ProjectDetailDialog.contractForInvoices st) contract = false ->
    ProjectDetailDialog.contractForInvoices st'
    = ProjectDetailDialog.contractForInvoices st) /\
   (ProjectDetailDialog.same_id
      (ProjectDetailDialog.contractForParse st) contract = false ->
    ProjectDetailDialog.contractForParse st'
    = ProjectDetailDialog.contractForParse st) /\
   ProjectDetailDialog.parsedDialogOpen
     (fst (ProjectDetailDialog.onDelete confirm
             (ProjectDetailDialog.onViewParsedData st contract) contract))
   = false /\
   ProjectDetailDialog.contractForInvoices
     (fst (ProjectDetailDialog.onDelete confirm
             (ProjectDetailDialog.onViewInvoices st contract) contract))
   = None).
Proof.
  cbv zeta. split; [| split].
  - unfold ProjectDetailDialog.contractLabel.
    apply or_else_nonempty, or_else_nonempty. discriminate.
  - intros Hno. unfold ProjectDetailDialog.onDelete. rewrite Hno.
    split; reflexivity.
  - intros Hyes. unfold ProjectDetailDialog.onDelete. rewrite Hyes.
    cbn [negb fst snd ProjectDetailDialog.contractForInvoices
           ProjectDetailDialog.contractForParse
           ProjectDetailDialog.onViewParsedData
           ProjectDetailDialog.onViewInvoices].
    split; [reflexivity |].
    split; [apply same_id_cleared |].
    split; [apply same_id_cleared |].
    split; [intros ->; reflexivity |].
    split; [intros ->; reflexivity |].
    unfold ProjectDetailDialog.same_id at 2 3.
    rewrite String.eqb_refl. split; reflexivity.
Qed.

Lemma contract_onDelete_closes_its_dialogs_witness :
  let c := ContractTable.mkContractPublic "c1" (Some "HT-7") (Some "") None
             None (mkEntity None PUndefined) in
  let other := ContractTable.mkContractPublic "c2" None None None None
                 (mkEntity None PUndefined) in
  let st := ProjectDetailDialog.mkState (Some other) (Some c) in
  ProjectDetailDialog.confirmMessage c = "确定删除合同 HT-7 吗？" /\
  snd (ProjectDetailDialog.onDelete (fun _ => true) st c)
  = [ProjectDetailDialog.DeleteContract "c1"] /\
  ProjectDetailDialog.contractForInvoices
    (fst (ProjectDetailDialog.onDelete (fun _ => true) st c)) = Some other /\
  ProjectDetailDialog.same_id
    (ProjectDetailDialog.contractForParse
       (fst (ProjectDetailDialog.onDelete (fun _ => true) st c))) c = false.
Proof.
  intros c other st. split; [reflexivity |].
  destruct (contract_onDelete_closes_its_dialogs (fun _ => true) st c)
    as (_ & _ & H).
  destruct (H eq_refl) as (Hreq & _ & Hparse & Hinv & _).
  split; [exact Hreq |].
  split; [exact (Hinv eq_refl) | exact Hparse].
Defined.

(** ** The file of a submission *)

Section InvoiceForm.

Import AddInvoice.

Variable File : Type.

Local Abbreviation State := (AddInvoice.State File).
Local Abbreviation Event := (FormEvent File).

Lemma run_app (st : State) (evs1 evs2 : list Event) :
  run File st (evs1 ++ evs2)%list =
  let (st1, out1) := run File st evs1 in
  let (st2, out2) := run File st1 evs2 in
  (st2, (out1 ++ out2)%list).
Proof.
  revert st. induction evs1 as [| ev evs1 IH]; intros st; cbn [run app].
  - destruct (run File st evs2); reflexivity.
  - destruct (step File st ev) as [st1 out1].
    rewrite IH.
    destruct (run File st1 evs1) as [st2 out2].
    destruct (run File st2 evs2) as [st3 out3].
    now rewrite app_assoc.
Qed.

Lemma run_keeps_file (st : State) (evs : list Event) :
  forallb (fun ev => negb (picks_file ev) && negb (resets ev)) evs = true ->
  invoiceFile File (fst (run File st evs)) = invoiceFile File st.
Proof.
  revert st. induction evs as [| ev evs IH]; intros st Hq; [reflexivity |].
  cbn [forallb] in Hq. apply andb_prop in Hq as [Hev Hq].
  cbn [run].
  destruct (step File st ev) as [st1 out1] eqn:Hstep.
  specialize (IH st1 Hq).
  destruct (run File st1 evs) as [st2 out2]. cbn [fst] in *.
  rewrite IH.
  destruct ev as [[|] | files | |]; cbn in Hev; try discriminate;
    cbn in Hstep; injection Hstep as <- _; reflexivity.
Qed.

Lemma run_no_file (st : State) (evs : list Event) :
  forallb (fun ev => negb (picks_file ev)) evs = true ->
  invoiceFile File st = None ->
  invoiceFile File (fst (run File st evs)) = None.
Proof.
  revert st. induction evs as [| ev evs IH]; intros st Hq Hst; [exact Hst |].
  cbn [forallb] in Hq. apply andb_prop in Hq as [Hev Hq].
  cbn [run].
  destruct (step File st ev) as [st1 out1] eqn:Hstep.
  specialize (IH st1 Hq).
  destruct (run File st1 evs) as [st2 out2]. cbn [fst] in *.
  apply IH.
  destruct ev as [[|] | files | |]; cbn in Hev; try discriminate;
    cbn in Hstep; injection Hstep as <- _; cbn; try reflexivity; exact Hst.
Qed.

Lemma run_key (st : State) (evs : list Event) :
  fileInputKey File (fst (run File st evs))
  = (fileInputKey File st + length (filter resets evs))%nat.
Proof.
  revert st. induction evs as [| ev evs IH]; intros st.
  - cbn. now rewrite Nat.add_0_r.
  - cbn [run filter].
    destruct (step File st ev) as [st1 out1] eqn:Hstep.
    specialize (IH st1).
    destruct (run File st1 evs) as [st2 out2]. cbn [fst] in *.
    rewrite IH.
    destruct ev as [[|] | files | |]; cbn in Hstep; injection Hstep as <- _;
      cbn; lia.
Qed.

Lemma run_requests (st : State) (evs : list Event) :
  length (snd (run File st evs)) = length (filter submits evs).
Proof.
  revert st. induction evs as [| ev evs IH]; intros st; [reflexivity |].
  cbn [run filter].
  destruct (step File st ev) as [st1 out1] eqn:Hstep.
  specialize (IH st1).
  destruct (run File st1 evs) as [st2 out2]. cbn [snd] in *.
  rewrite length_app, IH.
  destruct ev as [[|] | files | |]; cbn in Hstep; injection Hstep as _ <-;
    reflexivity.
Qed.

Lemma file_after_choice (st : State) (before quiet : list Event)
    (files : list File) :
  forallb (fun ev => negb (picks_file ev) && negb (resets ev)) quiet = true ->
  snd (run File st (before ++ FileChange files :: quiet ++ [Submit])%list)
  = (snd (run File st (before ++ FileChange files :: quiet))
       ++ [CreateInvoice File (hd_error files)])%list.
Proof.
  intros Hq.
  rewrite (app_comm_cons quiet), app_assoc, run_app.
  destruct (run File st (before ++ FileChange files :: quiet))
    as [st1 out1] eqn:Hrun.
  cbn [run step snd app].
  do 3 f_equal.
  rewrite run_app in Hrun.
  destruct (run File st before) as [st0 out0].
  cbn [run step] in Hrun.
  pose proof (run_keeps_file
    (mkState File (isOpen File st0) (hd_error files) (fileInputKey File st0))
    quiet Hq) as Hkeep.
  destruct (run File _ quiet) as [st2 out2].
  cbn [fst] in Hkeep. injection Hrun as <- _. exact Hkeep.
Qed.

Lemma file_after_reset (st : State) (before quiet : list Event)
    (reset : Event) :
  resets reset = true ->
  forallb (fun ev => negb (picks_file ev)) quiet = true ->
  snd (run File st (before ++ reset :: quiet ++ [Submit])%list)
  = (snd (run File st (before ++ reset :: quiet))
       ++ [CreateInvoice File None])%list.
Proof.
  intros Hreset Hq.
  rewrite (app_comm_cons quiet), app_assoc, run_app.
  destruct (run File st (before ++ reset :: quiet)) as [st1 out1] eqn:Hrun.
  cbn [run step snd app].
  do 3 f_equal.
  rewrite run_app in Hrun.
  destruct (run File st before) as [st0 out0].
  cbn [run] in Hrun.
  destruct (step File st0 reset) as [sr outr] eqn:Hstep.
  assert (Hnone : invoiceFile File sr = None).
  { destruct reset as [[|] | fs | |]; cbn in Hreset; try discriminate;
      cbn in Hstep; injection Hstep as <- _; reflexivity. }
  pose proof (run_no_file sr quiet Hq Hnone) as Hkeep.
  destruct (run File sr quiet) as [st2 out2].
  cbn [fst] in Hkeep. injection Hrun as <- _. exact Hkeep.
Qed.

(** The contract form steps as the invoice form does. *)
Lemma contract_run_as_invoice (st : AddContract.State File)
    (evs : list Event) :
  run File (as_invoice_state st) evs
  = (as_invoice_state (fst (AddContract.run File st evs)),
     map as_invoice_request (snd (AddContract.run File st evs))).
Proof.
  revert st. induction evs as [| ev evs IH]; intros st; [reflexivity |].
  cbn [run AddContract.run].
  destruct (AddContract.step File st ev) as [c1 o1] eqn:Hc.
  assert (Hstep : step File (as_invoice_state st) ev
                  = (as_invoice_state c1, map as_invoice_request o1)).
  { destruct ev as [[|] | files | |]; cbn in Hc; injection Hc as <- <-;
      reflexivity. }
  rewrite Hstep, IH.
  destruct (AddContract.run File c1 evs) as [c2 o2].
  cbn [fst snd]. now rewrite map_app.
Qed.

Lemma as_invoice_requests_inj (a b : list (AddContract.Request File)) :
  map as_invoice_request a = map as_invoice_request b -> a = b.
Proof.
  revert b. induction a as [| [x] a IH]; intros [| [y] b] H;
    try discriminate H; [reflexivity |].
  cbn [map as_invoice_request] in H. injection H as -> H.
  f_equal. now apply IH.
Qed.

End InvoiceForm.

(** X9. The file that goes with an invoice submission, over any sequence
    of events of the form.  One request is made per submission.  A
    submission carries the first file of the last file choice, as long
    as the form was neither closed nor submitted with success in
    between; after a close or a success, and until a new file is chosen,
    a submission carries no file.  The key of the file input counts the
    closes and successes, so the input is remounted on each of them. *)
Theorem invoice_file_of_submission (File : Type)
    (st : AddInvoice.State File) (before quiet : list (FormEvent File))
    (reset : FormEvent File) (files : list File) :
  let trace := AddInvoice.run File st in
  length (snd (trace before)) = length (filter submits before) /\
  AddInvoice.fileInputKey File (fst (trace before))
  = (AddInvoice.fileInputKey File st + length (filter resets before))%nat /\
  (forallb (fun ev => negb (picks_file ev) && negb (resets ev)) quiet = true ->
   snd (trace (before ++ FileChange files :: quiet ++ [Submit])%list)
   = (snd (trace (before ++ FileChange files :: quiet))
        ++ [AddInvoice.CreateInvoice File (hd_error files)])%list) /\
  (resets reset = true ->
   forallb (fun ev => negb (picks_file ev)) quiet = true ->
   snd (trace (before ++ reset :: quiet ++ [Submit])%list)
   = (snd (trace (before ++ reset :: quiet))
        ++ [AddInvoice.CreateInvoice File None])%list).
Proof.
  cbv zeta.
  split; [apply run_requests |].
  split; [apply run_key |].
  split; [apply file_after_choice | apply file_after_reset].
Qed.

Lemma invoice_file_of_submission_witness :
  snd (AddInvoice.run string (AddInvoice.initial string)
         [OpenChange true; FileChange ["a.pdf"; "b.pdf"]; Submit;
          OpenChange false; OpenChange true; Submit])
  = [AddInvoice.CreateInvoice string (Some "a.pdf");
     AddInvoice.CreateInvoice string None].
Proof.
  destruct (invoice_file_of_submission string (AddInvoice.initial string)
              [OpenChange true; FileChange ["a.pdf"; "b.pdf"]; Submit]
              [OpenChange true] (OpenChange false) [])
    as (_ & _ & _ & H).
  exact (H eq_refl eq_refl).
Defined.

(** X15. The contract form handles its file as the invoice form does:
    on any sequence of events its states and its requests are those of
    the invoice form, [contractFile] read as [invoiceFile].  So one
    request is made per submission, a submission carries the first file
    of the last file choice as long as the form was neither closed nor
    submitted with success in between, and no file after a close or a
    success until a new file is chosen. *)
Theorem contract_file_of_submission (File : Type)
    (st : AddContract.State File) (before quiet : list (FormEvent File))
    (reset : FormEvent File) (files : list File) :
  let trace := AddContract.run File st in
  AddInvoice.run File (as_invoice_state st) before
  = (as_invoice_state (fst (trace before)),
     map as_invoice_request (snd (trace before))) /\
  length (snd (trace before)) = length (filter submits before) /\
  AddContract.fileInputKey File (fst (trace before))
  = (AddContract.fileInputKey File st + length (filter resets before))%nat /\
  (forallb (fun ev => negb (picks_file ev) && negb (resets ev)) quiet = true ->
   snd (trace (before ++ FileChange files :: quiet ++ [Submit])%list)
   = (snd (trace (before ++ FileChange files :: quiet))
        ++ [AddContract.CreateContract File (hd_error files)])%list) /\
  (resets reset = true ->
   forallb (fun ev => negb (picks_file ev)) quiet = true ->
   snd (trace (before ++ reset :: quiet ++ [Submit])%list)
   = (snd (trace (before ++ reset :: quiet))
        ++ [AddContract.CreateContract File None])%list).
Proof.
  cbv zeta.
  pose proof (contract_run_as_invoice File st) as Hsim.
  split; [apply Hsim |].
  split.
  { pose proof (run_requests File (as_invoice_state st) before) as H.
    rewrite Hsim in H. cbn [snd] in H. now rewrite length_map in H. }
  split.
  { pose proof (run_key File (as_invoice_state st) before) as H.
    rewrite Hsim in H. exact H. }
  split.
  - intros Hq. apply as_invoice_requests_inj.
    pose proof (file_after_choice File (as_invoice_state st) before quiet
                  files Hq) as H.
    rewrite !Hsim in H. cbn [snd] in H.
    rewrite map_app. exact H.
  - intros Hreset Hq. apply as_invoice_requests_inj.
    pose proof (file_after_reset File (as_invoice_state st) before quiet
                  reset Hreset Hq) as H.
    rewrite !Hsim in H. cbn [snd] in H.
    rewrite map_app. exact H.
Qed.

Lemma contract_file_of_submission_witness :
  snd (AddContract.run string (AddContract.initial string)
         [OpenChange true; FileChange ["a.pdf"]; Success; OpenChange true;
          Submit])
  = [AddContract.CreateContract string None].
Proof.
  destruct (contract_file_of_submission string (AddContract.initial string)
              [OpenChange true; FileChange ["a.pdf"]]
              [OpenChange true] Success [])
    as (_ & _ & _ & _ & H).
  exact (H eq_refl eq_refl).
Defined.

(** ** Summary rows that come out blank *)

Lemma formatMoney_nonempty (value : unknown) : formatMoney value <> "".
Proof.
  destruct value as [[| b | x | s | xs | fs] |]; discriminate.
Qed.

Lemma formatDate_nonempty (Date_parse : string -> option Z)
    (toLocaleDateString_zhCN : Z -> string) (value : unknown) :
  (forall date, toLocaleDateString_zhCN date <> "") ->
  formatDate Date_parse toLocaleDateString_zhCN value <> "".
Proof.
  intros Hhost.
  destruct value as [[| b | x | s | xs | fs] |]; try discriminate.
  cbn [formatDate]. destruct (String.eqb_spec s ""); [discriminate |].
  destruct (Date_parse s); [apply Hhost | assumption].
Qed.

Lemma or_dash_nonempty (s : string) :
  (if String.eqb s "" then "-" else s) <> "".
Proof. destruct (String.eqb_spec s ""); [discriminate | assumption]. Qed.

(** X10. A summary row with a blank value.  On a host whose dates never
    print as the empty string, the value of a row among the summary rows
    of a present payload is blank only in a text row whose field is an
    array of at most one element; the date, money and stamp-page rows
    always show something, and so does every text row of a field that
    is missing or is not such an array. *)
Theorem summary_blank_only_for_short_arrays (Date_parse : string -> option Z)
    (toLocaleDateString_zhCN : Z -> string)
    (Number_add : Number -> Number -> Number)
    (join_depth stringify_depth : nat) (kind : ParsedKind)
    (fields : list (string * value)) (rows : list SummaryRow) :
  (forall date, toLocaleDateString_zhCN date <> "") ->
  getSummaryRows Date_parse toLocaleDateString_zhCN Number_add join_depth
    stringify_depth kind (PRecord fields) = Ok rows ->
  forall n r,
    nth_error rows n = Some r ->
    row_value r = "" ->
    exists key xs,
      nth_error (fields_of kind) n = Some key /\
      In key (text_fields kind) /\
      lookup key fields = Some (JArr xs) /\
      (length xs <= 1)%nat.
Proof.
  intros Hhost Hrows.
  pose proof (formatDate_nonempty Date_parse toLocaleDateString_zhCN) as Hdate.
  assert (Hstamp : forall pages, stamp_text Number_add pages <> "").
  { intros [[| b | x | s | xs | fs] |]; try discriminate.
    apply or_dash_nonempty. }
  assert (Htext : forall key t,
            formatText join_depth stringify_depth (lookup key fields) = Ok t ->
            t = "" ->
            exists xs, lookup key fields = Some (JArr xs) /\
                       (length xs <= 1)%nat).
  { intros key t Ht ->. now apply formatText_blank in Ht. }
  destruct kind.
  - apply contract_rows in Hrows.
    destruct Hrows as (a & b & c & Ha & Hb & Hc & ->).
    intros n r Hn Hblank;
      repeat (destruct n as [| n];
              [ injection Hn as <-; cbn [row_value] in Hblank;
                first
                  [ now apply formatMoney_nonempty in Hblank
                  | now apply Hdate in Hblank
                  | now apply Hstamp in Hblank
                  | match goal with
                    | H : formatText _ _ (lookup ?k fields) = Ok _ |- _ =>
                        destruct (Htext k _ H Hblank) as (xs & Hlook & Hlen);
                        exists k, xs;
                        (split; [reflexivity |]);
                        (split; [cbn; tauto |]);
                        (split; [exact Hlook | exact Hlen])
                    end ]
              | cbn [nth_error] in Hn ]);
      destruct n; discriminate Hn.
  - apply invoice_rows in Hrows.
    destruct Hrows as (a & b & c & d & Ha & Hb & Hc & Hd & ->).
    intros n r Hn Hblank;
      repeat (destruct n as [| n];
              [ injection Hn as <-; cbn [row_value] in Hblank;
                first
                  [ now apply formatMoney_nonempty in Hblank
                  | now apply Hdate in Hblank
                  | match goal with
                    | H : formatText _ _ (lookup ?k fields) = Ok _ |- _ =>
                        destruct (Htext k _ H Hblank) as (xs & Hlook & Hlen);
                        exists k, xs;
                        (split; [reflexivity |]);
                        (split; [cbn; tauto |]);
                        (split; [exact Hlook | exact Hlen])
                    end ]
              | cbn [nth_error] in Hn ]);
      destruct n; discriminate Hn.
Qed.

Lemma toLocaleDateString_example_nonempty (date : Z) :
  ExampleHost.toLocaleDateString_zhCN date <> "".
Proof.
  unfold ExampleHost.toLocaleDateString_zhCN.
  destruct (ExampleHost.civil_from_days (date / 86400000)) as [[y m] d].
  intros H. apply append_eq_empty in H. destruct H as [_ H]. discriminate H.
Qed.

Lemma summary_blank_only_for_short_arrays_witness :
  exists rows r,
    getSummaryRows ExampleHost.Date_parse ExampleHost.toLocaleDateString_zhCN
      ExampleHost.Number_add ExampleHost.join_depth ExampleHost.stringify_depth
      invoice (PRecord [("seller", JArr []); ("invoice_date", JStr "2024-01-15")])
    = Ok rows /\
    nth_error rows 3 = Some r /\
    row_value r = "" /\
    exists key xs,
      nth_error (fields_of invoice) 3 = Some key /\
      In key (text_fields invoice) /\
      lookup key [("seller", JArr []); ("invoice_date", JStr "2024-01-15")]
      = Some (JArr xs) /\
      (length xs <= 1)%nat.
Proof.
  eexists. eexists.
  split; [reflexivity |]. split; [reflexivity |]. split; [reflexivity |].
  exact (summary_blank_only_for_short_arrays ExampleHost.Date_parse
           ExampleHost.toLocaleDateString_zhCN ExampleHost.Number_add
           ExampleHost.join_depth ExampleHost.stringify_depth invoice
           [("seller", JArr []); ("invoice_date", JStr "2024-01-15")]
           _ toLocaleDateString_example_nonempty eq_refl 3%nat _
           eq_refl eq_refl).
Defined.

(** ** The JSON text and the payload *)

Lemma Number_toString_normalize (x : number) :
  Number_toString (normalize_number x) = Number_toString x.
Proof.
  unfold normalize_number, Number_toString.
  destruct (significand x) eqn:E; [reflexivity | now rewrite E].
Qed.

Lemma SerializeJSONProperty_normalize (gap : string) (v : value) :
  forall indent,
    SerializeJSONProperty gap indent (json_image v)
    = SerializeJSONProperty gap indent v.
Proof.
  induction v as [| b | x | s | xs IH | fields IH] using value_nested_ind;
    intros indent; try reflexivity.
  - destruct x as [f | m |]; [| reflexivity | reflexivity].
    apply Number_toString_normalize.
  - cbn [SerializeJSONProperty json_image]. f_equal.
    rewrite map_map. apply map_ext_Forall.
    revert IH. apply Forall_impl. intros a Ha. apply Ha.
  - cbn [SerializeJSONProperty json_image]. f_equal.
    rewrite map_map. apply map_ext_Forall.
    revert IH. apply Forall_impl. intros [k a] Ha. cbn [snd] in Ha.
    now rewrite Ha.
Qed.

(** X11. The JSON text of the dialog tells payloads apart as far as JSON
    can: two present payloads, as JavaScript can hold them, that both
    have a JSON text have the same text exactly when they are the same
    value up to the sign of their zeros and up to [null] in the place of
    an infinity or of [NaN], with the same keys in the same order. *)
Theorem jsonText_determines_payload (stringify_depth : nat)
    (f g : list (string * value)) (text_f text_g : string) :
  wf_value (JObj f) = true ->
  wf_value (JObj g) = true ->
  getJsonText stringify_depth (PRecord f) = Ok text_f ->
  getJsonText stringify_depth (PRecord g) = Ok text_g ->
  (text_f = text_g <-> json_image (JObj f) = json_image (JObj g)) /\
  (text_f = text_g -> map fst f = map fst g).
Proof.
  intros Hf Hg. unfold getJsonText, JSON_stringify_2.
  destruct (nesting (JObj f) <=? stringify_depth)%nat; [| discriminate].
  destruct (nesting (JObj g) <=? stringify_depth)%nat; [| discriminate].
  intros Hq Hr.
  assert (Htf : text_f = JSON_text_2 (JObj f)) by congruence.
  assert (Htg : text_g = JSON_text_2 (JObj g)) by congruence.
  clear Hq Hr. subst text_f text_g.
  assert (Hinj : JSON_text_2 (JObj f) = JSON_text_2 (JObj g) ->
                 json_image (JObj f) = json_image (JObj g)).
  { intros Heq.
    pose proof (JSON_parse_stringify (JObj f) Hf) as Pf.
    pose proof (JSON_parse_stringify (JObj g) Hg) as Pg.
    rewrite Heq in Pf. congruence. }
  split; [split; [exact Hinj |] |].
  - unfold JSON_text_2. intros Heq.
    rewrite <- (SerializeJSONProperty_normalize "  " (JObj f)).
    rewrite <- (SerializeJSONProperty_normalize "  " (JObj g)).
    now rewrite Heq.
  - intros Heq. apply Hinj in Heq. cbn [json_image] in Heq.
    injection Heq as Heq. apply (f_equal (map fst)) in Heq.
    change (map (fun kv => let '(k, x) := kv in (k, json_image x)))
      with (map normalize_member) in Heq.
    now rewrite !map_fst_normalize in Heq.
Qed.

Lemma jsonText_determines_payload_witness :
  JSON_text_2 (JObj [("amount", JNum (mkNumber true [] 0)); ("tax", JNull)])
  = JSON_text_2 (JObj [("amount", JNum (of_Z 0)); ("tax", JNum NaN)]).
Proof.
  apply (jsonText_determines_payload ExampleHost.stringify_depth
           [("amount", JNum (mkNumber true [] 0)); ("tax", JNull)]
           [("amount", JNum (of_Z 0)); ("tax", JNum NaN)]
           _ _ eq_refl eq_refl eq_refl eq_refl).
  reflexivity.
Defined.

(** ** The parsed-data dialog as the pages render it *)

(** X12. The parsed-data dialog as the project page and the invoice
    dialog render it.  The dialog computes its view from the payload of
    the selected contract or invoice, with the same outcome as for that
    payload alone.  While nothing is selected the dialog is closed, its
    title is the bare prefix and its view is that of an absent payload;
    a selected row whose payload is [null] gives that same view in an
    open dialog. *)
Theorem page_parsed_dialog (Date_parse : string -> option Z)
    (toLocaleDateString_zhCN : Z -> string)
    (Number_add : Number -> Number -> Number)
    (join_depth stringify_depth : nat)
    (st : ProjectDetailDialog.State)
    (invoiceForParse : option InvoiceTable.InvoicePublic) :
  let absent := mkView Dialog.Unparsed "暂无解析信息" [] "" "" in
  let dialog :=
    ParsedDataDialog Date_parse toLocaleDateString_zhCN Number_add join_depth
      stringify_depth in
  (ProjectDetailDialog.parsedDialogOpen st = false ->
   dialog contract (ProjectDetailDialog.parsedDialogData st) = Ok absent /\
   ProjectDetailDialog.parsedDialogTitle st = "合同解析 - ") /\
  (forall c,
     ProjectDetailDialog.contractForParse st = Some c ->
     ProjectDetailDialog.parsedDialogOpen st = true /\
     dialog contract (ProjectDetailDialog.parsedDialogData st)
     = dialog contract (parsed_data (ContractTable.entity c)) /\
     (truthy (parsed_data (ContractTable.entity c)) = false ->
      dialog contract (ProjectDetailDialog.parsedDialogData st) = Ok absent)) /\
  (InvoiceDialog.parsedDialogOpen invoiceForParse = false ->
   dialog invoice (InvoiceDialog.parsedDialogData invoiceForParse)
   = Ok absent /\
   InvoiceDialog.parsedDialogTitle invoiceForParse = "发票解析 - ") /\
  (forall i,
     invoiceForParse = Some i ->
     InvoiceDialog.parsedDialogOpen invoiceForParse = true /\
     InvoiceDialog.parsedDialogTitle invoiceForParse
     = "发票解析 - " ++ InvoiceTable.invoice_number i /\
     dialog invoice (InvoiceDialog.parsedDialogData invoiceForParse)
     = dialog invoice (parsed_data (InvoiceTable.entity i)) /\
     (truthy (parsed_data (InvoiceTable.entity i)) = false ->
      dialog invoice (InvoiceDialog.parsedDialogData invoiceForParse)
      = Ok absent)).
Proof.
  cbv zeta.
  assert (Habsent : forall kind parsedData,
            truthy parsedData = false ->
            ParsedDataDialog Date_parse toLocaleDateString_zhCN Number_add
              join_depth stringify_depth kind parsedData
            = Ok (mkView Dialog.Unparsed "暂无解析信息" [] "" "")).
  { intros kind [| | fields]; [reflexivity | reflexivity | discriminate]. }
  unfold ProjectDetailDialog.parsedDialogData,
    ProjectDetailDialog.parsedDialogOpen,
    ProjectDetailDialog.parsedDialogTitle,
    InvoiceDialog.parsedDialogData, InvoiceDialog.parsedDialogOpen,
    InvoiceDialog.parsedDialogTitle.
  split; [| split; [| split]].
  - destruct (ProjectDetailDialog.contractForParse st); [discriminate |].
    intros _. split; reflexivity.
  - intros c ->. split; [reflexivity |]. split; [reflexivity |].
    apply Habsent.
  - destruct invoiceForParse; [discriminate |].
    intros _. split; reflexivity.
  - intros i ->. split; [reflexivity |]. split; [reflexivity |].
    split; [reflexivity |]. apply Habsent.
Qed.

Lemma page_parsed_dialog_witness :
  ProjectDetailDialog.parsedDialogTitle
    (ProjectDetailDialog.mkState None
       (Some (ContractTable.mkContractPublic "c1" None (Some "租赁合同") None
                None (mkEntity (Some "a.pdf") PNull))))
  = "合同解析 - 租赁合同" /\
  ParsedDataDialog ExampleHost.Date_parse ExampleHost.toLocaleDateString_zhCN
    ExampleHost.Number_add ExampleHost.join_depth ExampleHost.stringify_depth
    contract
    (ProjectDetailDialog.parsedDialogData
       (ProjectDetailDialog.mkState None
          (Some (ContractTable.mkContractPublic "c1" None (Some "租赁合同")
                   None None (mkEntity (Some "a.pdf") PNull)))))
  = Ok (mkView Dialog.Unparsed "暂无解析信息" [] "" "").
Proof.
  split; [reflexivity |].
  exact (proj2 (proj2 (proj1 (proj2
           (page_parsed_dialog ExampleHost.Date_parse
              ExampleHost.toLocaleDateString_zhCN ExampleHost.Number_add
              ExampleHost.join_depth ExampleHost.stringify_depth
              (ProjectDetailDialog.mkState None
                 (Some (ContractTable.mkContractPublic "c1" None
                          (Some "租赁合同") None None
                          (mkEntity (Some "a.pdf") PNull))))
              None))
           _ eq_refl)) eq_refl).
Defined.

(** ** Cells that are never blank *)

Lemma date_cell_nonempty (Date_parse : string -> option Z)
    (toLocaleDateString_zhCN : Z -> string) (value : option string) :
  (forall date, toLocaleDateString_zhCN date <> "") ->
  date_cell Date_parse toLocaleDateString_zhCN value <> "".
Proof.
  intros Hhost. unfold date_cell, Date_toLocaleDateString.
  destruct value as [s |]; [| discriminate].
  destruct (String.eqb s ""); [discriminate |].
  destruct (Date_parse s); [apply Hhost | discriminate].
Qed.

(** X13. On a host whose dates never print as the empty string, the
    computed cells of the three tables are never blank: a missing or
    empty number, name, description, amount or date shows as a
    placeholder, and the file cell shows one of its two words. *)
Theorem table_cells_never_blank (Date_parse : string -> option Z)
    (toLocaleDateString_zhCN : Z -> string)
    (c : ContractTable.ContractPublic) (i : InvoiceTable.InvoicePublic)
    (p : ProjectTable.ContractProjectPublic) :
  (forall date, toLocaleDateString_zhCN date <> "") ->
  ContractTable.contract_number_cell c <> "" /\
  ContractTable.contract_name_cell c <> "" /\
  ContractTable.amount_cell c <> "" /\
  ContractTable.sign_date_cell Date_parse toLocaleDateString_zhCN c <> "" /\
  ContractTable.file_cell c <> "" /\
  InvoiceTable.amount_cell i <> "" /\
  InvoiceTable.invoice_date_cell Date_parse toLocaleDateString_zhCN i <> "" /\
  InvoiceTable.file_cell i <> "" /\
  ProjectTable.description_cell p <> "" /\
  ProjectTable.created_at_cell Date_parse toLocaleDateString_zhCN p <> "" /\
  (ContractTable.contract_number c = Some "" ->
   ContractTable.contract_number_cell c = "-") /\
  (ProjectTable.description p = Some "" ->
   ProjectTable.description_cell p = "暂无描述").
Proof.
  intros Hhost.
  pose proof (date_cell_nonempty Date_parse toLocaleDateString_zhCN) as Hdate.
  unfold ContractTable.contract_number_cell, ContractTable.contract_name_cell,
    ContractTable.amount_cell, ContractTable.sign_date_cell,
    ContractTable.file_cell, InvoiceTable.amount_cell,
    InvoiceTable.invoice_date_cell, InvoiceTable.file_cell,
    ProjectTable.description_cell, ProjectTable.created_at_cell.
  repeat split; try (apply or_else_nonempty; discriminate);
    try (apply Hdate; assumption); try discriminate.
  - destruct (ContractTable.amount c); discriminate.
  - destruct (no_file (ContractTable.entity c)); discriminate.
  - destruct (no_file (InvoiceTable.entity i)); discriminate.
  - intros ->. reflexivity.
  - intros ->. reflexivity.
Qed.

Lemma table_cells_never_blank_witness :
  ContractTable.sign_date_cell ExampleHost.Date_parse
    ExampleHost.toLocaleDateString_zhCN
    (ContractTable.mkContractPublic "c1" None None None (Some "2024-01-15")
       (mkEntity None PUndefined)) <> "".
Proof.
  apply (table_cells_never_blank ExampleHost.Date_parse
           ExampleHost.toLocaleDateString_zhCN
           (ContractTable.mkContractPublic "c1" None None None
              (Some "2024-01-15") (mkEntity None PUndefined))
           (InvoiceTable.mkInvoicePublic "i1" "n" "k" (of_Z 1) None
              (mkEntity None PUndefined))
           (ProjectTable.mkContractProjectPublic "p1" "P" "p" None None)
           toLocaleDateString_example_nonempty).
Defined.

(** ** Reading back a text without line breaks *)

Lemma closes_cases (rest : string) :
  closes rest = true ->
  rest = "" \/
  exists r, rest = String "," r \/ rest = String "]" r \/ rest = String "}" r.
Proof.
  destruct rest as [| c r]; [now left |]. intros H. right. exists r.
  unfold closes in H. apply orb_true_iff in H. destruct H as [H | H];
    [apply orb_true_iff in H; destruct H as [H | H] |];
    apply Ascii.eqb_eq in H; subst; auto.
Qed.

Section NumberEnd.

(** The text after a number: not a digit, a point or an exponent. *)
Variable rest : string.
Hypothesis Hnd : no_digit_head rest.
Hypothesis Hfrac : parse_fraction rest = Some ([], rest).
Hypothesis Hexp0 : parse_exponent rest = Some (0, rest).

Lemma parse_unsigned_exponent_form_end (neg : bool) (d : digit)
    (ds : list digit) (e : Z) :
  starts_nonzero (d :: ds) = true ->
  ends_nonzero (d :: ds) = true ->
  e <> 0 ->
  parse_unsigned neg
    ((str_of_digits [d] ++
      match ds with [] => "" | _ => "." ++ str_of_digits ds end ++
      "e" ++ (if e <? 0 then "-" else "+") ++
      str_of_digits (digits_of (Z.abs e))) ++ rest)
  = Some (mkNumber neg (d :: ds) (1 + e), rest).
Proof.
  intros Hs He Hnz.
  assert (Hexp :
    parse_exponent
      (String "e" ((if e <? 0 then "-" else "+") ++
                   str_of_digits (digits_of (Z.abs e)) ++ rest))
    = Some (e, rest)).
  { destruct (digits_of_head (Z.abs e) ltac:(lia)) as (c & cs & Hd & _).
    pose proof (digits_of_val (Z.abs e) ltac:(lia)) as Hv.
    destruct (Z.ltb_spec e 0) as [Hneg | Hpos];
      cbn [append parse_exponent Ascii.eqb Bool.eqb orb andb];
      unfold parse_exponent_digits;
      rewrite span_digits_str by assumption;
      rewrite Hd, nonempty_digits_cons, <- Hd, Hv;
      f_equal; f_equal; lia. }
  unfold parse_unsigned.
  destruct ds as [| c cs].
  - cbn [str_of_digits append].
    rewrite span_digits_cons, span_digits_stop by reflexivity.
    rewrite (valid_int_nonzero d [] Hs).
    cbn [parse_fraction Ascii.eqb Bool.eqb andb].
    rewrite append_assoc, Hexp.
    rewrite make_number_canonical; auto. left; discriminate.
  - cbn [str_of_digits append].
    rewrite span_digits_cons, span_digits_stop by reflexivity.
    rewrite (valid_int_nonzero d [] ltac:(destruct d; simpl in *; congruence)).
    cbn [parse_fraction Ascii.eqb Bool.eqb andb].
    rewrite append_assoc. cbn [append].
    change (String (digit_char c) (str_of_digits cs ++ ?x))
      with (str_of_digits (c :: cs) ++ x).
    rewrite span_digits_str by reflexivity.
    rewrite nonempty_digits_cons, append_assoc, Hexp.
    rewrite make_number_canonical; auto. left; discriminate.
Qed.

Lemma parse_unsigned_print_end (neg : bool) (d : digit) (ds : list digit)
    (pt : Z) :
  starts_nonzero (d :: ds) = true ->
  ends_nonzero (d :: ds) = true ->
  parse_unsigned neg (Number_toString (mkNumber false (d :: ds) pt) ++ rest)
  = Some (mkNumber neg (d :: ds) pt, rest).
Proof.
  intros Hs He.
  pose proof (parse_unsigned_exponent_form_end neg d ds (pt - 1) Hs He)
    as Hexp.
  replace (1 + (pt - 1)) with pt in Hexp by lia.
  unfold Number_toString. cbn [significand negative point].
  set (sig := d :: ds) in *.
  assert (Hlen : (1 <= length sig)%nat) by (subst sig; simpl; lia).
  cbn [append].
  destruct (Z.leb_spec (Z.of_nat (length sig)) pt) as [Hk | Hk];
    destruct (Z.leb_spec pt 21) as [H21 | H21];
    destruct (Z.ltb_spec 0 pt) as [H0 | H0];
    destruct (Z.ltb_spec (-6) pt) as [H6 | H6];
    destruct (Z.leb_spec pt 0) as [Hle | Hle];
    try lia; cbn [andb];
    try (apply Hexp; lia).
  - unfold parse_unsigned.
    rewrite span_digits_str by assumption.
    assert (valid_int (sig ++ zeros (Z.to_nat (pt - Z.of_nat (length sig))))
            = true) as ->.
    { subst sig. cbn [app]. now apply valid_int_nonzero. }
    rewrite Hfrac, Hexp0.
    f_equal. f_equal. unfold make_number. rewrite app_nil_r.
    rewrite strip_leading_id by (subst sig; exact Hs).
    rewrite ends_nonzero_app_zeros by assumption.
    subst sig. cbn iota. f_equal.
    rewrite length_app, length_zeros. cbn [length] in *. lia.
  - unfold parse_unsigned. rewrite append_assoc. cbn [append].
    rewrite span_digits_str by reflexivity.
    assert (valid_int (firstn (Z.to_nat pt) sig) = true) as ->.
    { destruct (Z.to_nat pt) eqn:Hn; [lia |].
      subst sig. cbn [firstn]. destruct d; simpl in *; congruence. }
    cbn [parse_fraction Ascii.eqb Bool.eqb andb].
    rewrite span_digits_str by assumption.
    rewrite nonempty_digits_ne.
    2:{ intros Hnil. apply (f_equal (@length digit)) in Hnil.
        rewrite length_skipn in Hnil.
        change (length (@nil digit)) with 0%nat in Hnil. lia. }
    rewrite Hexp0.
    rewrite make_number_canonical; rewrite ?firstn_skipn; auto.
    + f_equal. f_equal. f_equal. rewrite length_firstn. lia.
    + right. intros Hnil. apply (f_equal (@length digit)) in Hnil.
      rewrite length_skipn in Hnil.
      change (length (@nil digit)) with 0%nat in Hnil. lia.
  - unfold parse_unsigned.
    cbn [append span_digits digit_of_char].
    cbn [valid_int parse_fraction Ascii.eqb Bool.eqb andb].
    rewrite span_digits_str by assumption.
    rewrite nonempty_digits_ne.
    2:{ intros Hnil. apply app_eq_nil in Hnil. destruct Hnil. subst sig.
        discriminate. }
    rewrite Hexp0.
    f_equal. f_equal. unfold make_number.
    change ([d0] ++ zeros (Z.to_nat (- pt)) ++ sig)%list
      with (zeros (S (Z.to_nat (- pt))) ++ sig)%list.
    rewrite strip_leading_zeros_app.
    rewrite strip_leading_id by (subst sig; exact Hs).
    rewrite strip_trailing_id by assumption.
    subst sig. cbn iota. f_equal.
    rewrite length_app, length_zeros. cbn [length] in *. lia.
Qed.

Lemma parse_number_print_end (x : number) :
  wf_number x = true ->
  parse_number (Number_toString x ++ rest) = Some (normalize_number x, rest).
Proof.
  intros Hwf. destruct x as [neg sig pt].
  unfold wf_number in Hwf. cbn [significand point] in Hwf.
  apply andb_true_iff in Hwf. destruct Hwf as [Hwf Hpt].
  apply andb_true_iff in Hwf. destruct Hwf as [Hs He].
  destruct sig as [| d ds].
  - unfold Number_toString, normalize_number. cbn [significand append].
    unfold parse_number. cbn [Ascii.eqb Bool.eqb andb].
    unfold parse_unsigned. cbn [span_digits digit_of_char].
    change rest with (str_of_digits [] ++ rest) at 1.
    rewrite span_digits_str by assumption.
    cbn [valid_int].
    now rewrite Hfrac, Hexp0.
  - unfold normalize_number. cbn [significand].
    pose proof (parse_unsigned_print_end neg d ds pt Hs He) as Hp.
    destruct neg.
    + change (Number_toString (mkNumber true (d :: ds) pt))
        with (String "-" (Number_toString (mkNumber false (d :: ds) pt))).
      cbn [append parse_number Ascii.eqb Bool.eqb andb]. exact Hp.
    + destruct (Number_toString_head d ds pt) as (c & r & Hhead).
      rewrite Hhead in *. cbn [append] in *.
      rewrite parse_number_digit_head. exact Hp.
Qed.

End NumberEnd.

Lemma parse_number_compact (x : number) (rest : string) :
  wf_number x = true ->
  closes rest = true ->
  parse_number (Number_toString x ++ rest) = Some (normalize_number x, rest).
Proof.
  intros Hwf Hrest. apply parse_number_print_end; try assumption;
    destruct (closes_cases rest Hrest) as [-> | (r & [-> | [-> | ->]])];
    reflexivity.
Qed.

Lemma print_head_compact (v : value) (indent : string) :
  exists c r,
    SerializeJSONProperty "" indent v = String c r /\ value_head c = true.
Proof.
  destruct v as [| [] | [f | m |] | s | [| x xs] | [| [k x] fs]];
    try (eexists _, _; split; reflexivity).
  apply Number_toString_value_head.
Qed.

Lemma closes_comma (s : string) : closes (String "," s) = true.
Proof. reflexivity. Qed.

Lemma closes_bracket (s : string) : closes ("]" ++ s) = true.
Proof. reflexivity. Qed.

Lemma closes_brace (s : string) : closes ("}" ++ s) = true.
Proof. reflexivity. Qed.

Lemma parse_elements_compact (xs : list value) :
  Forall reads_back_compact xs ->
  xs <> [] ->
  forall ind fuel rest,
    forallb wf_value xs = true ->
    (list_sum (map (fun x => S (size x)) xs) <= fuel)%nat ->
    parse_elements fuel
      (String.concat "," (map (SerializeJSONProperty "" ind) xs) ++
       "]" ++ rest)
    = Some (map json_image xs, rest).
Proof.
  induction 1 as [| x xs Hx Hxs IH]; [congruence |].
  intros _ ind fuel rest Hwf Hfuel.
  cbn [forallb] in Hwf. apply andb_true_iff in Hwf. destruct Hwf as [Hwx Hwxs].
  cbn [map] in Hfuel. rewrite list_sum_cons in Hfuel.
  destruct fuel as [| fuel]; [lia |].
  cbn [parse_elements].
  destruct xs as [| y ys].
  - cbn [map String.concat].
    rewrite (Hx ind fuel _ Hwx ltac:(simpl in Hfuel; lia)
               (closes_bracket _)).
    reflexivity.
  - cbn [map]. rewrite concat_cons2, !append_assoc.
    change ("," ++ ?s) with (String "," s).
    rewrite (Hx ind fuel _ Hwx ltac:(lia) (closes_comma _)).
    change (skip_ws (String "," ?s)) with (String "," s).
    cbn [Ascii.eqb Bool.eqb andb].
    pose proof (IH ltac:(discriminate) ind fuel rest Hwxs ltac:(lia)) as IH'.
    cbn [map] in IH'. rewrite IH'. reflexivity.
Qed.

Lemma parse_members_compact (fields : list (string * value)) :
  Forall (fun kv => reads_back_compact (snd kv)) fields ->
  fields <> [] ->
  forall ind fuel rest,
    forallb (fun kv => let '(_, x) := kv in wf_value x) fields = true ->
    (list_sum (map (fun kv => let '(_, x) := kv in S (size x)) fields)
     <= fuel)%nat ->
    parse_members fuel
      (String.concat "," (map (print_member_compact ind) fields) ++
       "}" ++ rest)
    = Some (map normalize_member fields, rest).
Proof.
  induction 1 as [| [k x] fs Hx Hfs IH]; [congruence |].
  intros _ ind fuel rest Hwf Hfuel.
  cbn [forallb] in Hwf. apply andb_true_iff in Hwf. destruct Hwf as [Hwx Hwfs].
  cbn [map] in Hfuel. rewrite list_sum_cons in Hfuel.
  cbn [snd] in Hx.
  destruct fuel as [| fuel]; [lia |].
  cbn [parse_members].
  assert (Hmember : forall tail,
            exists body,
              print_member_compact ind (k, x) ++ tail = String dquote body /\
              parse_string_body body
              = Some (k, String ":" (SerializeJSONProperty "" ind x ++ tail))).
  { intros tail. unfold print_member_compact.
    destruct (parse_quoted k
                (String ":" (SerializeJSONProperty "" ind x ++ tail)))
      as (body & Hbody & Hparse).
    exists body. split; [| exact Hparse].
    rewrite <- Hbody. rewrite !append_assoc. reflexivity. }
  destruct fs as [| [k' y] fs'].
  - cbn [map String.concat].
    destruct (Hmember ("}" ++ rest)) as (body & Hbody & Hkey).
    rewrite Hbody.
    change (skip_ws (String dquote body)) with (String dquote body).
    cbv iota beta. rewrite Ascii.eqb_refl, Hkey.
    change (skip_ws (String ":" ?s)) with (String ":" s).
    cbn [Ascii.eqb Bool.eqb andb].
    rewrite (Hx ind fuel _ Hwx ltac:(lia) (closes_brace _)).
    reflexivity.
  - cbn [map]. rewrite concat_cons2, !append_assoc.
    change ("," ++ ?s) with (String "," s).
    match goal with
    | |- context [print_member_compact ind (k, x) ++ String "," ?tail] =>
        destruct (Hmember (String "," tail)) as (body & Hbody & Hkey)
    end.
    rewrite Hbody.
    change (skip_ws (String dquote body)) with (String dquote body).
    cbv iota beta. rewrite Ascii.eqb_refl, Hkey.
    change (skip_ws (String ":" ?s)) with (String ":" s).
    cbn [Ascii.eqb Bool.eqb andb].
    rewrite (Hx ind fuel _ Hwx ltac:(lia) (closes_comma _)).
    change (skip_ws (String "," ?s)) with (String "," s).
    cbn [Ascii.eqb Bool.eqb andb].
    pose proof (IH ltac:(discriminate) ind fuel rest Hwfs ltac:(lia)) as IH'.
    cbn [map] in IH'. rewrite IH'. reflexivity.
Qed.

Lemma reads_back_compact_all (v : value) : reads_back_compact v.
Proof.
  induction v as [| b | x | s | xs IH | fields IH] using value_nested_ind;
    intros indent fuel rest Hwf Hfuel Hrest;
    (destruct fuel as [| fuel]; [cbn [size] in Hfuel; lia |]).
  - reflexivity.
  - destruct b; reflexivity.
  - destruct x as [f | m |]; [| reflexivity | reflexivity].
    cbn [SerializeJSONProperty JSON_of_Number json_image].
    cbn [wf_value wf_Number] in Hwf. apply andb_true_iff in Hwf.
    destruct Hwf as [Hwf Hrange]. apply negb_true_iff in Hrange.
    rewrite parse_value_number, parse_number_compact by assumption.
    cbn [with_tag]. unfold Number_of_decimal.
    now rewrite (overflows_normalize f Hrange).
  - cbn [SerializeJSONProperty json_image].
    destruct (parse_quoted s rest) as (body & -> & Hbody).
    cbn [parse_value].
    change (skip_ws (String dquote body)) with (String dquote body).
    cbv iota beta.
    change (Ascii.eqb dquote "{") with false.
    change (Ascii.eqb dquote "[") with false.
    rewrite Ascii.eqb_refl, Hbody. reflexivity.
  - destruct xs as [| x xs]; [reflexivity |].
    change (SerializeJSONProperty "" indent (JArr (x :: xs)))
      with ("[" ++
            String.concat ","
              (map (SerializeJSONProperty "" (indent ++ "")) (x :: xs)) ++
            "]").
    destruct (print_head_compact x (indent ++ "")) as (c & r & Hc & Hhead).
    remember (indent ++ "") as ind' eqn:Eind'.
    rewrite !append_assoc.
    change ("[" ++ ?t) with (String "[" ("" ++ t)).
    assert (exists r',
              String.concat ","
                (map (SerializeJSONProperty "" ind') (x :: xs)) ++
              "]" ++ rest = String c r')
      as (r' & Hbody).
    { cbn [map]. rewrite Hc. apply concat_head. }
    rewrite (parse_array_dispatch fuel "" _ c r' eq_refl Hbody Hhead).
    cbn [wf_value size] in Hwf, Hfuel.
    rewrite (parse_elements_compact (x :: xs) IH ltac:(discriminate)
               ind' fuel rest Hwf ltac:(lia)).
    reflexivity.
  - destruct fields as [| [k x] fields]; [reflexivity |].
    change (SerializeJSONProperty "" indent (JObj ((k, x) :: fields)))
      with ("{" ++
            String.concat ","
              (map (print_member_compact (indent ++ "")) ((k, x) :: fields)) ++
            "}").
    remember (indent ++ "") as ind' eqn:Eind'.
    rewrite !append_assoc.
    change ("{" ++ ?t) with (String "{" ("" ++ t)).
    assert (exists r',
              String.concat ","
                (map (print_member_compact ind') ((k, x) :: fields)) ++
              "}" ++ rest = String dquote r')
      as (r' & Hbody).
    { cbn [map]. apply concat_head. }
    rewrite (parse_object_dispatch fuel "" _ dquote r' eq_refl Hbody eq_refl).
    cbn [wf_value size] in Hwf, Hfuel.
    apply andb_true_iff in Hwf. destruct Hwf as [Hkeys Hwf].
    rewrite (parse_members_compact ((k, x) :: fields) IH ltac:(discriminate)
               ind' fuel rest Hwf ltac:(lia)).
    cbn [with_tag json_image].
    change (map (fun kv => let '(k0, x0) := kv in (k0, json_image x0)))
      with (map normalize_member).
    rewrite build_object_unique by (now rewrite map_fst_normalize).
    reflexivity.
Qed.

Lemma length_wrap_compact (opening closing stepback indent : string)
    (partial : list string) :
  (1 <= String.length opening)%nat ->
  (1 <= String.length closing)%nat ->
  (S (list_sum (map (fun p => S (String.length p)) partial))
   <= String.length (wrap opening closing "" stepback indent partial))%nat.
Proof.
  intros Hop Hcl. unfold wrap. destruct partial as [| p partial].
  - rewrite length_append. simpl. lia.
  - cbn [String.eqb]. cbv iota.
    pose proof (length_concat_lower "," (p :: partial) ltac:(simpl; lia)) as H.
    rewrite !length_append. lia.
Qed.

Lemma size_le_length_compact (v : value) :
  forall indent,
    (size v <= String.length (SerializeJSONProperty "" indent v))%nat.
Proof.
  induction v as [| b | x | s | xs IH | fields IH] using value_nested_ind;
    intros indent.
  - simpl. lia.
  - destruct b; simpl; lia.
  - destruct (print_head_compact (JNum x) indent) as (c & r & H & _).
    cbn [size]. rewrite H. simpl. lia.
  - simpl. lia.
  - cbn [SerializeJSONProperty size].
    etransitivity; [| apply length_wrap_compact; simpl; lia].
    apply le_n_S. rewrite map_map. apply list_sum_le.
    eapply Forall_impl; [| exact IH].
    intros x Hx. apply le_n_S, Hx.
  - cbn [SerializeJSONProperty size].
    etransitivity; [| apply length_wrap_compact; simpl; lia].
    apply le_n_S. rewrite map_map. apply list_sum_le.
    eapply Forall_impl; [| exact IH].
    intros [k x] Hx. cbn [snd] in Hx.
    rewrite !length_append. specialize (Hx (indent ++ "")). lia.
Qed.

Lemma JSON_parse_stringify_compact (v : value) :
  wf_value v = true ->
  JSON_parse (JSON_text v) = Some (json_image v).
Proof.
  intros Hwf. unfold JSON_parse, JSON_text.
  rewrite <- (append_nil_r (SerializeJSONProperty "" "" v)) at 2.
  rewrite reads_back_compact_all; try reflexivity; try assumption.
  pose proof (size_le_length_compact v ""). lia.
Qed.

(** X14. A boolean, a finite number or an object, as JavaScript can hold
    it, is shown by [formatText] as its JSON text without line breaks,
    an object when it is nested no deeper than [JSON.stringify] can
    print.  Parsing that text gives the value with [-0] read as [0] and
    with [null] in the place of an infinity or of [NaN] inside an
    object, a value deep-equal to the one shown exactly when all its
    numbers are finite; for an object this is the value the JSON text
    of the dialog reads back to.  An infinite number is shown as
    "Infinity" and arrays are shown joined, neither of which is JSON. *)
Theorem formatText_reads_back (join_depth stringify_depth : nat) (v : value) :
  wf_value v = true ->
  shown_as_json v = true ->
  ((nesting v <= stringify_depth)%nat ->
   formatText join_depth stringify_depth (Some v) = Ok (JSON_text v)) /\
  (forall text,
     formatText join_depth stringify_depth (Some v) = Ok text ->
     text = JSON_text v /\
     JSON_parse text = Some (json_image v) /\
     deep_equal (json_image v) v = finite_value v /\
     (forall fields text2,
        v = JObj fields ->
        getJsonText stringify_depth (PRecord fields) = Ok text2 ->
        JSON_parse text = JSON_parse text2)) /\
  formatText join_depth stringify_depth (Some (JNum (Infinite false)))
  = Ok "Infinity" /\
  JSON_parse "Infinity" = None /\
  formatText join_depth stringify_depth
    (Some (JArr [JNum (of_Z 1); JNum (of_Z 2)])) = Ok "1, 2" /\
  JSON_parse "1, 2" = None.
Proof.
  intros Hwf Hshown.
  split; [| split; [| repeat split]].
  - intros Hdepth.
    destruct v as [| [] | [f | m |] | s | xs | fields];
      try discriminate Hshown; try reflexivity.
    unfold formatText, JSON_stringify.
    apply Nat.leb_le in Hdepth. now rewrite Hdepth.
  - intros text Htext.
    assert (Heq : text = JSON_text v).
    { destruct v as [| [] | [f | m |] | s | xs | fields];
        try discriminate Hshown;
        try (injection Htext as <-; reflexivity).
      unfold formatText, JSON_stringify in Htext.
      destruct (nesting (JObj fields) <=? stringify_depth)%nat;
        [| discriminate].
      now injection Htext as <-. }
    subst text.
    rewrite JSON_parse_stringify_compact by assumption.
    split; [reflexivity |]. split; [reflexivity |].
    split; [now apply deep_equal_image |].
    intros fields text2 -> Htext2.
    unfold getJsonText, JSON_stringify_2 in Htext2.
    destruct (nesting (JObj fields) <=? stringify_depth)%nat;
      [| discriminate].
    assert (text2 = JSON_text_2 (JObj fields)) as -> by congruence.
    now rewrite JSON_parse_stringify.
Qed.

Lemma formatText_reads_back_witness :
  formatText ExampleHost.join_depth ExampleHost.stringify_depth
    (Some (JObj [("name", JStr "A Co");
                 ("pages", JArr [JNum (of_Z 1); JNum (mkNumber true [] 0)]);
                 ("tax", JObj [("rate", JNum (mkNumber false [d1; d3] 0))])]))
  = Ok ("{" ++ String dquote "name" ++ String dquote ":" ++
        String dquote "A Co" ++ String dquote "," ++
        String dquote "pages" ++ String dquote ":[1,0]," ++
        String dquote "tax" ++ String dquote ":{" ++
        String dquote "rate" ++ String dquote ":0.13}}") /\
  JSON_parse
    ("{" ++ String dquote "name" ++ String dquote ":" ++
     String dquote "A Co" ++ String dquote "," ++
     String dquote "pages" ++ String dquote ":[1,0]," ++
     String dquote "tax" ++ String dquote ":{" ++
     String dquote "rate" ++ String dquote ":0.13}}")
  = Some (JObj [("name", JStr "A Co");
                ("pages", JArr [JNum (of_Z 1); JNum (of_Z 0)]);
                ("tax", JObj [("rate", JNum (mkNumber false [d1; d3] 0))])]).
Proof.
  split; [reflexivity |].
  exact (proj1 (proj2 (proj1 (proj2
    (formatText_reads_back ExampleHost.join_depth ExampleHost.stringify_depth
       (JObj [("name", JStr "A Co");
              ("pages", JArr [JNum (of_Z 1); JNum (mkNumber true [] 0)]);
              ("tax", JObj [("rate", JNum (mkNumber false [d1; d3] 0))])])
       eq_refl eq_refl)) _ eq_refl))).
Defined.

(** ** Queries and mutations *)

(** X16. What each mutation refetches.  Creating a project invalidates
    the list of projects and no other query of these pages, not even the
    query of a single project; deleting or creating a contract
    invalidates the contracts of its project and of no other project;
    deleting or creating an invoice invalidates the invoices of its
    contract and of no other contract. *)
Theorem mutations_invalidate_their_list (m : Mutation) (q : Query) :
  invalidates m q = true <->
  match m, q with
  | createContractProject, ContractProjects => True
  | deleteContract p, Contracts p' => p = p'
  | createContract p, Contracts p' => p = p'
  | deleteInvoice c, Invoices c' => c = c'
  | createInvoice c, Invoices c' => c = c'
  | _, _ => False
  end.
Proof.
  unfold invalidates.
  destruct m as [| p | p | c | c]; destruct q as [| i | p' | c'];
    cbn [onSettled queryKey partialMatchKey getContractProjectsQueryOptions
           getContractProjectQueryOptions getContractsQueryOptions
           getInvoicesQueryOptions];
    try (split; [discriminate | contradiction]);
    try (split; [reflexivity | intros _; reflexivity]);
    match goal with
    | |- context [String.eqb ?a ?b && (String.eqb ?x ?y && true)] =>
        change (String.eqb a b) with true; cbn [andb];
        rewrite andb_true_r; apply String.eqb_eq
    end.
Qed.

Lemma mutations_invalidate_their_list_witness :
  invalidates (deleteContract "p1") (Contracts "p1") = true /\
  invalidates createContractProject (ContractProject "p1") = false.
Proof.
  split.
  - apply (mutations_invalidate_their_list (deleteContract "p1")
             (Contracts "p1")).
    reflexivity.
  - destruct (invalidates createContractProject (ContractProject "p1"))
      eqn:E; [| reflexivity].
    destruct (proj1 (mutations_invalidate_their_list createContractProject
                       (ContractProject "p1")) E).
Defined.

(** ** Empty fields of the forms *)

Lemma length_positive (s : string) :
  (1 <=? String.length s)%nat = negb (String.eqb s "").
Proof. destruct s; reflexivity. Qed.

Lemma optional_min1_blank_as_absent (message : string) :
  blank_as_absent
    (preprocess empty_to_undefined (optional (z_string_min1 message))).
Proof.
  unfold blank_as_absent, preprocess, optional, empty_to_undefined,
    z_string_min1.
  split; [| split].
  - intros [[| b | x | s | xs | fs] |] m; try discriminate.
    destruct (String.eqb s "") eqn:E; [discriminate |].
    rewrite length_positive, E. discriminate.
  - intros s. destruct (String.eqb s "") eqn:E; [reflexivity |].
    rewrite length_positive, E. reflexivity.
  - intros v. split; [| intros [-> | ->]; reflexivity].
    destruct v as [[| b | x | s | xs | fs] |]; try discriminate;
      [| now left].
    destruct (String.eqb_spec s "") as [-> | Hs]; [now right |].
    rewrite length_positive.
    destruct (String.eqb_spec s ""); [contradiction | discriminate].
Qed.

Lemma optional_string_blank_as_absent :
  blank_as_absent (preprocess empty_to_undefined (optional z_string)).
Proof.
  unfold blank_as_absent, preprocess, optional, empty_to_undefined, z_string.
  split; [| split].
  - intros [[| b | x | s | xs | fs] |] m; try discriminate.
    destruct (String.eqb s ""); discriminate.
  - intros s. destruct (String.eqb s ""); reflexivity.
  - intros v. split; [| intros [-> | ->]; reflexivity].
    destruct v as [[| b | x | s | xs | fs] |]; try discriminate;
      [| now left].
    destruct (String.eqb_spec s "") as [-> | Hs]; [now right | discriminate].
Qed.

Lemma min1_required_text (message : string) :
  required_text message (z_string_min1 message).
Proof.
  unfold required_text, z_string_min1.
  split; [reflexivity |]. split; [reflexivity |].
  intros v t. split.
  - destruct v as [[| b | x | s | xs | fs] |]; try discriminate.
    rewrite length_positive.
    destruct (String.eqb_spec s "") as [-> | Hs]; [discriminate |].
    intros [= <-]. split; [reflexivity | assumption].
  - intros [-> Ht]. rewrite length_positive.
    destruct (String.eqb_spec t ""); [contradiction | reflexivity].
Qed.

(** X17. Empty fields of the forms.  In the contract form an empty
    number, name or date is an absent value: such a field never fails
    for being empty, so the messages that ask for a character are never
    shown, and a string is accepted as it is unless it is empty.  In the
    invoice form and in the project form the required fields reject the
    empty string with their message and accept every other string. *)
Theorem empty_fields_of_the_forms :
  blank_as_absent AddContractSchema.contract_number /\
  blank_as_absent AddContractSchema.contract_name /\
  blank_as_absent AddContractSchema.sign_date /\
  blank_as_absent AddContractSchema.effective_date /\
  blank_as_absent AddContractSchema.expiry_date /\
  required_text "发票号码不能为空" AddInvoiceSchema.invoice_number /\
  required_text "发票代码不能为空" AddInvoiceSchema.invoice_code /\
  required_text "项目名称不能为空" AddContractProjectSchema.name /\
  required_text "项目编号不能为空" AddContractProjectSchema.code.
Proof.
  do 2 (split; [apply optional_min1_blank_as_absent |]).
  do 3 (split; [apply optional_string_blank_as_absent |]).
  do 3 (split; [apply min1_required_text |]).
  apply min1_required_text.
Qed.

Lemma empty_fields_of_the_forms_witness :
  AddContractSchema.contract_number (Some (JStr "")) = success None /\
  AddContractSchema.contract_number (Some (JStr "HT-7"))
  = success (Some "HT-7") /\
  AddInvoiceSchema.invoice_number (Some (JStr ""))
  = failure (too_small "发票号码不能为空").
Proof.
  destruct empty_fields_of_the_forms
    as ((_ & Hnumber & _) & _ & _ & _ & _ & (Hinvoice & _) & _).
  split; [exact (Hnumber "") |].
  split; [exact (Hnumber "HT-7") | exact Hinvoice].
Defined.
